(** * The WebRTC-in-Chromium auto-roller: model and properties

    A shallow embedding of [tools/autoroller/roll_webrtc_in_chromium.py].
    The script is Python 2: strings are byte strings, modelled by [string];
    integers are unbounded, modelled by [Z].  The script drives external
    tools ([git], [roll-dep], [git cl]) through [_RunCommand]; the tools are
    modelled by [Tools.exec], a function on an explicit [World], and every
    command that is run is recorded in the log of the world.  A method of
    the script is a function from worlds to an outcome and a world; the
    outcome tells a returned value from [sys.exit] and from an uncaught
    exception.  Logging and the parsing of the command line are left out:
    [main] takes the parsed arguments. *)

From Stdlib Require Import String Ascii List ZArith Bool Lia Arith.
Import ListNotations.
Local Open Scope string_scope.

Set Implicit Arguments.

(* ================================================================== *)
(** ** Python string operations used by the script *)

Module Py.

Definition LF : ascii := "010"%char.
Definition CR : ascii := "013"%char.
Definition nl : string := String LF EmptyString.

(** [string.whitespace] of Python 2: tab, LF, VT, FF, CR, space. *)
Definition is_space (c : ascii) : bool :=
  let n := nat_of_ascii c in
  ((9 <=? n)%nat && (n <=? 13)%nat) || (n =? 32)%nat.

(** [s.lstrip()], [s.rstrip()], [s.strip()] *)
Fixpoint lstrip (s : string) : string :=
  match s with
  | String c s' => if is_space c then lstrip s' else s
  | EmptyString => EmptyString
  end.

Fixpoint rstrip (s : string) : string :=
  match s with
  | EmptyString => EmptyString
  | String c s' =>
      match rstrip s' with
      | EmptyString => if is_space c then EmptyString else String c EmptyString
      | r => String c r
      end
  end.

Definition strip (s : string) : string := rstrip (lstrip s).

(** [s.splitlines()] on a byte string: lines end at LF, CR or CR LF, and
    the terminators are dropped. *)
Fixpoint splitlines (s : string) : list string :=
  match s with
  | EmptyString => []
  | String c s' =>
      if Ascii.eqb c LF then EmptyString :: splitlines s'
      else if Ascii.eqb c CR then
        match s' with
        | String d s'' =>
            if Ascii.eqb d LF then EmptyString :: splitlines s''
            else EmptyString :: splitlines s'
        | EmptyString => [EmptyString]
        end
      else
        match splitlines s' with
        | [] => [String c EmptyString]
        | l :: ls => String c l :: ls
        end
  end.

(** [s.split(sep)] for a one-character separator. *)
Fixpoint split_on (sep : ascii) (s : string) : list string :=
  match s with
  | EmptyString => [EmptyString]
  | String c s' =>
      if Ascii.eqb c sep then EmptyString :: split_on sep s'
      else
        match split_on sep s' with
        | l :: ls => String c l :: ls
        | [] => [String c EmptyString]
        end
  end.

(** [s.split()]: the maximal runs of non-whitespace characters. *)
Fixpoint split_ws (s : string) : list string :=
  match s with
  | EmptyString => []
  | String c s' =>
      if is_space c then split_ws s'
      else
        match s' with
        | EmptyString => [String c EmptyString]
        | String d _ =>
            if is_space d then String c EmptyString :: split_ws s'
            else
              match split_ws s' with
              | w :: ws => String c w :: ws
              | [] => [String c EmptyString]
              end
        end
  end.

(** [s.startswith(p)] *)
Definition startswith (p s : string) : bool := String.prefix p s.

(** [c in s] for a one-character [c] *)
Fixpoint contains (c : ascii) (s : string) : bool :=
  match s with
  | EmptyString => false
  | String d s' => Ascii.eqb c d || contains c s'
  end.

(** [s.find(c)]: the index of the first [c], or -1. *)
Fixpoint find (c : ascii) (s : string) : Z :=
  match s with
  | EmptyString => (-1)%Z
  | String d s' =>
      if Ascii.eqb d c then 0%Z
      else let r := find c s' in if (r <? 0)%Z then (-1)%Z else (r + 1)%Z
  end.

(** Slices [s[lo:hi]]: a negative bound counts from the end, and bounds are
    clipped to the string. *)
Definition clip (len i : Z) : Z :=
  if (i <? 0)%Z then Z.max 0 (len + i) else Z.min i len.

Definition slice (lo hi : option Z) (s : string) : string :=
  let len := Z.of_nat (String.length s) in
  let l := match lo with Some i => clip len i | None => 0%Z end in
  let h := match hi with Some i => clip len i | None => len end in
  substring (Z.to_nat l) (Z.to_nat (h - l)) s.

(** [int(s)] on a string of decimal digits. *)
Definition digit_val (c : ascii) : Z := Z.of_nat (nat_of_ascii c - 48).

Fixpoint int_acc (acc : Z) (s : string) : Z :=
  match s with
  | EmptyString => acc
  | String c s' => int_acc (10 * acc + digit_val c)%Z s'
  end.

Definition int (s : string) : Z := int_acc 0 s.

(** ['%s' % v] where [v] is a string or [None]. *)
Definition str (v : option string) : string :=
  match v with Some s => s | None => "None" end.

(** ['\n'.join(l)]-style concatenation *)
Definition concat_all (l : list string) : string := String.concat "" l.

(** [a == b] on lists of strings *)
Fixpoint list_eqb (a b : list string) : bool :=
  match a, b with
  | [], [] => true
  | x :: a', y :: b' => String.eqb x y && list_eqb a' b'
  | _, _ => false
  end.

(** [x in l] on a list of strings *)
Definition mem (x : string) (l : list string) : bool :=
  existsb (String.eqb x) l.

End Py.

(* ================================================================== *)
(** ** The fragment of Python's [re] the script uses

    A backtracking matcher with Python's priorities: quantifiers are greedy
    and the first success in backtracking order is the match.  Quantifiers
    are only applied to single-character sets, which is all the script's
    patterns need. *)

Module Re.

Import Py.

Inductive cset : Type :=
| Any                      (** [.]: anything but a line feed *)
| Chr (c : ascii)          (** a literal character *)
| Rng (lo hi : ascii).     (** [[lo-hi]] *)

Definition in_cset (k : cset) (c : ascii) : bool :=
  match k with
  | Any => negb (Ascii.eqb c LF)
  | Chr d => Ascii.eqb c d
  | Rng lo hi => Ascii.leb lo c && Ascii.leb c hi
  end.

Inductive regex : Type :=
| Eps
| Bol                      (** [^] *)
| Eol                      (** [$] *)
| One (k : cset)
| Star (k : cset)          (** [k*], greedy *)
| Plus (k : cset)          (** [k+], greedy *)
| Opt (k : cset)           (** [k?], greedy *)
| Grp (n : nat) (r : regex)(** capturing group number [n] *)
| Cat (r1 r2 : regex).

Fixpoint lit (s : string) : regex :=
  match s with
  | EmptyString => Eps
  | String c s' => Cat (One (Chr c)) (lit s')
  end.

Definition seq (rs : list regex) : regex := fold_right Cat Eps rs.

Definition digit : cset := Rng "0" "9".

(** A match object: the captured groups, latest binding first. *)
Definition groups := list (nat * string).

Fixpoint group (g : groups) (n : nat) : string :=
  match g with
  | [] => EmptyString
  | (m, s) :: g' => if Nat.eqb m n then s else group g' n
  end.

Section Matcher.

Variable multiline : bool.
Variable R : Type.

(** [^]: at the start of the text, and with MULTILINE after a line feed.
    [prev] is the character before the current position. *)
Definition at_bol (prev : option ascii) : bool :=
  match prev with
  | None => true
  | Some c => multiline && Ascii.eqb c LF
  end.

(** [$]: at the end of the text or before a final line feed; with
    MULTILINE before any line feed. *)
Definition at_eol (s : string) : bool :=
  match s with
  | EmptyString => true
  | String c s' =>
      Ascii.eqb c LF &&
      (multiline || match s' with EmptyString => true | _ => false end)
  end.

(** Greedy [k*]: take characters while they are in [k], and give the
    continuation the longest prefix first. *)
Fixpoint star (k : cset) (prev : option ascii) (s : string)
         (cont : option ascii -> string -> option R) : option R :=
  match s with
  | String c s' =>
      if in_cset k c then
        match star k (Some c) s' cont with
        | Some r => Some r
        | None => cont prev s
        end
      else cont prev s
  | EmptyString => cont prev s
  end.

(** The text consumed between position [s] and the later position [s']. *)
Definition consumed (s s' : string) : string :=
  substring 0 (String.length s - String.length s') s.

Fixpoint run (r : regex) (prev : option ascii) (s : string) (g : groups)
         (cont : option ascii -> string -> groups -> option R) : option R :=
  match r with
  | Eps => cont prev s g
  | Bol => if at_bol prev then cont prev s g else None
  | Eol => if at_eol s then cont prev s g else None
  | One k =>
      match s with
      | String c s' => if in_cset k c then cont (Some c) s' g else None
      | EmptyString => None
      end
  | Star k => star k prev s (fun p s' => cont p s' g)
  | Plus k =>
      match s with
      | String c s' =>
          if in_cset k c then star k (Some c) s' (fun p s' => cont p s' g)
          else None
      | EmptyString => None
      end
  | Opt k =>
      match s with
      | String c s' =>
          if in_cset k c then
            match cont (Some c) s' g with
            | Some r => Some r
            | None => cont prev s g
            end
          else cont prev s g
      | EmptyString => cont prev s g
      end
  | Grp n r' =>
      run r' prev s g (fun p s' g' => cont p s' ((n, consumed s s') :: g'))
  | Cat r1 r2 =>
      run r1 prev s g (fun p s' g' => run r2 p s' g' cont)
  end.

End Matcher.

(** [pattern.match(s)]: a match anchored at the start of [s]. *)
Definition re_match (r : regex) (s : string) : option groups :=
  run false r None s [] (fun _ _ g => Some g).

(** [re.sub(pattern, repl, s)]: every non-overlapping match, scanning from
    the left, is replaced by [repl]; [repl] is taken literally (the script
    passes a text without backslashes). *)
Fixpoint sub_from (ml : bool) (r : regex) (repl : string) (fuel : nat)
         (prev : option ascii) (s : string) : string :=
  match fuel with
  | O => s
  | S fuel' =>
      match run ml r prev s [] (fun p s' _ => Some (p, s')) with
      | Some (p, s') =>
          if (String.length s' <? String.length s)%nat
          then repl ++ sub_from ml r repl fuel' p s'
          else
            match s with
            | EmptyString => repl
            | String c t =>
                repl ++ String c (sub_from ml r repl fuel' (Some c) t)
            end
      | None =>
          match s with
          | EmptyString => EmptyString
          | String c t => String c (sub_from ml r repl fuel' (Some c) t)
          end
      end
  end.

Definition re_sub (ml : bool) (r : regex) (repl s : string) : string :=
  sub_from ml r repl (S (String.length s)) None s.

End Re.

(* ================================================================== *)
(** ** Constants of the script *)

Import Py Re.

(** The patterns are quoted below with a space between a star and a
    closing parenthesis, which the source does not have.

    [re.compile('^Cr-Original-Commit-Position: .*#([0-9]+).*$')] *)
Definition GIT_SVN_ID_RE : regex :=
  seq [Bol; lit "Cr-Original-Commit-Position: "; Star Any; One (Chr "#");
       Grp 1 (Plus digit); Star Any; Eol].

(** [re.compile('^Issue number: ([0-9]+) \((.* )\)$')] *)
Definition CL_ISSUE_RE : regex :=
  seq [Bol; lit "Issue number: "; Grp 1 (Plus digit); One (Chr " ");
       One (Chr "("); Grp 2 (Star Any); One (Chr ")"); Eol].

(** [re.compile('^https?://(.* )/(.* )')] *)
Definition RIETVELD_URL_RE : regex :=
  seq [Bol; lit "http"; Opt (Chr "s"); lit "://"; Grp 1 (Star Any);
       One (Chr "/"); Grp 2 (Star Any)].

(** [re.compile('.*^Revision\: ([0-9]* ).*', re.MULTILINE)], the pattern of
    [_UpdateReadmeFile] *)
Definition README_REVISION_RE : regex :=
  seq [Star Any; Bol; lit "Revision: "; Grp 1 (Star digit); Star Any].

Definition ROLL_BRANCH_NAME : string := "special_webrtc_roll_branch".
Definition WEBRTC_PATH : string := "third_party/webrtc".
Definition LIBJINGLE_PATH : string := "third_party/libjingle/source/talk".
Definition LIBJINGLE_README : string := "third_party/libjingle/README.chromium".

(* ================================================================== *)
(** ** The external tools

    The script only talks to its surroundings through command lines.  The
    tools are not part of the script; the model below is what the script
    relies on.  The checkout is a small repository: the checked-out branch
    and the other branches with their tip revisions, the two tracked files
    a roll touches (the dependency file DEPS and the libjingle README),
    untracked files, and a flag for a filled index.  The local git commands
    ([rev-parse], [status], [branch], [checkout], [add], [commit]) are
    functions of that repository and fail where git fails: deleting the
    checked-out or an unknown branch, creating an existing one, switching
    over a modified file, committing nothing.  Commands that reach outside
    the checkout (fetch and log in a dependency, pull, the review tool,
    and whether roll-dep succeeds) answer through [reply], about which
    nothing is assumed. *)

Module Tools.

(** The [deps] dictionary of DEPS: path to [url@revision]. *)
Definition Deps := list (string * string).

Fixpoint deps_get (k : string) (d : Deps) : option string :=
  match d with
  | [] => None
  | (k', v) :: d' => if String.eqb k k' then Some v else deps_get k d'
  end.

(** The entry that [deps_get] finds is the one that is rewritten. *)
Fixpoint deps_set (k v : string) (d : Deps) : Deps :=
  match d with
  | [] => []
  | (k', v') :: d' =>
      if String.eqb k k' then (k', v) :: d'
      else (k', v') :: deps_set k v d'
  end.

Fixpoint deps_eqb (a b : Deps) : bool :=
  match a, b with
  | [], [] => true
  | (k, v) :: a', (k', v') :: b' =>
      String.eqb k k' && String.eqb v v' && deps_eqb a' b'
  | _, _ => false
  end.

(** A revision: the content of the tracked files and the commit messages
    that led to it, newest first. *)
Record Rev : Type := mkRev {
  rev_deps : Deps;
  rev_readme : string;
  rev_msgs : list string
}.

Record Repo : Type := mkRepo {
  cur_name : string;                (** the checked-out branch *)
  cur_rev : Rev;                    (** its tip *)
  others : list (string * Rev);     (** the other local branches *)
  work_deps : Deps;                 (** DEPS in the working tree *)
  work_readme : string;             (** the README in the working tree *)
  untracked : list string;          (** untracked files *)
  staged : bool                     (** the index holds the tracked changes *)
}.

Record Command : Type := mkCommand {
  argv : list string;
  cwd : string;
  extra_env : list (string * string)
}.

(** What lies outside the checkout. *)
Record Outside : Type := mkOutside {
  upstream : Rev;                          (** the remote tip that pull merges *)
  reply : Command -> Z * string;           (** exit status and stdout *)
  is_file : string -> bool;                (** [os.path.isfile] *)
  is_dir : string -> bool;                 (** [os.path.isdir] *)
  getcwd : string                          (** [os.getcwd()] *)
}.

Record World : Type := mkWorld {
  repo : Repo;
  outside : Outside;
  log : list (Command * Z)          (** the commands run, with exit status *)
}.

Definition names (bs : list (string * Rev)) : list string := map fst bs.

Fixpoint lookup (n : string) (bs : list (string * Rev)) : option Rev :=
  match bs with
  | [] => None
  | (m, r) :: bs' => if String.eqb n m then Some r else lookup n bs'
  end.

Definition remove (n : string) (bs : list (string * Rev)) : list (string * Rev) :=
  filter (fun b => negb (String.eqb n (fst b))) bs.

Definition has_branch (n : string) (r : Repo) : bool :=
  String.eqb n (cur_name r) || mem n (names (others r)).

(** Branch names as git accepts them: not empty, and free of white space
    and of the star that marks the active branch in listings. *)
Fixpoint plain (s : string) : bool :=
  match s with
  | EmptyString => true
  | String c s' => negb (is_space c) && negb (Ascii.eqb c "*") && plain s'
  end.

Definition valid_name (n : string) : bool :=
  negb (String.eqb n "") && plain n.

Definition wf_repo (r : Repo) : Prop :=
  valid_name (cur_name r) = true /\
  forallb valid_name (names (others r)) = true.

Definition deps_modified (r : Repo) : bool :=
  negb (deps_eqb (work_deps r) (rev_deps (cur_rev r))).

Definition readme_modified (r : Repo) : bool :=
  negb (String.eqb (work_readme r) (rev_readme (cur_rev r))).

Definition tracked_modified (r : Repo) : bool :=
  deps_modified r || readme_modified r.

Definition lines_out (ls : list string) : string :=
  concat_all (map (fun l => l ++ nl) ls).

(** The answer of [git status --porcelain]. *)
Definition status_lines (r : Repo) : list string :=
  List.app (if deps_modified r then [" M DEPS"] else [])
    (List.app (if readme_modified r then [" M " ++ LIBJINGLE_README] else [])
       (map (fun f => "?? " ++ f) (untracked r))).

(** The answer of [git branch]. *)
Definition branch_lines (r : Repo) : list string :=
  ("* " ++ cur_name r) :: map (fun b => "  " ++ fst b) (others r).

(** The two halves of a pin [url@revision], cut at the first [@] as
    [_GetDepsCommitInfo] cuts them. *)
Definition pin_url (entry : string) : string :=
  slice None (Some (find "@" entry)) entry.
Definition pin_rev (entry : string) : string :=
  slice (Some (find "@" entry + 1)%Z) None entry.

Definition set_others (bs : list (string * Rev)) (r : Repo) : Repo :=
  mkRepo (cur_name r) (cur_rev r) bs (work_deps r) (work_readme r)
         (untracked r) (staged r).

Definition set_staged (b : bool) (r : Repo) : Repo :=
  mkRepo (cur_name r) (cur_rev r) (others r) (work_deps r) (work_readme r)
         (untracked r) b.

Definition set_work_deps (d : Deps) (r : Repo) : Repo :=
  mkRepo (cur_name r) (cur_rev r) (others r) d (work_readme r)
         (untracked r) false.

Definition set_work_readme (t : string) (r : Repo) : Repo :=
  mkRepo (cur_name r) (cur_rev r) (others r) (work_deps r) t
         (untracked r) false.

(** [git branch -D n]: refuses the checked-out branch and unknown names. *)
Definition git_branch_delete (n : string) (r : Repo) : Z * string * Repo :=
  if String.eqb n (cur_name r) then (1%Z, "", r)
  else if mem n (names (others r))
       then (0%Z, "", set_others (remove n (others r)) r)
       else (1%Z, "", r).

(** [git checkout -b n]: a new branch at the current tip, keeping the
    working tree; refuses an existing name and an invalid one. *)
Definition git_checkout_new (n : string) (r : Repo) : Z * string * Repo :=
  if has_branch n r || negb (valid_name n) then (128%Z, "", r)
  else (0%Z, "",
        mkRepo n (cur_rev r) ((cur_name r, cur_rev r) :: others r)
               (work_deps r) (work_readme r) (untracked r) (staged r)).

(** [git checkout n]: a tracked file follows the target revision when it is
    unmodified, stays when both revisions agree on it, and blocks the
    switch otherwise. *)
Definition git_checkout (n : string) (r : Repo) : Z * string * Repo :=
  if String.eqb n (cur_name r) then (0%Z, "", r)
  else
    match lookup n (others r) with
    | None => (1%Z, "", r)
    | Some t =>
        let c := cur_rev r in
        let deps_same := deps_eqb (rev_deps t) (rev_deps c) in
        let readme_same := String.eqb (rev_readme t) (rev_readme c) in
        if (deps_same || negb (deps_modified r))
           && (readme_same || negb (readme_modified r))
        then (0%Z, "",
              mkRepo n t ((cur_name r, c) :: remove n (others r))
                     (if deps_modified r then work_deps r else rev_deps t)
                     (if readme_modified r then work_readme r else rev_readme t)
                     (untracked r) false)
        else (1%Z, "", r)
    end.

(** [git add --update .] *)
Definition git_add_update (r : Repo) : Z * string * Repo :=
  (0%Z, "", set_staged (tracked_modified r) r).

(** [git commit -m msg]: fails when nothing is staged. *)
Definition git_commit_msg (msg : string) (r : Repo) : Z * string * Repo :=
  if staged r && tracked_modified r
  then (0%Z, "",
        mkRepo (cur_name r)
               (mkRev (work_deps r) (work_readme r) (msg :: rev_msgs (cur_rev r)))
               (others r) (work_deps r) (work_readme r) (untracked r) false)
  else (1%Z, "", r).

(** [git pull], on a tree without tracked changes: the branch and the
    tracked files move to the upstream tip. *)
Definition git_pull (o : Outside) (c : Command) (r : Repo) : Z * string * Repo :=
  let '(code, out) := reply o c in
  if negb (code =? 0)%Z then (code, out, r)
  else if tracked_modified r then (1%Z, "", r)
  else (0%Z, out,
        mkRepo (cur_name r) (upstream o) (others r)
               (rev_deps (upstream o)) (rev_readme (upstream o))
               (untracked r) false).

(** [roll-dep path revision]: rewrites the pin of [src/path] in DEPS. *)
Definition roll_dep (o : Outside) (c : Command) (path revision : string)
           (r : Repo) : Z * string * Repo :=
  let '(code, out) := reply o c in
  if negb (code =? 0)%Z then (code, out, r)
  else
    match deps_get ("src/" ++ path) (work_deps r) with
    | None => (1%Z, "", r)
    | Some entry =>
        (0%Z, out,
         set_work_deps
           (deps_set ("src/" ++ path) (pin_url entry ++ "@" ++ revision)
                     (work_deps r)) r)
    end.

(** The tools, by command line. *)
Definition exec (c : Command) (w : World) : Z * string * Repo :=
  let r := repo w in
  let o := outside w in
  let a := argv c in
  if list_eqb a ["git"; "rev-parse"; "--abbrev-ref"; "HEAD"]
  then (0%Z, cur_name r ++ nl, r)
  else if list_eqb a ["git"; "status"; "--porcelain"]
  then (0%Z, lines_out (status_lines r), r)
  else if list_eqb a ["git"; "branch"]
  then (0%Z, lines_out (branch_lines r), r)
  else if list_eqb a ["git"; "pull"]
  then git_pull o c r
  else if list_eqb a ["git"; "add"; "--update"; "."]
  then git_add_update r
  else
    match a with
    | [a0; a1; a2] =>
        if list_eqb [a0; a1] ["git"; "checkout"] then git_checkout a2 r
        else if String.eqb a0 "roll-dep" then roll_dep o c a1 a2 r
        else let '(code, out) := reply o c in (code, out, r)
    | [a0; a1; a2; a3] =>
        if list_eqb [a0; a1; a2] ["git"; "branch"; "-D"]
        then git_branch_delete a3 r
        else if list_eqb [a0; a1; a2] ["git"; "checkout"; "-b"]
        then git_checkout_new a3 r
        else if list_eqb [a0; a1; a2] ["git"; "commit"; "-m"]
        then git_commit_msg a3 r
        else let '(code, out) := reply o c in (code, out, r)
    | _ => let '(code, out) := reply o c in (code, out, r)
    end.

End Tools.

Import Tools.

(* ================================================================== *)
(** ** The process: state, [sys.exit] and uncaught exceptions *)

Inductive Outcome (A : Type) : Type :=
| Ret (a : A)
| SysExit (code : Z)          (** [sys.exit(code)] *)
| Raised (exn : string).      (** an uncaught exception *)

Arguments Ret {A} a.
Arguments SysExit {A} code.
Arguments Raised {A} exn.

Definition M (A : Type) : Type := World -> Outcome A * World.

Definition ret {A} (a : A) : M A := fun w => (Ret a, w).

Definition bind {A B} (m : M A) (k : A -> M B) : M B :=
  fun w =>
    match m w with
    | (Ret a, w') => k a w'
    | (SysExit c, w') => (SysExit c, w')
    | (Raised e, w') => (Raised e, w')
    end.

Definition lift {A} (o : Outcome A) : M A := fun w => (o, w).

Notation "x <- m ;; k" := (bind m (fun x => k))
  (at level 61, m at next level, right associativity).
Notation "m ;;; k" := (bind m (fun _ => k))
  (at level 61, right associativity).

(** The exit status of the process that ran [sys.exit(main())]. *)
Definition exit_status (o : Outcome Z) : Z :=
  match o with
  | Ret c => c
  | SysExit c => c
  | Raised _ => 1%Z
  end.

(* ================================================================== *)
(** ** The script *)

Record CommitInfo : Type := mkCommitInfo {
  svn_revision : string;
  git_commit : string;
  git_repo_url : option string      (** [None] for an upstream tip *)
}.

Record CLInfo : Type := mkCLInfo {
  issue : Z;
  url : string;
  rietveld_server : string
}.

(** A Python string in a condition: true unless empty. *)
Definition truthy (s : string) : bool := negb (String.eqb s "").

(** The loop of [_ParseSvnRevisionFromGitDescription] over the lines it is
    given (the caller passes them bottom-up). *)
Fixpoint svn_revision_scan (lines : list string) : Outcome string :=
  match lines with
  | [] => SysExit (-1)
  | line :: rest =>
      match re_match GIT_SVN_ID_RE (strip line) with
      | Some m => Ret (group m 1)
      | None => svn_revision_scan rest
      end
  end.

Definition _ParseSvnRevisionFromGitDescription (description : string)
  : Outcome string :=
  svn_revision_scan (rev (splitlines description)).

Fixpoint git_commit_scan (lines : list string) : Outcome string :=
  match lines with
  | [] => SysExit (-1)
  | line :: rest =>
      if startswith "commit " line then
        match split_ws line with
        | _ :: id :: _ => Ret id
        | _ => Raised "IndexError"
        end
      else git_commit_scan rest
  end.

Definition _ParseGitCommitFromDescription (description : string)
  : Outcome string :=
  git_commit_scan (splitlines description).

Definition GetChangeLogURL (git_repo_url : option string)
           (current_hash new_hash : string) : string :=
  str git_repo_url ++ "/+log/" ++ slice (Some 0%Z) (Some 7%Z) current_hash
    ++ ".." ++ slice (Some 0%Z) (Some 7%Z) new_hash.

Definition _GenerateCLDescription
           (webrtc_current libjingle_current webrtc_new libjingle_new : CommitInfo)
  : string :=
  let delim := "" in
  let webrtc_str := "" in
  let '(webrtc_str, webrtc_changelog_url) :=
    if negb (String.eqb (git_commit webrtc_current) (git_commit webrtc_new))
    then ("WebRTC " ++ svn_revision webrtc_current ++ ":"
            ++ svn_revision webrtc_new,
          GetChangeLogURL (git_repo_url webrtc_current)
                          (git_commit webrtc_current) (git_commit webrtc_new))
    else (webrtc_str, "") in
  let libjingle_str := "" in
  let '(delim, libjingle_str, libjingle_changelog_url) :=
    if negb (String.eqb (git_commit libjingle_current) (git_commit libjingle_new))
    then (if truthy webrtc_str then delim ++ ", " else delim,
          "Libjingle " ++ svn_revision libjingle_current ++ ":"
            ++ svn_revision libjingle_new,
          GetChangeLogURL (git_repo_url libjingle_current)
                          (git_commit libjingle_current)
                          (git_commit libjingle_new))
    else (delim, libjingle_str, "") in
  let description :=
    "Roll " ++ webrtc_str ++ delim ++ libjingle_str ++ nl ++ nl in
  let description :=
    if truthy webrtc_str
    then (description ++ webrtc_str ++ nl)
           ++ "Changes: " ++ webrtc_changelog_url ++ nl ++ nl
    else description in
  let description :=
    if truthy libjingle_str
    then (description ++ libjingle_str ++ nl)
           ++ "Changes: " ++ libjingle_changelog_url ++ nl
    else description in
  description ++ nl ++ "TBR=".

(** [os.path.join(a, b)] on POSIX paths *)
Definition path_join (a b : string) : string :=
  if startswith "/" b then b
  else if String.eqb a "" then b
  else if String.eqb (slice (Some (-1)%Z) None a) "/" then a ++ b
  else a ++ "/" ++ b.

Definition _IsChromiumCheckout (checkout_dir : string) : M bool :=
  fun w =>
    (Ret (is_file (outside w) (path_join checkout_dir "DEPS")
          && is_dir (outside w) (path_join checkout_dir "chrome")), w).

Record AutoRoller : Type := mkAutoRoller {
  _chromium_src : string;
  _dry_run : bool;
  _ignore_checks : bool;
  _no_commit : bool
}.

Section Methods.

Variable self : AutoRoller.

(** [_RunCommand]: runs the command in [working_dir], or in the checkout
    when none is given; a failing command ends the process with its exit
    status unless [ignore_exit_code] is set. *)
Definition _RunCommand (command : list string) (working_dir : option string)
           (ignore_exit_code : bool) (env : list (string * string))
  : M string :=
  fun w =>
    let working_dir :=
      match working_dir with
      | Some d => if truthy d then d else _chromium_src self
      | None => _chromium_src self
      end in
    let c := mkCommand command working_dir env in
    let '(returncode, output, r) := exec c w in
    let w' := mkWorld r (outside w) (List.app (log w) [(c, returncode)]) in
    if negb ignore_exit_code && negb (returncode =? 0)%Z
    then (SysExit returncode, w')
    else (Ret output, w').

Definition _GetCommitInfo (path_below_src : string) (git_hash : option string)
           (git_repo_url : option string) : M CommitInfo :=
  let working_dir := path_join (_chromium_src self) path_below_src in
  _RunCommand ["git"; "fetch"; "origin"] (Some working_dir) false [] ;;;
  let revision_range :=
    match git_hash with
    | Some h => if truthy h then h else "origin"
    | None => "origin"
    end in
  out <- _RunCommand ["git"; "--no-pager"; "log"; revision_range;
                      "--pretty=full"; "-1"] (Some working_dir) false [] ;;
  svn <- lift (_ParseSvnRevisionFromGitDescription out) ;;
  commit <- lift (_ParseGitCommitFromDescription out) ;;
  ret (mkCommitInfo svn commit git_repo_url).

Definition _GetDepsCommitInfo (deps_dict : Deps) (path_below_src : string)
  : M CommitInfo :=
  match deps_get ("src/" ++ path_below_src) deps_dict with
  | None => lift (Raised "KeyError")
  | Some entry =>
      let at_index := find "@" entry in
      let git_repo_url := slice None (Some at_index) entry in
      let git_hash := slice (Some (at_index + 1)%Z) None entry in
      _GetCommitInfo path_below_src (Some git_hash) (Some git_repo_url)
  end.

Definition _GetCLInfo : M CLInfo :=
  cl_output <- _RunCommand ["git"; "cl"; "issue"] None false [] ;;
  match re_match CL_ISSUE_RE (strip cl_output) with
  | None => lift (SysExit (-1))
  | Some m =>
      let issue_number := int (group m 1) in
      let url := group m 2 in
      match re_match RIETVELD_URL_RE url with
      | None => lift (SysExit (-1))
      | Some m => ret (mkCLInfo issue_number url (group m 1))
      end
  end.

Definition _GetCurrentBranchName : M string :=
  out <- _RunCommand ["git"; "rev-parse"; "--abbrev-ref"; "HEAD"] None false [] ;;
  match splitlines out with
  | l :: _ => ret l
  | [] => lift (Raised "IndexError")
  end.

Definition _IsTreeClean : M bool :=
  out <- _RunCommand ["git"; "status"; "--porcelain"] None false [] ;;
  let lines := splitlines out in
  if (List.length lines =? 0)%nat then ret true else ret false.

(** The DEPS file is read from the working tree; evaluating it gives the
    [deps] dictionary. *)
Definition _ParseDepsFile : M Deps :=
  fun w => (Ret (work_deps (repo w)), w).

(** The README is rewritten in the working tree.  The model holds one
    README, the libjingle one; any other path cannot be opened. *)
Definition _UpdateReadmeFile (readme_path new_revision : string) : M unit :=
  if String.eqb readme_path LIBJINGLE_README then
    fun w =>
      let txt := work_readme (repo w) in
      let m := re_sub true README_REVISION_RE ("Revision: " ++ new_revision) txt in
      (Ret tt, mkWorld (set_work_readme m (repo w)) (outside w) (log w))
  else lift (Raised "IOError").

Definition _DeleteRollBranch : M unit :=
  _RunCommand ["git"; "checkout"; "master"] None false [] ;;;
  _RunCommand ["git"; "branch"; "-D"; ROLL_BRANCH_NAME] None false [] ;;;
  ret tt.

(** [PrepareRoll] after its checks: the stale branch is dropped and the
    roll branch created. *)
Definition PrepareRoll_branch : M unit :=
  _RunCommand ["git"; "branch"; "-D"; ROLL_BRANCH_NAME] None true [] ;;;
  (if negb (_ignore_checks self)
   then _RunCommand ["git"; "pull"] None false [] ;;; ret tt
   else ret tt) ;;;
  _RunCommand ["git"; "checkout"; "-b"; ROLL_BRANCH_NAME] None false [] ;;;
  ret tt.

(** The current pins and the upstream tips are resolved, webrtc before
    libjingle. *)
Definition PrepareRoll_resolve
  : M (CommitInfo * CommitInfo * CommitInfo * CommitInfo) :=
  deps <- _ParseDepsFile ;;
  webrtc_current <- _GetDepsCommitInfo deps WEBRTC_PATH ;;
  libjingle_current <- _GetDepsCommitInfo deps LIBJINGLE_PATH ;;
  webrtc_latest <- _GetCommitInfo WEBRTC_PATH None None ;;
  libjingle_latest <- _GetCommitInfo LIBJINGLE_PATH None None ;;
  ret (webrtc_current, libjingle_current, webrtc_latest, libjingle_latest).

(** Both pins are rewritten to the upstream tips. *)
Definition PrepareRoll_bump (webrtc_latest libjingle_latest : CommitInfo)
  : M unit :=
  _RunCommand ["roll-dep"; WEBRTC_PATH; git_commit webrtc_latest]
              None false [] ;;;
  _RunCommand ["roll-dep"; LIBJINGLE_PATH; git_commit libjingle_latest]
              None false [] ;;;
  ret tt.

(** A clean tree ends the roll; otherwise the change is committed and
    uploaded, and sent to the commit queue unless told not to. *)
Definition PrepareRoll_finish
           (webrtc_current libjingle_current webrtc_latest libjingle_latest
            : CommitInfo) : M Z :=
  clean <- _IsTreeClean ;;
  (if clean then _DeleteRollBranch
   else
     _UpdateReadmeFile LIBJINGLE_README (svn_revision libjingle_latest) ;;;
     let description :=
       _GenerateCLDescription webrtc_current libjingle_current
                              webrtc_latest libjingle_latest in
     _RunCommand ["git"; "add"; "--update"; "."] None false [] ;;;
     _RunCommand ["git"; "commit"; "-m"; description] None false [] ;;;
     _RunCommand ["git"; "cl"; "upload"; "-m"; description]
                 None false [("EDITOR", "true")] ;;;
     cl_info <- _GetCLInfo ;;
     if negb (_dry_run self) && negb (_no_commit self) then
       _RunCommand ["git"; "cl"; "set_commit"] None false [] ;;;
       _DeleteRollBranch
     else ret tt) ;;;
  ret 0%Z.

(** [PrepareRoll] once its checks have passed. *)
Definition PrepareRoll_roll : M Z :=
  PrepareRoll_branch ;;;
  infos <- PrepareRoll_resolve ;;
  let '(webrtc_current, libjingle_current, webrtc_latest, libjingle_latest) :=
    infos in
  PrepareRoll_bump webrtc_latest libjingle_latest ;;;
  PrepareRoll_finish webrtc_current libjingle_current
                     webrtc_latest libjingle_latest.

Definition PrepareRoll : M Z :=
  if negb (_ignore_checks self) then
    branch <- _GetCurrentBranchName ;;
    if negb (String.eqb branch "master") then ret (-1)%Z
    else
      clean <- _IsTreeClean ;;
      if negb clean then ret (-1)%Z
      else PrepareRoll_roll
  else PrepareRoll_roll.

(** The loop of [_GetBranches] over the lines of [git branch]. *)
Fixpoint branches_scan (lines : list string) (active : string)
         (branches : list string) : string * list string :=
  match lines with
  | [] => (active, branches)
  | l :: rest =>
      if contains "*" l then
        let active := strip (slice (Some 1%Z) None l) in
        branches_scan rest active (List.app branches [active])
      else
        let b := strip l in
        if truthy b then branches_scan rest active (List.app branches [b])
        else branches_scan rest active branches
  end.

Definition _GetBranches : M (string * list string) :=
  out <- _RunCommand ["git"; "branch"] None false [] ;;
  let lines := split_on LF out in
  ret (branches_scan lines "" []).

Definition Abort : M Z :=
  ab <- _GetBranches ;;
  let '(active_branch, branches) := ab in
  let active_branch :=
    if String.eqb active_branch ROLL_BRANCH_NAME then "master"
    else active_branch in
  (if mem ROLL_BRANCH_NAME branches then
     _RunCommand ["git"; "checkout"; ROLL_BRANCH_NAME] None false [] ;;;
     _RunCommand ["git"; "cl"; "set_close"] None true [] ;;;
     _RunCommand ["git"; "checkout"; active_branch] None false [] ;;;
     _RunCommand ["git"; "branch"; "-D"; ROLL_BRANCH_NAME] None false [] ;;;
     ret tt
   else ret tt) ;;;
  ret 0%Z.

End Methods.

(** The command-line arguments after [argparse]. *)
Record Args : Type := mkArgs {
  chromium_checkout : option string;
  abort : bool;
  no_commit : bool;
  dry_run : bool;
  ignore_checks : bool;
  verbose : bool
}.

(** [main], given [sys.platform] and the parsed arguments. *)
Definition main (platform : string) (args : Args) : M Z :=
  if mem platform ["win32"; "cygwin"] then ret (-1)%Z
  else
    let run (checkout : string) : M Z :=
      let autoroller :=
        mkAutoRoller checkout (dry_run args) (ignore_checks args)
                     (no_commit args) in
      if abort args then Abort autoroller else PrepareRoll autoroller in
    match chromium_checkout args with
    | Some d =>
        if truthy d then
          ok <- _IsChromiumCheckout d ;;
          if negb ok then ret (-2)%Z else run d
        else
          fun w =>
            let cwd := getcwd (outside w) in
            (ok <- _IsChromiumCheckout cwd ;;
             if ok then run cwd else ret (-2)%Z) w
    | None =>
        fun w =>
          let cwd := getcwd (outside w) in
          (ok <- _IsChromiumCheckout cwd ;;
           if ok then run cwd else ret (-2)%Z) w
    end.

(* ================================================================== *)
(** ** Vocabulary of the statements *)

(** The heading line of a dependency in the change description: its name
    and the [old:new] sequence numbers. *)
Definition heading (name : string) (c n : CommitInfo) : string :=
  name ++ " " ++ svn_revision c ++ ":" ++ svn_revision n.

(** The changelog address: the repository, [/+log/], and the first seven
    characters of both identifiers. *)
Definition changes (c n : CommitInfo) : string :=
  str (git_repo_url c) ++ "/+log/" ++ substring 0 7 (git_commit c)
    ++ ".." ++ substring 0 7 (git_commit n).

(** Every character of [s] is in the set [k]. *)
Fixpoint all_in (k : cset) (s : string) : bool :=
  match s with
  | EmptyString => true
  | String c s' => in_cset k c && all_in k s'
  end.

(** The character before the position reached after reading [u]. *)
Fixpoint last_prev (prev : option ascii) (u : string) : option ascii :=
  match u with
  | EmptyString => prev
  | String c u' => last_prev (Some c) u'
  end.

(** The world after a command: the repository it left, and its log entry. *)
Definition logged (c : Command) (code : Z) (r : Repo) (w : World) : World :=
  mkWorld r (outside w) (List.app (log w) [(c, code)]).

(** The directory [_RunCommand] runs in. *)
Definition run_dir (self : AutoRoller) (working_dir : option string) : string :=
  match working_dir with
  | Some d => if truthy d then d else _chromium_src self
  | None => _chromium_src self
  end.

(** A command line run in the checkout, and one run in a dependency. *)
Definition cmd (self : AutoRoller) (a : list string) : Command :=
  mkCommand a (_chromium_src self) [].

Definition cmd_in (self : AutoRoller) (path : string) (a : list string)
  : Command :=
  mkCommand a (path_join (_chromium_src self) path) [].

(** The commands that only answer through [reply]. *)
Definition answers_outside (a : list string) : Prop :=
  forall d e w,
    exec (mkCommand a d e) w =
    (fst (reply (outside w) (mkCommand a d e)),
     snd (reply (outside w) (mkCommand a d e)), repo w).

(** [emits P m]: a run of [m] only adds to the log, and only commands that
    satisfy [P]. *)
Definition emits {A} (P : Command -> Prop) (m : M A) : Prop :=
  forall w, exists l,
    log (snd (m w)) = List.app (log w) l /\ Forall (fun e => P (fst e)) l.

(** The world in which [PrepareRoll_branch] leaves a checkout that was not
    on the roll branch, when the pull, if there is one, went through. *)
Definition after_branch (self : AutoRoller) (w : World) : World :=
  let r := repo w in
  let del :=
    (cmd self ["git"; "branch"; "-D"; ROLL_BRANCH_NAME],
     if mem ROLL_BRANCH_NAME (names (others r)) then 0%Z else 1%Z) in
  let new := (cmd self ["git"; "checkout"; "-b"; ROLL_BRANCH_NAME], 0%Z) in
  if _ignore_checks self then
    mkWorld
      (mkRepo ROLL_BRANCH_NAME (cur_rev r)
              ((cur_name r, cur_rev r) :: remove ROLL_BRANCH_NAME (others r))
              (work_deps r) (work_readme r) (untracked r) (staged r))
      (outside w) (List.app (log w) [del; new])
  else
    let up := upstream (outside w) in
    mkWorld
      (mkRepo ROLL_BRANCH_NAME up
              ((cur_name r, up) :: remove ROLL_BRANCH_NAME (others r))
              (rev_deps up) (rev_readme up) (untracked r) false)
      (outside w)
      (List.app (log w) [del; (cmd self ["git"; "pull"], 0%Z); new]).

(** No line of [git status --porcelain]. *)
Definition tree_clean (r : Repo) : bool :=
  match status_lines r with
  | [] => true
  | _ :: _ => false
  end.

(** The revision a roll starts from: the pulled upstream tip, or the
    current tip when the checks and the pull are skipped. *)
Definition roll_base (self : AutoRoller) (w : World) : Rev :=
  if _ignore_checks self then cur_rev (repo w) else upstream (outside w).

(** The revision range [_GetCommitInfo] asks for. *)
Definition range_of (git_hash : string) : string :=
  if truthy git_hash then git_hash else "origin".

Definition fetch_cmd (self : AutoRoller) (path : string) : Command :=
  cmd_in self path ["git"; "fetch"; "origin"].

Definition log_cmd (self : AutoRoller) (path range : string) : Command :=
  cmd_in self path ["git"; "--no-pager"; "log"; range; "--pretty=full"; "-1"].

(** In [path], fetching succeeds and the log of [range] shows the sequence
    number [svn] and the commit identifier [commit]. *)
Definition resolves (self : AutoRoller) (o : Outside)
           (path range svn commit : string) : Prop :=
  fst (reply o (fetch_cmd self path)) = 0%Z /\
  exists out,
    reply o (log_cmd self path range) = (0%Z, out) /\
    _ParseSvnRevisionFromGitDescription out = Ret svn /\
    _ParseGitCommitFromDescription out = Ret commit.

(** A world with further log entries. *)
Definition add_log (l : list (Command * Z)) (w : World) : World :=
  mkWorld (repo w) (outside w) (List.app (log w) l).

(** The log entries of the steps of a roll in which every command
    succeeds: [h_webrtc] and [h_libjingle] are the pinned identifiers,
    [t_webrtc] and [t_libjingle] the upstream tips. *)
Definition checks_log (self : AutoRoller) : list (Command * Z) :=
  if _ignore_checks self then []
  else [(cmd self ["git"; "rev-parse"; "--abbrev-ref"; "HEAD"], 0%Z);
        (cmd self ["git"; "status"; "--porcelain"], 0%Z)].

Definition branch_log (self : AutoRoller) (w : World) : list (Command * Z) :=
  (cmd self ["git"; "branch"; "-D"; ROLL_BRANCH_NAME],
   if mem ROLL_BRANCH_NAME (names (others (repo w))) then 0%Z else 1%Z)
  :: List.app
       (if _ignore_checks self then []
        else [(cmd self ["git"; "pull"], 0%Z)])
       [(cmd self ["git"; "checkout"; "-b"; ROLL_BRANCH_NAME], 0%Z)].

Definition resolve_log (self : AutoRoller) (h_webrtc h_libjingle : string)
  : list (Command * Z) :=
  [(fetch_cmd self WEBRTC_PATH, 0%Z);
   (log_cmd self WEBRTC_PATH (range_of h_webrtc), 0%Z);
   (fetch_cmd self LIBJINGLE_PATH, 0%Z);
   (log_cmd self LIBJINGLE_PATH (range_of h_libjingle), 0%Z);
   (fetch_cmd self WEBRTC_PATH, 0%Z);
   (log_cmd self WEBRTC_PATH "origin", 0%Z);
   (fetch_cmd self LIBJINGLE_PATH, 0%Z);
   (log_cmd self LIBJINGLE_PATH "origin", 0%Z)].

Definition bump_log (self : AutoRoller) (t_webrtc t_libjingle : string)
  : list (Command * Z) :=
  [(cmd self ["roll-dep"; WEBRTC_PATH; t_webrtc], 0%Z);
   (cmd self ["roll-dep"; LIBJINGLE_PATH; t_libjingle], 0%Z)].

(** The dependency file after both pins are rewritten. *)
Definition bumped_deps (d : Deps) (u_webrtc t_webrtc u_libjingle t_libjingle
                        : string) : Deps :=
  deps_set ("src/" ++ LIBJINGLE_PATH) (u_libjingle ++ "@" ++ t_libjingle)
    (deps_set ("src/" ++ WEBRTC_PATH) (u_webrtc ++ "@" ++ t_webrtc) d).

(** The command lines of a log, with their exit status. *)
Definition argv_log (w : World) : list (list string * Z) :=
  map (fun e => (argv (fst e), snd e)) (log w).

(** The README after [_UpdateReadmeFile]. *)
Definition readme_bumped (new_revision txt : string) : string :=
  re_sub true README_REVISION_RE ("Revision: " ++ new_revision) txt.



(** No tool answers with exit status -1, the status the script itself uses
    for its fatal errors. *)
Definition quiet (w : World) : Prop :=
  forall c, fst (reply (outside w) c) <> (-1)%Z.

Definition on_roll (w : World) : Prop :=
  cur_name (repo w) = ROLL_BRANCH_NAME.

(** The command lines that switch branches. *)
Definition is_checkout_cmd (a : list string) : bool :=
  match a with
  | [a0; a1; _] => list_eqb [a0; a1] ["git"; "checkout"]
  | [a0; a1; a2; _] => list_eqb [a0; a1; a2] ["git"; "checkout"; "-b"]
  | _ => false
  end.

(** [m] stays on the roll branch, however it ends. *)
Definition keeps_roll {A} (m : M A) : Prop :=
  forall w, quiet w -> on_roll w ->
            quiet (snd (m w)) /\ on_roll (snd (m w)).

(** [m] never ends the process with status -1. *)
Definition never_minus_one {A} (m : M A) : Prop :=
  forall w, quiet w ->
            quiet (snd (m w)) /\ fst (m w) <> SysExit (-1).

(** When [m], started on the roll branch, ends the process with status -1,
    the roll branch is still checked out. *)
Definition fatal_on_roll {A} (m : M A) : Prop :=
  forall w, quiet w -> on_roll w ->
            fst (m w) = SysExit (-1) -> on_roll (snd (m w)).

(** The directory [main] works in, and the test it applies to it. *)
Definition checkout_dir (args : Args) (w : World) : string :=
  match chromium_checkout args with
  | Some d => if truthy d then d else getcwd (outside w)
  | None => getcwd (outside w)
  end.

Definition is_checkout (o : Outside) (d : string) : bool :=
  is_file o (path_join d "DEPS") && is_dir o (path_join d "chrome").

(** When [m] ends the process with status -1, the roll branch is checked
    out, wherever [m] started. *)
Definition fatal_leaves_roll {A} (m : M A) : Prop :=
  forall w, quiet w -> fst (m w) = SysExit (-1) -> on_roll (snd (m w)).

(* ================================================================== *)
(** ** Sample worlds

    A checkout at [/src] on master, with both dependencies pinned, and
    tools that succeed: the upstream tips are [wl] for webrtc and [ll] for
    libjingle. *)

Definition sample_hash_a : string := "aaaaaaaaaabbbbbbbbbbccccccccccdddddddddd".
Definition sample_hash_b : string := "1111111111222222222233333333334444444444".
Definition sample_hash_c : string := "9999999999888888888877777777776666666666".

Definition sample_webrtc_url : string :=
  "https://chromium.googlesource.com/external/webrtc".
Definition sample_libjingle_url : string :=
  "https://chromium.googlesource.com/external/libjingle".

Definition sample_deps : Deps :=
  [("src/third_party/webrtc", sample_webrtc_url ++ "@" ++ sample_hash_a);
   ("src/third_party/libjingle/source/talk",
    sample_libjingle_url ++ "@" ++ sample_hash_b)].

Definition sample_readme : string :=
  "Name: libjingle" ++ nl ++ "Revision: 12" ++ nl.

Definition sample_rev : Rev := mkRev sample_deps sample_readme ["base"].

(** The answer of [git log --pretty=full -1] for commit [h] with sequence
    number [n]. *)
Definition sample_log_text (h n : string) : string :=
  "commit " ++ h ++ nl ++ "Author: x" ++ nl ++ nl ++ "    msg" ++ nl ++ nl
    ++ "    Cr-Original-Commit-Position: refs/heads/master@{#" ++ n ++ "}"
    ++ nl.

Definition sample_reply (wl ll : string) (c : Command) : Z * string :=
  if list_eqb (argv c) ["git"; "cl"; "issue"]
  then (0%Z, "Issue number: 123 (https://host/path)" ++ nl)
  else
    match argv c with
    | [_; _; _; range; _; _] =>
        if String.eqb (cwd c) "/src/third_party/webrtc"
        then (0%Z, if String.eqb range "origin"
                   then sample_log_text wl "200"
                   else sample_log_text range "100")
        else (0%Z, if String.eqb range "origin"
                   then sample_log_text ll "400"
                   else sample_log_text range "300")
    | _ => (0%Z, "")
    end.

Definition sample_outside (wl ll : string) : Outside :=
  mkOutside sample_rev (sample_reply wl ll)
            (fun p => String.eqb p "/src/DEPS")
            (fun p => String.eqb p "/src/chrome") "/src".

Definition sample_repo : Repo :=
  mkRepo "master" sample_rev [] sample_deps sample_readme [] false.

Definition sample_world (wl ll : string) : World :=
  mkWorld sample_repo (sample_outside wl ll) [].

Definition sample_roller : AutoRoller := mkAutoRoller "/src" false false false.

(** The same checkout with a roll branch left behind. *)
Definition stale_repo : Repo :=
  mkRepo "master" sample_rev
         [(ROLL_BRANCH_NAME, mkRev sample_deps sample_readme ["stale"; "base"])]
         sample_deps sample_readme [] false.

Definition stale_world : World :=
  mkWorld stale_repo (sample_outside sample_hash_a sample_hash_b) [].

Definition abort_args : Args := mkArgs None true false false false false.

(** A checkout whose README carries a local edit, and a roller that skips
    the checks. *)
Definition dirty_repo : Repo :=
  mkRepo "master" sample_rev [] sample_deps
         (sample_readme ++ "local note" ++ nl) [] false.

Definition dirty_world : World :=
  mkWorld dirty_repo (sample_outside sample_hash_a sample_hash_b) [].

Definition unchecked_roller : AutoRoller :=
  mkAutoRoller "/src" false true false.

(** Tools whose commit metadata carries no sequence number. *)
Definition bare_outside : Outside :=
  mkOutside sample_rev (fun _ => (0%Z, "commit " ++ sample_hash_a ++ nl))
            (fun p => String.eqb p "/src/DEPS")
            (fun p => String.eqb p "/src/chrome") "/src".

Definition bare_world : World := mkWorld sample_repo bare_outside [].

(** A review tool whose address has a path of two segments. *)
Definition slashed_outside : Outside :=
  mkOutside sample_rev
            (fun _ => (0%Z, "Issue number: 7 (https://host/a/b)" ++ nl))
            (fun p => String.eqb p "/src/DEPS")
            (fun p => String.eqb p "/src/chrome") "/src".

Definition slashed_world : World := mkWorld sample_repo slashed_outside [].


(* ================================================================== *)
(** ** Further vocabulary *)

(** The first character of [s] is in the set [k]. *)
Definition first_in (k : cset) (s : string) : bool :=
  match s with
  | String c _ => in_cset k c
  | EmptyString => false
  end.

(** Every character of [s] satisfies [p]. *)
Fixpoint every (p : ascii -> bool) (s : string) : bool :=
  match s with
  | String c s' => p c && every p s'
  | EmptyString => true
  end.

Definition not_space (c : ascii) : bool := negb (is_space c).

(** [s] is empty or starts with white space: a word may end before it. *)
Definition word_end (s : string) : bool :=
  match s with
  | String c _ => is_space c
  | EmptyString => true
  end.

(** The character that starts an escape in the replacement text of
    [re.sub]. *)
Definition backslash : ascii := "092"%char.

(** What [_UpdateReadmeFile] is to make of one line of the README: a
    line that starts with "Revision: " becomes that keyword followed by the
    new revision, any other line is kept. *)
Definition bump_line (new_revision l : string) : string :=
  if startswith "Revision: " l then "Revision: " ++ new_revision else l.

(** The command lines that delete a branch other than the roll branch. *)
Definition deletes_other (a : list string) : bool :=
  match a with
  | [a0; a1; a2; a3] =>
      list_eqb [a0; a1; a2] ["git"; "branch"; "-D"]
      && negb (String.eqb a3 ROLL_BRANCH_NAME)
  | _ => false
  end.

(** [m] removes no branch other than the roll branch, however it ends. *)
Definition spares_branches {A} (m : M A) : Prop :=
  forall w b,
    b <> ROLL_BRANCH_NAME ->
    has_branch b (repo w) = true ->
    has_branch b (repo (snd (m w))) = true.

(** A line of the branch listing: the active branch is marked by a star,
    the others are indented. *)
Definition listing_line (e : bool * string) : string :=
  (if fst e then "* " else "  ") ++ snd e.

(** The last branch the listing marks as active; [a] when it marks none. *)
Fixpoint last_active (a : string) (es : list (bool * string)) : string :=
  match es with
  | [] => a
  | (true, n) :: es' => last_active n es'
  | (false, _) :: es' => last_active a es'
  end.

(** [m] leaves the checkout as it is, however it ends. *)
Definition reads_only {A} (m : M A) : Prop :=
  forall w, repo (snd (m w)) = repo w.

(** A checkout left on the roll branch, master being at the base
    revision. *)
Definition on_roll_repo : Repo :=
  mkRepo ROLL_BRANCH_NAME (mkRev sample_deps sample_readme ["roll"; "base"])
         [("master", sample_rev)] sample_deps sample_readme [] false.

Definition on_roll_world : World :=
  mkWorld on_roll_repo (sample_outside sample_hash_a sample_hash_b) [].

(** Tools without a connection: [git pull] fails with status 1. *)
Definition offline_outside : Outside :=
  mkOutside sample_rev
            (fun c => if list_eqb (argv c) ["git"; "pull"]
                      then (1%Z, "") else (0%Z, ""))
            (fun p => String.eqb p "/src/DEPS")
            (fun p => String.eqb p "/src/chrome") "/src".

Definition offline_world : World := mkWorld stale_repo offline_outside [].

(** [m] never ends the process with status 0. *)
Definition exits_nonzero {A} (m : M A) : Prop :=
  forall w c, fst (m w) = SysExit c -> c <> 0%Z.

(** [PrepareRoll] from the point where the roll branch exists: the pins
    and the upstream tips are resolved, the pins are rewritten and the roll
    is finished. *)
Definition PrepareRoll_after_branch (self : AutoRoller) : M Z :=
  infos <- PrepareRoll_resolve self ;;
  let '(webrtc_current, libjingle_current, webrtc_latest, libjingle_latest) :=
    infos in
  PrepareRoll_bump self webrtc_latest libjingle_latest ;;;
  PrepareRoll_finish self webrtc_current libjingle_current
                     webrtc_latest libjingle_latest.

(** [m] stays on the roll branch, however it ends and whatever the tools
    answer. *)
Definition stays_on_roll {A} (m : M A) : Prop :=
  forall w, on_roll w -> on_roll (snd (m w)).

(** [m] ends with no uncaught exception. *)
Definition never_raises {A} (m : M A) : Prop :=
  forall w e, fst (m w) <> Raised e.

(** When [m], started on the roll branch, ends with an uncaught
    exception, the roll branch is still checked out. *)
Definition raised_on_roll {A} (m : M A) : Prop :=
  forall w e, on_roll w -> fst (m w) = Raised e -> on_roll (snd (m w)).

(** When [m] ends with an uncaught exception, the roll branch is checked
    out, wherever [m] started. *)
Definition raised_leaves_roll {A} (m : M A) : Prop :=
  forall w e, fst (m w) = Raised e -> on_roll (snd (m w)).





(* ================================================================== *)
(** ** The model on small inputs *)

Example re_ex1 :
  re_match CL_ISSUE_RE "Issue number: 123 (https://host/path)"
  = Some [(2, "https://host/path"); (1, "123")].
Proof. reflexivity. Qed.

Example re_ex2 :
  option_map (fun g => group g 1) (re_match RIETVELD_URL_RE "https://host/a/b")
  = Some "host/a".
Proof. reflexivity. Qed.

Example re_ex3 :
  option_map (fun g => group g 1)
    (re_match GIT_SVN_ID_RE "Cr-Original-Commit-Position: refs/heads/master@{#12345}")
  = Some "12345".
Proof. reflexivity. Qed.

Example re_ex4 :
  re_sub true README_REVISION_RE "Revision: 77"
    ("Name: libjingle" ++ nl ++ "Revision: 12" ++ nl ++ "License: BSD" ++ nl)
  = "Name: libjingle" ++ nl ++ "Revision: 77" ++ nl ++ "License: BSD" ++ nl.
Proof. reflexivity. Qed.

Example py_ex1 : splitlines ("a" ++ nl ++ "b" ++ nl) = ["a"; "b"].
Proof. reflexivity. Qed.
Example py_ex2 : split_ws "commit  abc def" = ["commit"; "abc"; "def"].
Proof. reflexivity. Qed.
Example py_ex3 : strip ("  a b " ++ nl) = "a b".
Proof. reflexivity. Qed.
Example py_ex4 : slice (Some 0%Z) (Some 7%Z) "0123456789" = "0123456".
Proof. reflexivity. Qed.
Example py_ex5 : slice None (Some (-1)%Z) "abc" = "ab".
Proof. reflexivity. Qed.

(* ================================================================== *)
(** ** Facts about strings *)

Lemma substring_all (s : string) (n : nat) :
  String.length s <= n -> substring 0 n s = s.
Proof.
  revert n; induction s as [|c s IH]; intros [|n] H; simpl in *;
    try reflexivity; try lia.
  f_equal. apply IH. lia.
Qed.

Lemma substring_app_l (a b : string) :
  substring 0 (String.length a) (a ++ b) = a.
Proof.
  induction a as [|c a IH]; simpl.
  - destruct b; reflexivity.
  - now rewrite IH.
Qed.

Lemma length_app (a b : string) :
  String.length (a ++ b) = String.length a + String.length b.
Proof. induction a; simpl; [reflexivity | now rewrite IHa]. Qed.

Lemma app_assoc_s (a b c : string) : (a ++ b) ++ c = a ++ b ++ c.
Proof. induction a; simpl; [reflexivity | now rewrite IHa]. Qed.

Lemma app_nil_r_s (a : string) : a ++ "" = a.
Proof. induction a; simpl; [reflexivity | now rewrite IHa]. Qed.


Lemma slice_first7 (s : string) :
  slice (Some 0%Z) (Some 7%Z) s = substring 0 7 s.
Proof.
  unfold slice, clip.
  replace (0 <? 0)%Z with false by reflexivity.
  replace (7 <? 0)%Z with false by reflexivity.
  destruct (Nat.le_gt_cases 7 (String.length s)) as [H|H].
  - rewrite Z.min_l by lia. rewrite (Z.min_l 7) by lia. reflexivity.
  - rewrite Z.min_l by lia. rewrite (Z.min_r 7) by lia.
    rewrite Z.sub_0_r, Nat2Z.id. change (Z.to_nat 0) with 0.
    rewrite !substring_all by lia. reflexivity.
Qed.

Lemma slice_tail (c : ascii) (s : string) :
  slice (Some 1%Z) None (String c s) = s.
Proof.
  unfold slice, clip.
  replace (1 <? 0)%Z with false by reflexivity.
  rewrite Z.min_l by (simpl String.length; lia).
  replace (Z.to_nat 1) with 1 by reflexivity.
  replace (Z.to_nat (Z.of_nat (String.length (String c s)) - 1))
    with (String.length s) by (simpl String.length; lia).
  simpl. apply substring_all. lia.
Qed.

Lemma consumed_app (a b : string) : consumed (a ++ b) b = a.
Proof.
  unfold consumed. rewrite length_app.
  replace (String.length a + String.length b - String.length b)
    with (String.length a) by lia.
  apply substring_app_l.
Qed.


(* ================================================================== *)
(** ** The change description *)

(** C3.  The description has no section for a dependency whose commit
    identifier is unchanged; a changed dependency gets a line with its
    old:new sequence numbers and the changelog address
    repository/+log/old7..new7; and the text always ends with the line
    TBR=. *)
Theorem description_sections :
  forall webrtc_current libjingle_current webrtc_new libjingle_new : CommitInfo,
  let description :=
    _GenerateCLDescription webrtc_current libjingle_current
                           webrtc_new libjingle_new in
  (git_commit webrtc_current = git_commit webrtc_new ->
   git_commit libjingle_current = git_commit libjingle_new ->
   description = "Roll " ++ nl ++ nl ++ nl ++ "TBR=") /\
  (git_commit webrtc_current <> git_commit webrtc_new ->
   git_commit libjingle_current = git_commit libjingle_new ->
   description =
     "Roll " ++ heading "WebRTC" webrtc_current webrtc_new ++ nl ++ nl
       ++ heading "WebRTC" webrtc_current webrtc_new ++ nl
       ++ "Changes: " ++ changes webrtc_current webrtc_new ++ nl ++ nl
       ++ nl ++ "TBR=") /\
  (git_commit webrtc_current = git_commit webrtc_new ->
   git_commit libjingle_current <> git_commit libjingle_new ->
   description =
     "Roll " ++ heading "Libjingle" libjingle_current libjingle_new ++ nl ++ nl
       ++ heading "Libjingle" libjingle_current libjingle_new ++ nl
       ++ "Changes: " ++ changes libjingle_current libjingle_new ++ nl
       ++ nl ++ "TBR=") /\
  (git_commit webrtc_current <> git_commit webrtc_new ->
   git_commit libjingle_current <> git_commit libjingle_new ->
   description =
     "Roll " ++ heading "WebRTC" webrtc_current webrtc_new ++ ", "
       ++ heading "Libjingle" libjingle_current libjingle_new ++ nl ++ nl
       ++ heading "WebRTC" webrtc_current webrtc_new ++ nl
       ++ "Changes: " ++ changes webrtc_current webrtc_new ++ nl ++ nl
       ++ heading "Libjingle" libjingle_current libjingle_new ++ nl
       ++ "Changes: " ++ changes libjingle_current libjingle_new ++ nl
       ++ nl ++ "TBR=") /\
  (exists body, description = body ++ nl ++ "TBR=").
Proof.
  intros webrtc_current libjingle_current webrtc_new libjingle_new description.
  unfold description, _GenerateCLDescription, GetChangeLogURL, heading, changes.
  rewrite !slice_first7.
  destruct (String.eqb_spec (git_commit webrtc_current) (git_commit webrtc_new))
    as [Hw|Hw];
  destruct (String.eqb_spec (git_commit libjingle_current)
                            (git_commit libjingle_new)) as [Hl|Hl];
    cbn [negb truthy String.eqb fst snd];
    (repeat split; try (intros; congruence); try (eexists; reflexivity));
    intros _ _; unfold nl; cbn;
    repeat (progress (rewrite ?app_assoc_s; cbn [append]));
    reflexivity.
Qed.

(* ================================================================== *)
(** ** Parsing the commit metadata *)

Lemma svn_revision_scan_skip (a b : list string) :
  (forall l, In l a -> re_match GIT_SVN_ID_RE (strip l) = None) ->
  svn_revision_scan (a ++ b)%list = svn_revision_scan b.
Proof.
  induction a as [|x a IH]; intros H; simpl; [reflexivity|].
  rewrite (H x) by (left; reflexivity).
  apply IH. intros l Hl. apply H. right; exact Hl.
Qed.

(** C10.  When several lines of the metadata carry a sequence number, the
    one of the bottom-most such line is returned: the lines above it are
    not consulted, whether they match or not. *)
Theorem svn_revision_taken_from_last_match :
  forall (description : string) (above below : list string)
         (line : string) (m : groups),
    splitlines description = (above ++ line :: below)%list ->
    re_match GIT_SVN_ID_RE (strip line) = Some m ->
    (forall l, In l below -> re_match GIT_SVN_ID_RE (strip l) = None) ->
    _ParseSvnRevisionFromGitDescription description = Ret (group m 1).
Proof.
  intros description above below line m Hsplit Hline Hbelow.
  unfold _ParseSvnRevisionFromGitDescription.
  rewrite Hsplit, rev_app_distr. simpl rev.
  rewrite <- app_assoc.
  rewrite svn_revision_scan_skip.
  - simpl. rewrite Hline. reflexivity.
  - intros l Hl. apply Hbelow. apply in_rev. exact Hl.
Qed.

(** Without a matching line the parser ends the process with status -1. *)
Lemma svn_revision_no_match (description : string) :
  (forall l, In l (splitlines description) ->
             re_match GIT_SVN_ID_RE (strip l) = None) ->
  _ParseSvnRevisionFromGitDescription description = SysExit (-1).
Proof.
  intros H. unfold _ParseSvnRevisionFromGitDescription.
  rewrite <- (app_nil_r (rev (splitlines description))).
  rewrite svn_revision_scan_skip; [reflexivity|].
  intros l Hl. apply H. apply in_rev. exact Hl.
Qed.

Lemma git_commit_scan_none (lines : list string) :
  (forall l, In l lines -> startswith "commit " l = false) ->
  git_commit_scan lines = SysExit (-1).
Proof.
  induction lines as [|x ls IH]; intros H; simpl; [reflexivity|].
  rewrite (H x) by (left; reflexivity).
  apply IH. intros l Hl. apply H. right; exact Hl.
Qed.

(** Both parsers give a value or end the process; a failure is never
    turned into a default. *)
Lemma svn_revision_scan_outcome (lines : list string) :
  svn_revision_scan lines = SysExit (-1) \/
  exists l m, In l lines /\ re_match GIT_SVN_ID_RE (strip l) = Some m /\
              svn_revision_scan lines = Ret (group m 1).
Proof.
  induction lines as [|x ls IH]; simpl; [left; reflexivity|].
  destruct (re_match GIT_SVN_ID_RE (strip x)) as [m|] eqn:E.
  - right. exists x, m. auto.
  - destruct IH as [IH|(l & m & Hin & Hm & Hr)]; [left; exact IH|].
    right. exists l, m. auto.
Qed.

(* ================================================================== *)
(** ** Facts about the matcher *)

(** A greedy star that can read [u] and then succeeds keeps that success:
    longer prefixes are tried first. *)
Lemma star_app_ok (R : Type) (k : cset) (u v : string)
      (cont : option ascii -> string -> option R) (r : R) :
  all_in k u = true ->
  forall prev,
    star k (last_prev prev u) v cont = Some r ->
    star k prev (u ++ v) cont = Some r.
Proof.
  induction u as [|c u IH]; simpl; intros Hu prev H; [exact H|].
  apply andb_true_iff in Hu. destruct Hu as [Hc Hu].
  rewrite Hc. rewrite (IH Hu (Some c) H). reflexivity.
Qed.

Lemma star_all_ok (R : Type) (k : cset) (u : string)
      (cont : option ascii -> string -> option R) (r : R) :
  all_in k u = true ->
  forall prev,
    cont (last_prev prev u) "" = Some r ->
    star k prev u cont = Some r.
Proof.
  intros Hu prev H. rewrite <- (app_nil_r_s u).
  apply star_app_ok; [exact Hu|]. exact H.
Qed.

(** A star whose continuation fails at every position fails. *)
Lemma star_none (R : Type) (k : cset) (s : string)
      (cont : option ascii -> string -> option R) :
  (forall p a b, s = a ++ b -> cont p b = None) ->
  forall prev, star k prev s cont = None.
Proof.
  induction s as [|c s IH]; simpl; intros H prev.
  - apply (H prev "" ""). reflexivity.
  - assert (Hs : cont prev (String c s) = None)
      by (apply (H prev ""); reflexivity).
    destruct (in_cset k c); [|exact Hs].
    rewrite IH; [exact Hs|].
    intros p a b E. apply (H p (String c a)). simpl. now rewrite E.
Qed.

Lemma contains_app (c : ascii) (a b : string) :
  contains c (a ++ b) = contains c a || contains c b.
Proof.
  induction a as [|d a IH]; simpl; [reflexivity|].
  rewrite IH. apply orb_assoc.
Qed.

Lemma all_in_any (s : string) : contains LF s = false -> all_in Any s = true.
Proof.
  induction s as [|c s IH]; intros H; [reflexivity|].
  cbn [contains] in H. apply orb_false_iff in H. destruct H as [Hc Hs].
  cbn [all_in in_cset]. rewrite (Ascii.eqb_sym c LF), Hc.
  rewrite (IH Hs). reflexivity.
Qed.

Lemma consumed_all (s : string) : consumed s "" = s.
Proof.
  rewrite <- (app_nil_r_s s) at 1. apply consumed_app.
Qed.

(** The host pattern on an address without line feeds: the first group is
    everything between the scheme and the last slash. *)
Lemma rietveld_match (scheme host rest : string) :
  scheme = "http://" \/ scheme = "https://" ->
  contains LF host = false -> contains LF rest = false ->
  contains "/" rest = false ->
  re_match RIETVELD_URL_RE (scheme ++ host ++ "/" ++ rest)
  = Some [(2, rest); (1, host)].
Proof.
  intros Hscheme Hh Hr Hs.
  destruct Hscheme as [->| ->]; unfold re_match, RIETVELD_URL_RE;
    cbn -[star consumed];
    (erewrite star_app_ok; [reflexivity | apply all_in_any; exact Hh |]);
    cbn -[consumed]; (rewrite star_none;
    [ erewrite star_all_ok; [reflexivity | apply all_in_any; exact Hr |];
      rewrite consumed_all;
      change (String "/" rest) with ("/" ++ rest); rewrite consumed_app;
      reflexivity
    | intros p a b E; destruct b as [|c b]; [reflexivity|];
      destruct (Ascii.eqb_spec c "/") as [->|]; [|reflexivity];
      rewrite E, contains_app in Hs; simpl in Hs;
      rewrite orb_true_r in Hs; discriminate ]).
Qed.

(** The issue pattern on a well-formed reply. *)
Lemma cl_issue_match (n u : string) :
  n <> "" -> all_in digit n = true -> contains LF u = false ->
  re_match CL_ISSUE_RE ("Issue number: " ++ n ++ " (" ++ u ++ ")")
  = Some [(2, u); (1, n)].
Proof.
  intros Hn Hd Hu.
  destruct n as [|c n]; [congruence|]. cbn [all_in] in Hd.
  apply andb_true_iff in Hd. destruct Hd as [Hc Hd].
  unfold re_match, CL_ISSUE_RE. cbn -[star consumed digit].
  rewrite Hc.
  erewrite star_app_ok; [reflexivity | exact Hd |].
  cbn -[consumed].
  erewrite star_app_ok; [| apply all_in_any; exact Hu |].
  - reflexivity.
  - cbn -[consumed].
    change (String c (n ++ String " " (String "(" (u ++ ")"))))
      with (String c n ++ String " " (String "(" (u ++ ")"))).
    rewrite !consumed_app. reflexivity.
Qed.

(* ================================================================== *)
(** ** Running commands *)

Lemma bind_ret {A B} (m : M A) (k : A -> M B) (w w' : World) (a : A) :
  m w = (Ret a, w') -> bind m k w = k a w'.
Proof. intros H. unfold bind. rewrite H. reflexivity. Qed.

Lemma bind_exit {A B} (m : M A) (k : A -> M B) (w w' : World) (c : Z) :
  m w = (SysExit c, w') -> bind m k w = (SysExit c, w').
Proof. intros H. unfold bind. rewrite H. reflexivity. Qed.

Lemma bind_raised {A B} (m : M A) (k : A -> M B) (w w' : World) (e : string) :
  m w = (Raised e, w') -> bind m k w = (Raised e, w').
Proof. intros H. unfold bind. rewrite H. reflexivity. Qed.

(** A bind that returns went through a returning first half. *)
Lemma bind_ret_inv {A B} (m : M A) (k : A -> M B) (w w2 : World) (b : B) :
  bind m k w = (Ret b, w2) ->
  exists a w1, m w = (Ret a, w1) /\ k a w1 = (Ret b, w2).
Proof.
  unfold bind. destruct (m w) as [[a|c|e] w1]; intros H;
    try discriminate H.
  exists a, w1. split; [reflexivity | exact H].
Qed.

Lemma run_command_unfold (self : AutoRoller) (a : list string)
      (wd : option string) (ign : bool) (env : list (string * string))
      (w : World) :
  _RunCommand self a wd ign env w =
  let c := mkCommand a (run_dir self wd) env in
  let '(code, out, r) := exec c w in
  if negb ign && negb (code =? 0)%Z
  then (SysExit code, logged c code r w)
  else (Ret out, logged c code r w).
Proof. reflexivity. Qed.

Lemma run_outside_ok (self : AutoRoller) (a : list string)
      (wd : option string) (ign : bool) (env : list (string * string))
      (w : World) (out : string) :
  answers_outside a ->
  reply (outside w) (mkCommand a (run_dir self wd) env) = (0%Z, out) ->
  _RunCommand self a wd ign env w =
  (Ret out, logged (mkCommand a (run_dir self wd) env) 0 (repo w) w).
Proof.
  intros Ha H. rewrite run_command_unfold. cbv zeta.
  rewrite Ha, H. simpl. rewrite andb_false_r. reflexivity.
Qed.

Lemma run_outside_fail (self : AutoRoller) (a : list string)
      (wd : option string) (env : list (string * string))
      (w : World) (code : Z) (out : string) :
  answers_outside a ->
  reply (outside w) (mkCommand a (run_dir self wd) env) = (code, out) ->
  code <> 0%Z ->
  _RunCommand self a wd false env w =
  (SysExit code, logged (mkCommand a (run_dir self wd) env) code (repo w) w).
Proof.
  intros Ha H Hc. rewrite run_command_unfold. cbv zeta.
  rewrite Ha, H. simpl.
  destruct (Z.eqb_spec code 0); [contradiction | reflexivity].
Qed.

Lemma outside_pair (o : Outside) (c : Command) :
  exists code out, reply o c = (code, out).
Proof. destruct (reply o c) as [code out]. eauto. Qed.

Ltac answers_outside_tac :=
  intros wd0 env0 w0; unfold exec; simpl;
  destruct (reply (outside w0) _); reflexivity.

Lemma cl_issue_outside : answers_outside ["git"; "cl"; "issue"].
Proof. answers_outside_tac. Qed.
Lemma cl_set_close_outside : answers_outside ["git"; "cl"; "set_close"].
Proof. answers_outside_tac. Qed.
Lemma fetch_outside : answers_outside ["git"; "fetch"; "origin"].
Proof. answers_outside_tac. Qed.
Lemma log_outside (range : string) :
  answers_outside ["git"; "--no-pager"; "log"; range; "--pretty=full"; "-1"].
Proof. answers_outside_tac. Qed.

(* ================================================================== *)
(** ** The reply of the review tool *)

Lemma GetCLInfo_run (self : AutoRoller) (w : World) (out : string) :
  reply (outside w) (cmd self ["git"; "cl"; "issue"]) = (0%Z, out) ->
  _GetCLInfo self w =
  let w' := logged (cmd self ["git"; "cl"; "issue"]) 0 (repo w) w in
  match re_match CL_ISSUE_RE (strip out) with
  | None => (SysExit (-1), w')
  | Some m =>
      match re_match RIETVELD_URL_RE (group m 2) with
      | None => (SysExit (-1), w')
      | Some m' =>
          (Ret (mkCLInfo (int (group m 1)) (group m 2) (group m' 1)), w')
      end
  end.
Proof.
  intros H. unfold _GetCLInfo.
  erewrite bind_ret
    by (apply (run_outside_ok self None false []); [apply cl_issue_outside | exact H]).
  cbv zeta.
  destruct (re_match CL_ISSUE_RE (strip out)) as [m|]; [|reflexivity].
  destruct (re_match RIETVELD_URL_RE (group m 2)) as [m'|]; reflexivity.
Qed.

(** C4.  The reply "Issue number: 123 (https://host/path)" gives issue 123,
    that address and the host "host"; a reply that does not match the line
    pattern, such as one without the parenthesized address, ends the
    process with status -1. *)
Theorem cl_info_parsed_or_fatal :
  forall (self : AutoRoller) (w : World) (out : string),
    reply (outside w) (cmd self ["git"; "cl"; "issue"]) = (0%Z, out) ->
    let w' := logged (cmd self ["git"; "cl"; "issue"]) 0 (repo w) w in
    (strip out = "Issue number: 123 (https://host/path)" ->
     _GetCLInfo self w
     = (Ret (mkCLInfo 123 "https://host/path" "host"), w')) /\
    (re_match CL_ISSUE_RE (strip out) = None ->
     _GetCLInfo self w = (SysExit (-1), w')) /\
    (strip out = "Issue number: 123" ->
     _GetCLInfo self w = (SysExit (-1), w')).
Proof.
  intros self w out H w'.
  rewrite (GetCLInfo_run self w H). fold w'. cbv zeta.
  repeat split; intros E; rewrite E; reflexivity.
Qed.

Lemma int_digits_123 : int "123" = 123%Z.
Proof. reflexivity. Qed.

(** C9.  The host pattern is greedy: for a review address with further
    slashes after the scheme, the host identifier is everything between
    the scheme and the last slash. *)
Theorem review_host_up_to_last_slash :
  forall (self : AutoRoller) (w : World) (out n scheme host rest : string),
    reply (outside w) (cmd self ["git"; "cl"; "issue"]) = (0%Z, out) ->
    strip out
    = "Issue number: " ++ n ++ " (" ++ (scheme ++ host ++ "/" ++ rest) ++ ")" ->
    n <> "" -> all_in digit n = true ->
    scheme = "http://" \/ scheme = "https://" ->
    contains LF host = false -> contains LF rest = false ->
    contains "/" rest = false ->
    _GetCLInfo self w
    = (Ret (mkCLInfo (int n) (scheme ++ host ++ "/" ++ rest) host),
       logged (cmd self ["git"; "cl"; "issue"]) 0 (repo w) w).
Proof.
  intros self w out n scheme host rest H Hout Hn Hd Hscheme Hh Hr Hs.
  rewrite (GetCLInfo_run self w H). cbv zeta.
  rewrite Hout, cl_issue_match; [| exact Hn | exact Hd |].
  - cbn [group Nat.eqb].
    rewrite rietveld_match by assumption. reflexivity.
  - rewrite !contains_app, Hh, Hr.
    destruct Hscheme as [->| ->]; reflexivity.
Qed.

(* ================================================================== *)
(** ** Branch names and the listing of [git branch] *)

Lemma plain_no_lf (s : string) : plain s = true -> contains LF s = false.
Proof.
  induction s as [|c s IH]; intros H; [reflexivity|].
  cbn [plain] in H. apply andb_true_iff in H. destruct H as [H Hs].
  apply andb_true_iff in H. destruct H as [Hc _].
  cbn [contains]. rewrite (IH Hs), orb_false_r.
  destruct (Ascii.eqb_spec LF c) as [<-|]; [discriminate Hc | reflexivity].
Qed.

Lemma plain_no_star (s : string) : plain s = true -> contains "*" s = false.
Proof.
  induction s as [|c s IH]; intros H; [reflexivity|].
  cbn [plain] in H. apply andb_true_iff in H. destruct H as [H Hs].
  apply andb_true_iff in H. destruct H as [_ Hc].
  cbn [contains]. rewrite (IH Hs), orb_false_r.
  rewrite Ascii.eqb_sym. apply negb_true_iff. exact Hc.
Qed.

Lemma plain_lstrip (s : string) : plain s = true -> lstrip s = s.
Proof.
  destruct s as [|c s]; intros H; [reflexivity|].
  cbn [plain] in H. apply andb_true_iff in H. destruct H as [H _].
  apply andb_true_iff in H. destruct H as [Hc _].
  apply negb_true_iff in Hc. cbn [lstrip]. rewrite Hc. reflexivity.
Qed.

Lemma plain_rstrip (s : string) : plain s = true -> rstrip s = s.
Proof.
  induction s as [|c s IH]; intros H; [reflexivity|].
  cbn [plain] in H. apply andb_true_iff in H. destruct H as [H Hs].
  apply andb_true_iff in H. destruct H as [Hc _].
  apply negb_true_iff in Hc. cbn [rstrip]. rewrite (IH Hs), Hc.
  destruct s; reflexivity.
Qed.

Lemma plain_strip (s : string) : plain s = true -> strip s = s.
Proof.
  intros H. unfold strip. rewrite (plain_lstrip s H). apply plain_rstrip, H.
Qed.

Lemma valid_name_plain (n : string) : valid_name n = true -> plain n = true.
Proof. unfold valid_name. intros H. apply andb_true_iff in H. apply H. Qed.

Lemma valid_name_truthy (n : string) : valid_name n = true -> truthy n = true.
Proof. unfold valid_name, truthy. intros H. apply andb_true_iff in H. apply H. Qed.

Lemma concat_all_cons (x : string) (l : list string) :
  concat_all (x :: l) = x ++ concat_all l.
Proof.
  unfold concat_all. destruct l as [|y l]; simpl.
  - symmetry. apply app_nil_r_s.
  - reflexivity.
Qed.

Lemma lines_out_cons (l : string) (ls : list string) :
  lines_out (l :: ls) = l ++ nl ++ lines_out ls.
Proof.
  unfold lines_out. cbn [map]. rewrite concat_all_cons.
  apply app_assoc_s.
Qed.

Lemma split_on_line (l rest : string) :
  contains LF l = false ->
  split_on LF (l ++ nl ++ rest) = l :: split_on LF rest.
Proof.
  induction l as [|c l IH]; intros H.
  - reflexivity.
  - cbn [contains] in H. apply orb_false_iff in H. destruct H as [Hc Hl].
    cbn [append split_on]. rewrite Ascii.eqb_sym, Hc.
    change (l ++ String LF rest) with (l ++ nl ++ rest).
    rewrite (IH Hl). reflexivity.
Qed.

Lemma split_on_lines_out (ls : list string) :
  (forall l, In l ls -> contains LF l = false) ->
  split_on LF (lines_out ls) = (ls ++ [""])%list.
Proof.
  induction ls as [|l ls IH]; intros H; [reflexivity|].
  rewrite lines_out_cons, split_on_line by (apply H; left; reflexivity).
  rewrite IH; [reflexivity|]. intros x Hx. apply H. right. exact Hx.
Qed.

Lemma branches_scan_others (bs : list string) (active : string)
      (acc : list string) :
  forallb valid_name bs = true ->
  branches_scan (List.app (map (fun b => "  " ++ b) bs) [""]) active acc
  = (active, List.app acc bs).
Proof.
  revert acc. induction bs as [|b bs IH]; intros acc H.
  - simpl. now rewrite app_nil_r.
  - cbn [forallb] in H. apply andb_true_iff in H. destruct H as [Hb Hbs].
    pose proof (valid_name_plain b Hb) as Hp.
    cbn [map List.app branches_scan].
    replace (contains "*" ("  " ++ b)) with false
      by (cbn; now rewrite (plain_no_star b Hp)).
    replace (strip ("  " ++ b)) with b
      by (unfold strip; cbn; rewrite (plain_lstrip b Hp);
          symmetry; apply plain_rstrip, Hp).
    rewrite (valid_name_truthy b Hb), IH by exact Hbs.
    rewrite <- app_assoc. reflexivity.
Qed.

Lemma branches_scan_listing (r : Repo) :
  wf_repo r ->
  branches_scan (split_on LF (lines_out (branch_lines r))) "" []
  = (cur_name r, cur_name r :: names (others r)).
Proof.
  intros [Hc Ho].
  pose proof (valid_name_plain _ Hc) as Hp.
  rewrite split_on_lines_out.
  - unfold branch_lines. cbn [List.app branches_scan].
    replace (contains "*" ("* " ++ cur_name r)) with true by reflexivity.
    change ("* " ++ cur_name r) with (String "*" (" " ++ cur_name r)).
    rewrite slice_tail.
    replace (strip (" " ++ cur_name r)) with (cur_name r)
      by (unfold strip; cbn; rewrite (plain_lstrip _ Hp);
          symmetry; apply plain_rstrip, Hp).
    unfold names in *. rewrite <- (map_map fst (fun b => "  " ++ b)).
    rewrite branches_scan_others by exact Ho. reflexivity.
  - intros l [<-|Hl].
    + cbn. rewrite (plain_no_lf _ Hp). reflexivity.
    + apply in_map_iff in Hl. destruct Hl as [[b t] [<- Hb]].
      cbn [fst]. cbn. apply plain_no_lf, valid_name_plain.
      rewrite forallb_forall in Ho. apply Ho.
      unfold names. apply in_map_iff. exists (b, t). auto.
Qed.

(* ================================================================== *)
(** ** The tools, command by command *)

Lemma exec_rev_parse (d : string) (e : list (string * string)) (w : World) :
  exec (mkCommand ["git"; "rev-parse"; "--abbrev-ref"; "HEAD"] d e) w
  = (0%Z, cur_name (repo w) ++ nl, repo w).
Proof. reflexivity. Qed.

Lemma exec_status (d : string) (e : list (string * string)) (w : World) :
  exec (mkCommand ["git"; "status"; "--porcelain"] d e) w
  = (0%Z, lines_out (status_lines (repo w)), repo w).
Proof. reflexivity. Qed.

Lemma exec_branch (d : string) (e : list (string * string)) (w : World) :
  exec (mkCommand ["git"; "branch"] d e) w
  = (0%Z, lines_out (branch_lines (repo w)), repo w).
Proof. reflexivity. Qed.

Lemma exec_pull (d : string) (e : list (string * string)) (w : World) :
  exec (mkCommand ["git"; "pull"] d e) w
  = git_pull (outside w) (mkCommand ["git"; "pull"] d e) (repo w).
Proof. reflexivity. Qed.

Lemma exec_add (d : string) (e : list (string * string)) (w : World) :
  exec (mkCommand ["git"; "add"; "--update"; "."] d e) w
  = git_add_update (repo w).
Proof. reflexivity. Qed.

Lemma exec_checkout (n d : string) (e : list (string * string)) (w : World) :
  exec (mkCommand ["git"; "checkout"; n] d e) w = git_checkout n (repo w).
Proof. reflexivity. Qed.

Lemma exec_branch_delete (n d : string) (e : list (string * string))
      (w : World) :
  exec (mkCommand ["git"; "branch"; "-D"; n] d e) w
  = git_branch_delete n (repo w).
Proof. reflexivity. Qed.

Lemma exec_checkout_new (n d : string) (e : list (string * string))
      (w : World) :
  exec (mkCommand ["git"; "checkout"; "-b"; n] d e) w
  = git_checkout_new n (repo w).
Proof. reflexivity. Qed.


Lemma exec_roll_dep (path revision d : string) (e : list (string * string))
      (w : World) :
  exec (mkCommand ["roll-dep"; path; revision] d e) w
  = roll_dep (outside w) (mkCommand ["roll-dep"; path; revision] d e)
             path revision (repo w).
Proof. reflexivity. Qed.

(** *** Branch names stay valid *)

Lemma names_remove_valid (n : string) (bs : list (string * Rev)) :
  forallb valid_name (names bs) = true ->
  forallb valid_name (names (remove n bs)) = true.
Proof.
  unfold names, remove. induction bs as [|[m t] bs IH]; intros H;
    [reflexivity|].
  cbn [map forallb fst] in H. apply andb_true_iff in H. destruct H as [Hm Hbs].
  cbn [filter fst]. destruct (negb (n =? m)); cbn [map forallb fst].
  - rewrite Hm. exact (IH Hbs).
  - exact (IH Hbs).
Qed.

Lemma lookup_valid (n : string) (bs : list (string * Rev)) (t : Rev) :
  lookup n bs = Some t ->
  forallb valid_name (names bs) = true -> valid_name n = true.
Proof.
  unfold names. induction bs as [|[m u] bs IH]; intros Hl H; [discriminate Hl|].
  cbn [map forallb fst] in H. apply andb_true_iff in H. destruct H as [Hm Hbs].
  cbn [lookup] in Hl. destruct (String.eqb_spec n m) as [->|].
  - exact Hm.
  - exact (IH Hl Hbs).
Qed.

Lemma mem_remove (n : string) (bs : list (string * Rev)) :
  mem n (names (remove n bs)) = false.
Proof.
  unfold mem, names, remove. induction bs as [|[m t] bs IH]; [reflexivity|].
  cbn [filter fst]. destruct (String.eqb_spec n m) as [->|Hnm]; cbn [negb].
  - exact IH.
  - cbn [map existsb fst]. rewrite IH, orb_false_r.
    apply String.eqb_neq. exact Hnm.
Qed.

Lemma git_branch_delete_wf (n : string) (r : Repo) :
  wf_repo r -> wf_repo (snd (git_branch_delete n r)).
Proof.
  intros [Hc Ho]. unfold git_branch_delete.
  destruct (n =? cur_name r); [split; assumption|].
  destruct (mem n (names (others r))); [|split; assumption].
  split; [exact Hc|]. cbn. apply names_remove_valid, Ho.
Qed.

Lemma git_checkout_new_wf (n : string) (r : Repo) :
  wf_repo r -> wf_repo (snd (git_checkout_new n r)).
Proof.
  intros [Hc Ho]. unfold git_checkout_new.
  destruct (has_branch n r); [split; assumption|].
  destruct (valid_name n) eqn:Hn; [|split; assumption].
  split; cbn; [exact Hn|]. rewrite Hc. exact Ho.
Qed.

Lemma git_checkout_wf (n : string) (r : Repo) :
  wf_repo r -> wf_repo (snd (git_checkout n r)).
Proof.
  intros [Hc Ho]. unfold git_checkout.
  destruct (n =? cur_name r); [split; assumption|].
  destruct (lookup n (others r)) as [t|] eqn:Hl; [|split; assumption].
  match goal with |- context [if ?b then _ else _] => destruct b end;
    [|split; assumption].
  split; cbn.
  - exact (lookup_valid _ _ Hl Ho).
  - rewrite Hc. apply names_remove_valid, Ho.
Qed.

Lemma git_commit_wf (msg : string) (r : Repo) :
  wf_repo r -> wf_repo (snd (git_commit_msg msg r)).
Proof.
  intros H. unfold git_commit_msg.
  destruct (staged r && tracked_modified r); exact H.
Qed.

Lemma git_pull_wf (o : Outside) (c : Command) (r : Repo) :
  wf_repo r -> wf_repo (snd (git_pull o c r)).
Proof.
  intros H. unfold git_pull. destruct (reply o c) as [code out].
  destruct (negb (code =? 0)%Z); [exact H|].
  destruct (tracked_modified r); exact H.
Qed.

Lemma roll_dep_wf (o : Outside) (c : Command) (p v : string) (r : Repo) :
  wf_repo r -> wf_repo (snd (roll_dep o c p v r)).
Proof.
  intros H. unfold roll_dep. destruct (reply o c) as [code out].
  destruct (negb (code =? 0)%Z); [exact H|].
  destruct (deps_get ("src/" ++ p) (work_deps r)); exact H.
Qed.

Lemma exec_wf (c : Command) (w : World) :
  wf_repo (repo w) -> wf_repo (snd (exec c w)).
Proof.
  intros H. unfold exec.
  repeat match goal with
         | |- context [if list_eqb ?a ?b then _ else _] =>
             destruct (list_eqb a b)
         end; try exact H;
    try (apply git_pull_wf, H); try (apply git_checkout_wf, H);
    try (apply git_branch_delete_wf, H);
    try (apply git_checkout_new_wf, H); try (apply git_commit_wf, H).
  all: destruct (argv c) as [|a0 [|a1 [|a2 [|a3 [|a4 l]]]]];
    try (destruct (reply (outside w) c); exact H).
  all: repeat match goal with
         | |- context [if ?b then _ else _] => destruct b
         end;
    try (destruct (reply (outside w) c); exact H);
    try (apply git_checkout_wf, H); try (apply roll_dep_wf, H);
    try (apply git_branch_delete_wf, H);
    try (apply git_checkout_new_wf, H); try (apply git_commit_wf, H).
Qed.

Lemma run_command_wf (self : AutoRoller) (a : list string)
      (wd : option string) (ign : bool) (env : list (string * string))
      (w : World) :
  wf_repo (repo w) -> wf_repo (repo (snd (_RunCommand self a wd ign env w))).
Proof.
  intros H. rewrite run_command_unfold. cbv zeta.
  pose proof (exec_wf (mkCommand a (run_dir self wd) env) w H) as Hx.
  destruct (exec (mkCommand a (run_dir self wd) env) w) as [[code out] r].
  destruct (negb ign && negb (code =? 0)%Z); exact Hx.
Qed.

Lemma run_command_wf_eq (self : AutoRoller) (a : list string)
      (wd : option string) (ign : bool) (env : list (string * string))
      (w w' : World) (o : Outcome string) :
  _RunCommand self a wd ign env w = (o, w') ->
  wf_repo (repo w) -> wf_repo (repo w').
Proof.
  intros E H. pose proof (run_command_wf self a wd ign env w H) as Hx.
  rewrite E in Hx. exact Hx.
Qed.

(* ================================================================== *)
(** ** Abort *)

Lemma GetBranches_run (self : AutoRoller) (w : World) :
  wf_repo (repo w) ->
  _GetBranches self w
  = (Ret (cur_name (repo w), cur_name (repo w) :: names (others (repo w))),
     logged (cmd self ["git"; "branch"]) 0 (repo w) w).
Proof.
  intros H. unfold _GetBranches, bind.
  rewrite run_command_unfold. cbv zeta. rewrite exec_branch.
  cbn [negb andb Z.eqb]. unfold ret.
  rewrite branches_scan_listing by exact H. reflexivity.
Qed.

Lemma Abort_absent (self : AutoRoller) (w : World) :
  wf_repo (repo w) ->
  has_branch ROLL_BRANCH_NAME (repo w) = false ->
  Abort self w = (Ret 0%Z, logged (cmd self ["git"; "branch"]) 0 (repo w) w).
Proof.
  intros H Hb. unfold Abort.
  erewrite bind_ret by (apply GetBranches_run; exact H).
  cbv beta iota.
  change (mem ROLL_BRANCH_NAME (cur_name (repo w) :: names (others (repo w))))
    with (has_branch ROLL_BRANCH_NAME (repo w)).
  rewrite Hb. reflexivity.
Qed.

Lemma run_branch_delete_ret (self : AutoRoller) (n out : string)
      (w w' : World) :
  _RunCommand self ["git"; "branch"; "-D"; n] None false [] w = (Ret out, w') ->
  has_branch n (repo w') = false.
Proof.
  rewrite run_command_unfold. cbv zeta. rewrite exec_branch_delete.
  unfold git_branch_delete, has_branch.
  destruct (n =? cur_name (repo w)) eqn:Hc; [intros H; discriminate H|].
  destruct (mem n (names (others (repo w)))); [|intros H; discriminate H].
  cbn [negb andb Z.eqb]. intros H. injection H as _ <-.
  unfold logged, set_others. cbn [repo cur_name others].
  rewrite Hc, mem_remove. reflexivity.
Qed.

Lemma Abort_done (self : AutoRoller) (w w1 : World) (z : Z) :
  wf_repo (repo w) ->
  Abort self w = (Ret z, w1) ->
  wf_repo (repo w1) /\ has_branch ROLL_BRANCH_NAME (repo w1) = false.
Proof.
  intros H. unfold Abort.
  erewrite bind_ret by (apply GetBranches_run; exact H).
  cbv beta iota.
  change (mem ROLL_BRANCH_NAME (cur_name (repo w) :: names (others (repo w))))
    with (has_branch ROLL_BRANCH_NAME (repo w)).
  destruct (has_branch ROLL_BRANCH_NAME (repo w)) eqn:Hb.
  - intros Hrun.
    apply bind_ret_inv in Hrun. destruct Hrun as ([] & wa & Hrun & Hret).
    injection Hret as _ <-.
    apply bind_ret_inv in Hrun. destruct Hrun as (o1 & w2 & H1 & Hrun).
    apply bind_ret_inv in Hrun. destruct Hrun as (o2 & w3 & H2 & Hrun).
    apply bind_ret_inv in Hrun. destruct Hrun as (o3 & w4 & H3 & Hrun).
    apply bind_ret_inv in Hrun. destruct Hrun as (o4 & w5 & H4 & Hrun).
    injection Hrun as <-.
    split.
    + assert (W0 : wf_repo
                     (repo (logged (cmd self ["git"; "branch"]) 0 (repo w) w)))
        by exact H.
      eapply run_command_wf_eq; [exact H4|].
      eapply run_command_wf_eq; [exact H3|].
      eapply run_command_wf_eq; [exact H2|].
      eapply run_command_wf_eq; [exact H1|]. exact W0.
    + eapply run_branch_delete_ret; exact H4.
  - intros Hrun. injection Hrun as _ <-. split; [exact H | exact Hb].
Qed.

(** C5.  Abort is idempotent.  Without the roll branch it only lists the
    branches: no switch, no closing of a review, no deletion, and the
    result is 0.  That is the case right after an Abort that returned. *)
Theorem abort_idempotent :
  forall (self : AutoRoller) (w : World),
    wf_repo (repo w) ->
    (has_branch ROLL_BRANCH_NAME (repo w) = false ->
     Abort self w
     = (Ret 0%Z, logged (cmd self ["git"; "branch"]) 0 (repo w) w)) /\
    (forall (z : Z) (w1 : World),
        Abort self w = (Ret z, w1) ->
        Abort self w1
        = (Ret 0%Z, logged (cmd self ["git"; "branch"]) 0 (repo w1) w1)).
Proof.
  intros self w H. split.
  - apply Abort_absent, H.
  - intros z w1 Hrun.
    destruct (@Abort_done self w w1 z H Hrun) as [H1 Hb].
    apply Abort_absent; assumption.
Qed.

(* ================================================================== *)
(** ** The platform check of [main] *)

(** C8, as the script has it.  On the platforms win32 and cygwin [main]
    returns -1 at once, with nothing run and nothing changed; every other
    platform passes the check and is treated as Linux is. *)
Theorem platform_check :
  forall (platform : string) (args : Args) (w : World),
    (platform = "win32" \/ platform = "cygwin" ->
     main platform args w = (Ret (-1)%Z, w)) /\
    (platform <> "win32" -> platform <> "cygwin" ->
     main platform args w = main "linux2" args w).
Proof.
  intros platform args w. split.
  - intros [->| ->]; reflexivity.
  - intros H1 H2. unfold main.
    replace (mem platform ["win32"; "cygwin"]) with false; [reflexivity|].
    unfold mem. cbn [existsb].
    apply String.eqb_neq in H1. apply String.eqb_neq in H2.
    rewrite H1, H2. reflexivity.
Qed.

(** C8 as stated fails: FreeBSD is neither Linux nor Mac, and there [main]
    goes on, here to an abort that deletes a branch and returns 0. *)
Lemma platform_check_counterexample :
  startswith "linux" "freebsd9" = false /\ "freebsd9" <> "darwin" /\
  fst (main "freebsd9" abort_args stale_world) = Ret 0%Z /\
  has_branch ROLL_BRANCH_NAME (repo stale_world) = true /\
  has_branch ROLL_BRANCH_NAME
             (repo (snd (main "freebsd9" abort_args stale_world))) = false.
Proof.
  repeat split; try reflexivity. discriminate.
Qed.

(* ================================================================== *)
(** ** What a run adds to the log *)





Lemma emits_weaken {A} (P Q : Command -> Prop) (m : M A) :
  (forall c, P c -> Q c) -> emits P m -> emits Q m.
Proof.
  intros HPQ Hm w. destruct (Hm w) as (l & E & F).
  exists l. split; [exact E|].
  eapply Forall_impl; [|exact F]. intros e. apply HPQ.
Qed.

(* ================================================================== *)
(** ** From Idle to BranchCreated *)

Lemma roll_name_valid : valid_name ROLL_BRANCH_NAME = true.
Proof. reflexivity. Qed.

Lemma mem_names_cons (n m : string) (t : Rev) (bs : list (string * Rev)) :
  mem n (names ((m, t) :: bs)) = (n =? m) || mem n (names bs).
Proof. reflexivity. Qed.

Lemma remove_absent (n : string) (bs : list (string * Rev)) :
  mem n (names bs) = false -> remove n bs = bs.
Proof.
  induction bs as [|[m t] bs IH]; intros H; [reflexivity|].
  rewrite mem_names_cons in H. apply orb_false_iff in H. destruct H as [Hn Hb].
  unfold remove in *. cbn [filter fst]. rewrite Hn. cbn [negb].
  rewrite (IH Hb). reflexivity.
Qed.

Lemma branch_stage (self : AutoRoller) (w : World) :
  cur_name (repo w) <> ROLL_BRANCH_NAME ->
  (_ignore_checks self = false ->
   fst (reply (outside w) (cmd self ["git"; "pull"])) = 0%Z /\
   tracked_modified (repo w) = false) ->
  PrepareRoll_branch self w = (Ret tt, after_branch self w).
Proof.
  intros Hcur Hpull.
  assert (Hc : (ROLL_BRANCH_NAME =? cur_name (repo w)) = false)
    by (apply String.eqb_neq; congruence).
  unfold PrepareRoll_branch, after_branch, bind.
  rewrite run_command_unfold. cbv zeta. rewrite exec_branch_delete.
  unfold git_branch_delete. rewrite Hc.
  destruct (mem ROLL_BRANCH_NAME (names (others (repo w)))) eqn:Hm;
    cbn [negb andb Z.eqb];
    destruct (_ignore_checks self) eqn:Hi; cbn [negb].
  1, 3: unfold ret at 1.
  3, 4: destruct (Hpull eq_refl) as [Hp Ht];
    rewrite run_command_unfold; cbv zeta; rewrite exec_pull;
    unfold git_pull, logged, set_others; cbn [repo outside];
    change (mkCommand ["git"; "pull"] (run_dir self None) [])
      with (cmd self ["git"; "pull"]);
    destruct (reply (outside w) (cmd self ["git"; "pull"])) as [code out];
    cbn [fst] in Hp; subst code; cbn [negb andb Z.eqb];
    change (tracked_modified _) with (tracked_modified (repo w));
    rewrite Ht; cbn [negb andb Z.eqb]; unfold ret at 1.
  all: rewrite run_command_unfold; cbv zeta; rewrite exec_checkout_new;
    unfold git_checkout_new, has_branch, logged, set_others;
    cbn [repo cur_name others];
    rewrite Hc, ?mem_remove, ?Hm, roll_name_valid; cbn [negb orb andb Z.eqb];
    unfold ret;
    cbn [repo cur_name others cur_rev log outside work_deps work_readme
         untracked staged];
    rewrite ?(remove_absent _ _ Hm), <- ?app_assoc; reflexivity.
Qed.

Lemma run_checkout_new_fresh (self : AutoRoller) (n out : string)
      (w w' : World) :
  _RunCommand self ["git"; "checkout"; "-b"; n] None false [] w
  = (Ret out, w') ->
  cur_name (repo w') = n /\ mem n (names (others (repo w'))) = false.
Proof.
  rewrite run_command_unfold. cbv zeta. rewrite exec_checkout_new.
  unfold git_checkout_new.
  destruct (has_branch n (repo w)) eqn:Hb;
    [cbn [orb negb andb Z.eqb]; intros H; discriminate H|].
  destruct (valid_name n);
    cbn [orb negb andb Z.eqb]; intros H; [|discriminate H].
  injection H as _ <-. unfold logged. cbn [repo cur_name others].
  split; [reflexivity|].
  rewrite mem_names_cons. exact Hb.
Qed.

(* ================================================================== *)
(** ** The checks *)

Lemma plain_splitlines (n : string) :
  plain n = true -> splitlines (n ++ nl) = [n].
Proof.
  induction n as [|c n IH]; intros H; [reflexivity|].
  cbn [plain] in H. apply andb_true_iff in H. destruct H as [H Hn].
  apply andb_true_iff in H. destruct H as [Hc _].
  cbn [append splitlines].
  destruct (Ascii.eqb_spec c LF) as [->|_]; [discriminate Hc|].
  destruct (Ascii.eqb_spec c CR) as [->|_]; [discriminate Hc|].
  rewrite (IH Hn). reflexivity.
Qed.

Lemma splitlines_cons (c : ascii) (s : string) :
  exists l ls, splitlines (String c s) = l :: ls.
Proof.
  cbn [splitlines].
  destruct (Ascii.eqb c LF); [eauto|].
  destruct (Ascii.eqb c CR).
  - destruct s as [|d s]; [eauto|]. destruct (Ascii.eqb d LF); eauto.
  - destruct (splitlines s); eauto.
Qed.

Lemma splitlines_lines_out (ls : list string) :
  (List.length (splitlines (lines_out ls)) =? 0)%nat
  = match ls with [] => true | _ :: _ => false end.
Proof.
  destruct ls as [|l ls]; [reflexivity|].
  rewrite lines_out_cons.
  destruct (l ++ nl ++ lines_out ls) as [|c s] eqn:E.
  - destruct l; discriminate E.
  - destruct (splitlines_cons c s) as (x & xs & ->). reflexivity.
Qed.

Lemma GetCurrentBranchName_run (self : AutoRoller) (w : World) :
  plain (cur_name (repo w)) = true ->
  _GetCurrentBranchName self w
  = (Ret (cur_name (repo w)),
     logged (cmd self ["git"; "rev-parse"; "--abbrev-ref"; "HEAD"]) 0
            (repo w) w).
Proof.
  intros H. unfold _GetCurrentBranchName, bind.
  rewrite run_command_unfold. cbv zeta. rewrite exec_rev_parse.
  cbn [negb andb Z.eqb]. rewrite (plain_splitlines _ H). reflexivity.
Qed.

Lemma IsTreeClean_run (self : AutoRoller) (w : World) :
  _IsTreeClean self w
  = (Ret (tree_clean (repo w)),
     logged (cmd self ["git"; "status"; "--porcelain"]) 0 (repo w) w).
Proof.
  unfold _IsTreeClean, bind.
  rewrite run_command_unfold. cbv zeta. rewrite exec_status.
  cbn [negb andb Z.eqb]. rewrite splitlines_lines_out. unfold tree_clean.
  destruct (status_lines (repo w)); reflexivity.
Qed.

Lemma tree_clean_true (r : Repo) :
  tree_clean r = true <->
  deps_modified r = false /\ readme_modified r = false /\ untracked r = [].
Proof.
  unfold tree_clean, status_lines.
  destruct (deps_modified r); destruct (readme_modified r);
    destruct (untracked r); cbn; split; intros H;
    try discriminate H; try (destruct H as (? & ? & ?); discriminate);
    auto.
Qed.

(* ================================================================== *)
(** ** Resolving the pins and the upstream tips *)

Lemma truthy_app_l (a b : string) : truthy a = true -> truthy (a ++ b) = true.
Proof. destruct a; intros H; [discriminate H | reflexivity]. Qed.

Lemma truthy_path_join (a b : string) :
  truthy b = true -> truthy (path_join a b) = true.
Proof.
  intros H. unfold path_join.
  destruct (startswith "/" b); [exact H|].
  destruct (a =? "") eqn:Ha; [exact H|].
  assert (Ht : truthy a = true) by (unfold truthy; now rewrite Ha).
  destruct (slice (Some (-1)%Z) None a =? "/"); apply truthy_app_l, Ht.
Qed.

Lemma run_dir_join (self : AutoRoller) (path : string) :
  truthy path = true ->
  run_dir self (Some (path_join (_chromium_src self) path))
  = path_join (_chromium_src self) path.
Proof.
  intros H. unfold run_dir. rewrite (truthy_path_join _ _ H). reflexivity.
Qed.

Lemma GetCommitInfo_ok (self : AutoRoller) (w : World)
      (path range svn commit : string) (git_hash : option string)
      (repo_url : option string) :
  truthy path = true ->
  range = match git_hash with Some h => range_of h | None => "origin" end ->
  resolves self (outside w) path range svn commit ->
  _GetCommitInfo self path git_hash repo_url w
  = (Ret (mkCommitInfo svn commit repo_url),
     logged (log_cmd self path range) 0 (repo w)
            (logged (fetch_cmd self path) 0 (repo w) w)).
Proof.
  intros Hp Hrange (Hf & out & Hl & Hsvn & Hcommit).
  unfold _GetCommitInfo.
  destruct (reply (outside w) (fetch_cmd self path)) as [c0 o0] eqn:Ef.
  cbn [fst] in Hf. subst c0.
  erewrite bind_ret.
  2:{ apply run_outside_ok; [apply fetch_outside|].
      rewrite (run_dir_join self path Hp). exact Ef. }
  cbv beta.
  replace (match git_hash with
           | Some h => if truthy h then h else "origin"
           | None => "origin"
           end) with range by (subst range; destruct git_hash; reflexivity).
  erewrite bind_ret.
  2:{ apply run_outside_ok; [apply log_outside|].
      rewrite (run_dir_join self path Hp). exact Hl. }
  cbv beta. unfold bind, lift. rewrite Hsvn, Hcommit.
  rewrite (run_dir_join self path Hp). reflexivity.
Qed.

(* ================================================================== *)
(** ** Pins and the dependency file *)

Lemma deps_eqb_refl (d : Deps) : deps_eqb d d = true.
Proof.
  induction d as [|[k v] d IH]; [reflexivity|].
  cbn [deps_eqb]. rewrite !String.eqb_refl, IH. reflexivity.
Qed.

Lemma deps_eqb_eq (a b : Deps) : deps_eqb a b = true -> a = b.
Proof.
  revert b. induction a as [|[k v] a IH]; intros [|[k' v'] b] H;
    try discriminate H; [reflexivity|].
  cbn [deps_eqb] in H. apply andb_true_iff in H. destruct H as [H Hab].
  apply andb_true_iff in H. destruct H as [Hk Hv].
  apply String.eqb_eq in Hk. apply String.eqb_eq in Hv.
  rewrite (IH b Hab). congruence.
Qed.

Lemma deps_set_same (k v : string) (d : Deps) :
  deps_get k d = Some v -> deps_set k v d = d.
Proof.
  induction d as [|[k' v'] d IH]; intros H; [reflexivity|].
  cbn [deps_get] in H. cbn [deps_set].
  destruct (k =? k'); [congruence|].
  rewrite (IH H). reflexivity.
Qed.


Lemma deps_get_set_other (k k0 v : string) (d : Deps) :
  k <> k0 -> deps_get k (deps_set k0 v d) = deps_get k d.
Proof.
  intros Hk. induction d as [|[k' v'] d IH]; [reflexivity|].
  cbn [deps_set]. destruct (k0 =? k') eqn:E; cbn [deps_get].
  - apply String.eqb_eq in E. subst k'.
    apply String.eqb_neq in Hk. rewrite Hk. reflexivity.
  - rewrite IH. reflexivity.
Qed.

Lemma find_app (c : ascii) (u rest : string) :
  contains c u = false ->
  find c (u ++ String c rest) = Z.of_nat (String.length u).
Proof.
  induction u as [|d u IH]; intros H.
  - cbn. rewrite Ascii.eqb_refl. reflexivity.
  - cbn [contains] in H. apply orb_false_iff in H. destruct H as [Hd Hu].
    cbn [append find String.length]. rewrite Ascii.eqb_sym, Hd.
    rewrite (IH Hu). cbv zeta.
    destruct (Z.ltb_spec (Z.of_nat (String.length u)) 0); lia.
Qed.

Lemma substring_app_r (a b : string) (n : nat) :
  substring (String.length a) n (a ++ b) = substring 0 n b.
Proof. induction a as [|c a IH]; [reflexivity | exact IH]. Qed.

Lemma pin_url_app (u h : string) :
  contains "@" u = false -> pin_url (u ++ "@" ++ h) = u.
Proof.
  intros H. unfold pin_url, slice, clip.
  change (u ++ "@" ++ h) with (u ++ String "@" h).
  rewrite (find_app _ _ h H), length_app.
  destruct (Z.ltb_spec (Z.of_nat (String.length u)) 0); [lia|].
  rewrite Z.min_l by lia. rewrite Z.sub_0_r, Nat2Z.id.
  apply substring_app_l.
Qed.

Lemma pin_rev_app (u h : string) :
  contains "@" u = false -> pin_rev (u ++ "@" ++ h) = h.
Proof.
  intros H. unfold pin_rev, slice, clip.
  change (u ++ "@" ++ h) with (u ++ String "@" h).
  rewrite (find_app _ _ h H), length_app. cbn [String.length].
  destruct (Z.ltb_spec (Z.of_nat (String.length u) + 1) 0); [lia|].
  rewrite Z.min_l by lia.
  replace (Z.to_nat (Z.of_nat (String.length u) + 1))
    with (String.length (u ++ "@"))
    by (rewrite length_app; cbn [String.length]; lia).
  replace (u ++ String "@" h) with ((u ++ "@") ++ h)
    by (rewrite app_assoc_s; reflexivity).
  rewrite substring_app_r. apply substring_all. lia.
Qed.

Lemma GetDepsCommitInfo_ok (self : AutoRoller) (w : World) (deps : Deps)
      (path u h svn commit : string) :
  truthy path = true ->
  deps_get ("src/" ++ path) deps = Some (u ++ "@" ++ h) ->
  contains "@" u = false ->
  resolves self (outside w) path (range_of h) svn commit ->
  _GetDepsCommitInfo self deps path w
  = (Ret (mkCommitInfo svn commit (Some u)),
     logged (log_cmd self path (range_of h)) 0 (repo w)
            (logged (fetch_cmd self path) 0 (repo w) w)).
Proof.
  intros Hp Hget Hu Hres. unfold _GetDepsCommitInfo. rewrite Hget.
  cbv zeta.
  change (slice None (Some (find "@" (u ++ "@" ++ h))) (u ++ "@" ++ h))
    with (pin_url (u ++ "@" ++ h)).
  change (slice (Some (find "@" (u ++ "@" ++ h) + 1)%Z) None (u ++ "@" ++ h))
    with (pin_rev (u ++ "@" ++ h)).
  rewrite (pin_url_app u h Hu), (pin_rev_app u h Hu).
  apply GetCommitInfo_ok; [exact Hp | reflexivity | exact Hres].
Qed.

Lemma run_roll_dep_ok (self : AutoRoller) (w : World)
      (path revision entry : string) :
  fst (reply (outside w) (cmd self ["roll-dep"; path; revision])) = 0%Z ->
  deps_get ("src/" ++ path) (work_deps (repo w)) = Some entry ->
  _RunCommand self ["roll-dep"; path; revision] None false [] w
  = (Ret (snd (reply (outside w) (cmd self ["roll-dep"; path; revision]))),
     logged (cmd self ["roll-dep"; path; revision]) 0
            (set_work_deps
               (deps_set ("src/" ++ path) (pin_url entry ++ "@" ++ revision)
                         (work_deps (repo w)))
               (repo w)) w).
Proof.
  intros Hr Hget. rewrite run_command_unfold. cbv zeta.
  rewrite exec_roll_dep. unfold roll_dep.
  change (mkCommand ["roll-dep"; path; revision] (run_dir self None) [])
    with (cmd self ["roll-dep"; path; revision]).
  destruct (reply (outside w) (cmd self ["roll-dep"; path; revision]))
    as [code out].
  cbn [fst] in Hr. subst code. cbn [negb Z.eqb snd]. rewrite Hget.
  reflexivity.
Qed.

(* ================================================================== *)
(** ** The steps of a roll *)

Lemma checks_stage (self : AutoRoller) (w : World) :
  cur_name (repo w) = "master" ->
  tree_clean (repo w) = true ->
  PrepareRoll self w = PrepareRoll_roll self (add_log (checks_log self) w).
Proof.
  intros Hm Hc. unfold PrepareRoll, checks_log.
  destruct (_ignore_checks self); cbn [negb].
  - unfold add_log. rewrite app_nil_r. destruct w; reflexivity.
  - erewrite bind_ret
      by (apply GetCurrentBranchName_run; rewrite Hm; reflexivity).
    rewrite Hm. cbn [String.eqb Ascii.eqb Bool.eqb negb].
    erewrite bind_ret by apply IsTreeClean_run.
    change (repo (logged _ _ (repo w) w)) with (repo w).
    rewrite Hc. cbn [negb]. unfold logged, add_log. cbn [repo outside log].
    rewrite <- app_assoc. reflexivity.
Qed.

Lemma resolve_stage (self : AutoRoller) (w : World)
      (uw hw ul hl sw cw sl cl sw' tw sl' tl : string) :
  deps_get ("src/" ++ WEBRTC_PATH) (work_deps (repo w))
  = Some (uw ++ "@" ++ hw) ->
  contains "@" uw = false ->
  deps_get ("src/" ++ LIBJINGLE_PATH) (work_deps (repo w))
  = Some (ul ++ "@" ++ hl) ->
  contains "@" ul = false ->
  resolves self (outside w) WEBRTC_PATH (range_of hw) sw cw ->
  resolves self (outside w) LIBJINGLE_PATH (range_of hl) sl cl ->
  resolves self (outside w) WEBRTC_PATH "origin" sw' tw ->
  resolves self (outside w) LIBJINGLE_PATH "origin" sl' tl ->
  PrepareRoll_resolve self w
  = (Ret (mkCommitInfo sw cw (Some uw), mkCommitInfo sl cl (Some ul),
          mkCommitInfo sw' tw None, mkCommitInfo sl' tl None),
     add_log (resolve_log self hw hl) w).
Proof.
  intros Gw Uw Gl Ul R1 R2 R3 R4. unfold PrepareRoll_resolve.
  unfold _ParseDepsFile at 1. unfold bind at 1.
  erewrite bind_ret
    by (eapply GetDepsCommitInfo_ok; [reflexivity | exact Gw | exact Uw | exact R1]).
  erewrite bind_ret
    by (eapply GetDepsCommitInfo_ok; [reflexivity | exact Gl | exact Ul | exact R2]).
  erewrite bind_ret
    by (eapply GetCommitInfo_ok; [reflexivity | reflexivity | exact R3]).
  erewrite bind_ret
    by (eapply GetCommitInfo_ok; [reflexivity | reflexivity | exact R4]).
  unfold ret, logged, add_log, resolve_log. cbn [repo outside log].
  rewrite <- !app_assoc. reflexivity.
Qed.

Lemma bump_stage (self : AutoRoller) (w : World)
      (uw hw ul hl tw tl : string) (cw cl : CommitInfo) :
  deps_get ("src/" ++ WEBRTC_PATH) (work_deps (repo w))
  = Some (uw ++ "@" ++ hw) ->
  contains "@" uw = false ->
  deps_get ("src/" ++ LIBJINGLE_PATH) (work_deps (repo w))
  = Some (ul ++ "@" ++ hl) ->
  contains "@" ul = false ->
  git_commit cw = tw -> git_commit cl = tl ->
  fst (reply (outside w) (cmd self ["roll-dep"; WEBRTC_PATH; tw])) = 0%Z ->
  fst (reply (outside w) (cmd self ["roll-dep"; LIBJINGLE_PATH; tl])) = 0%Z ->
  PrepareRoll_bump self cw cl w
  = (Ret tt,
     mkWorld (set_work_deps (bumped_deps (work_deps (repo w)) uw tw ul tl)
                            (repo w))
             (outside w) (List.app (log w) (bump_log self tw tl))).
Proof.
  intros Gw Uw Gl Ul <- <- Rw Rl. unfold PrepareRoll_bump.
  erewrite bind_ret by (apply run_roll_dep_ok; [exact Rw | exact Gw]).
  erewrite bind_ret.
  2:{ apply run_roll_dep_ok; [exact Rl|].
      unfold logged, set_work_deps. cbn [repo work_deps].
      rewrite deps_get_set_other by discriminate. exact Gl. }
  unfold ret, logged, set_work_deps, bumped_deps, bump_log.
  cbn [repo outside log work_deps cur_name cur_rev others work_readme
       untracked].
  rewrite (pin_url_app uw hw Uw), (pin_url_app ul hl Ul).
  rewrite <- !app_assoc. reflexivity.
Qed.

(* ================================================================== *)
(** ** A roll without a change *)

Lemma DeleteRollBranch_ok (self : AutoRoller) (w : World) (t : Rev) :
  cur_name (repo w) = ROLL_BRANCH_NAME ->
  lookup "master" (others (repo w)) = Some t ->
  tracked_modified (repo w) = false ->
  _DeleteRollBranch self w
  = (Ret tt,
     mkWorld
       (mkRepo "master" t
               (remove ROLL_BRANCH_NAME (remove "master" (others (repo w))))
               (rev_deps t) (rev_readme t) (untracked (repo w)) false)
       (outside w)
       (List.app (log w)
          [(cmd self ["git"; "checkout"; "master"], 0%Z);
           (cmd self ["git"; "branch"; "-D"; ROLL_BRANCH_NAME], 0%Z)])).
Proof.
  intros Hc Hl Ht. unfold _DeleteRollBranch, bind.
  rewrite run_command_unfold. cbv zeta. rewrite exec_checkout.
  unfold git_checkout. rewrite Hc, Hl.
  unfold tracked_modified in Ht. apply orb_false_iff in Ht.
  destruct Ht as [Hd Hr]. rewrite Hd, Hr.
  change ("master" =? ROLL_BRANCH_NAME) with false.
  cbn [negb orb andb Z.eqb].
  rewrite !orb_true_r. cbn [andb negb Z.eqb].
  rewrite run_command_unfold. cbv zeta. rewrite exec_branch_delete.
  unfold git_branch_delete, logged, set_others. cbn [repo cur_name others].
  rewrite mem_names_cons.
  change (ROLL_BRANCH_NAME =? "master") with false.
  rewrite String.eqb_refl.
  cbn [negb orb andb Z.eqb].
  unfold ret. cbn [repo outside log cur_rev work_deps work_readme untracked
                   staged cur_name others].
  replace (remove ROLL_BRANCH_NAME
             ((ROLL_BRANCH_NAME, cur_rev (repo w))
              :: remove "master" (others (repo w))))
    with (remove ROLL_BRANCH_NAME (remove "master" (others (repo w))))
    by (unfold remove at 3; cbn [filter fst]; rewrite String.eqb_refl;
        reflexivity).
  rewrite <- app_assoc. reflexivity.
Qed.

Lemma clean_work_deps (r : Repo) :
  tree_clean r = true ->
  work_deps r = rev_deps (cur_rev r) /\ work_readme r = rev_readme (cur_rev r)
  /\ untracked r = [].
Proof.
  intros H. apply tree_clean_true in H. destruct H as (Hd & Hr & Hu).
  unfold deps_modified in Hd. unfold readme_modified in Hr.
  apply negb_false_iff in Hd. apply negb_false_iff in Hr.
  apply deps_eqb_eq in Hd. apply String.eqb_eq in Hr. auto.
Qed.

Lemma lookup_head (n : string) (t : Rev) (bs : list (string * Rev)) :
  lookup n ((n, t) :: bs) = Some t.
Proof. cbn [lookup]. rewrite String.eqb_refl. reflexivity. Qed.

(** C1, as the script has it.  On a master checkout with a clean working
    tree, which the checks ensure unless they are switched off, with every
    external command succeeding and both pinned identifiers equal to the
    upstream tips: the tree is clean after the pin rewrites, PrepareRoll
    returns 0, the roll branch is gone, the tip is the base revision, and
    the log shows no commit and no upload. *)
Theorem unchanged_pins_roll_is_noop :
  forall (self : AutoRoller) (w : World)
         (uw hw ul hl sw cw sl cl sw' sl' : string),
    cur_name (repo w) = "master" ->
    tree_clean (repo w) = true ->
    (_ignore_checks self = false ->
     fst (reply (outside w) (cmd self ["git"; "pull"])) = 0%Z) ->
    deps_get ("src/" ++ WEBRTC_PATH) (rev_deps (roll_base self w))
    = Some (uw ++ "@" ++ hw) ->
    contains "@" uw = false ->
    deps_get ("src/" ++ LIBJINGLE_PATH) (rev_deps (roll_base self w))
    = Some (ul ++ "@" ++ hl) ->
    contains "@" ul = false ->
    resolves self (outside w) WEBRTC_PATH (range_of hw) sw cw ->
    resolves self (outside w) LIBJINGLE_PATH (range_of hl) sl cl ->
    resolves self (outside w) WEBRTC_PATH "origin" sw' hw ->
    resolves self (outside w) LIBJINGLE_PATH "origin" sl' hl ->
    fst (reply (outside w) (cmd self ["roll-dep"; WEBRTC_PATH; hw])) = 0%Z ->
    fst (reply (outside w) (cmd self ["roll-dep"; LIBJINGLE_PATH; hl])) = 0%Z ->
    exists w',
      PrepareRoll self w = (Ret 0%Z, w') /\
      has_branch ROLL_BRANCH_NAME (repo w') = false /\
      cur_name (repo w') = "master" /\
      cur_rev (repo w') = roll_base self w /\
      tree_clean (repo w') = true /\
      log w'
      = List.app (log w)
          (List.app (checks_log self)
             (List.app (branch_log self w)
                (List.app (resolve_log self hw hl)
                   (List.app (bump_log self hw hl)
                      [(cmd self ["git"; "status"; "--porcelain"], 0%Z);
                       (cmd self ["git"; "checkout"; "master"], 0%Z);
                       (cmd self ["git"; "branch"; "-D"; ROLL_BRANCH_NAME],
                        0%Z)])))).
Proof.
  intros self w uw hw ul hl sw cw sl cl sw' sl'
         Hm Hc Hpull Gw Uw Gl Ul R1 R2 R3 R4 Rw Rl.
  destruct (clean_work_deps _ Hc) as (Hwd & Hwr & Hut).
  rewrite (checks_stage self w Hm Hc). unfold PrepareRoll_roll.
  erewrite bind_ret.
  2:{ apply branch_stage.
      - unfold add_log. cbn [repo]. rewrite Hm. discriminate.
      - intros Hi. unfold add_log. cbn [repo outside]. split; [auto|].
        apply tree_clean_true in Hc. unfold tracked_modified.
        destruct Hc as (-> & -> & _). reflexivity. }
  unfold roll_base in *.
  unfold after_branch, branch_log, checks_log in *.
  destruct (_ignore_checks self) eqn:Hi.
  all: erewrite bind_ret;
    [| eapply resolve_stage; cbn [repo outside work_deps add_log];
       rewrite ?Hwd; eassumption ].
  all: cbv beta iota.
  all: erewrite bind_ret;
    [| eapply bump_stage; cbn [repo outside work_deps add_log];
       rewrite ?Hwd; try eassumption; reflexivity ].
  all: unfold bumped_deps; cbn [repo outside work_deps add_log].
  all: rewrite ?Hwd.
  all: rewrite (deps_set_same _ _ Gw), (deps_set_same _ _ Gl).
  all: unfold PrepareRoll_finish.
  all: erewrite bind_ret by apply IsTreeClean_run.
  all: unfold set_work_deps; cbn [repo cur_name cur_rev others work_deps
                                  work_readme untracked staged].
  all: unfold tree_clean at 1, status_lines, deps_modified, readme_modified;
    cbn [repo cur_name cur_rev others work_deps work_readme untracked staged];
    rewrite ?Hwr, ?Hut, deps_eqb_refl, String.eqb_refl; cbn [negb map List.app].
  all: erewrite bind_ret;
    [| apply DeleteRollBranch_ok;
       [ reflexivity
       | unfold logged; cbn [repo others]; rewrite Hm; apply lookup_head
       | unfold logged, tracked_modified, deps_modified, readme_modified;
         cbn [repo cur_rev work_deps work_readme];
         rewrite deps_eqb_refl, String.eqb_refl; reflexivity ] ].
  all: unfold ret, logged; cbn [repo outside log others untracked].
  all: eexists; split; [reflexivity|].
  all: cbn [repo cur_name cur_rev log outside].
  all: repeat split.
  all: try (unfold has_branch; cbn [cur_name others];
            change (ROLL_BRANCH_NAME =? "master") with false;
            rewrite mem_remove; reflexivity).
  all: try (unfold tree_clean, status_lines, deps_modified, readme_modified;
            cbn [cur_rev work_deps work_readme untracked];
            rewrite ?Hut, deps_eqb_refl, String.eqb_refl; reflexivity).
  all: rewrite Hm; unfold add_log, resolve_log, bump_log; cbn [log];
    rewrite <- ?app_assoc; reflexivity.
Qed.

(* ================================================================== *)
(** ** A roll with a change *)






Lemma bind_bind {A B C} (m : M A) (k : A -> M B) (k' : B -> M C) (w : World) :
  bind (bind m k) k' w = bind m (fun a => bind (k a) k') w.
Proof. unfold bind. destruct (m w) as [[a|c|e] w1]; reflexivity. Qed.

(* ================================================================== *)
(** ** No commit-queue request in a dry run *)






(* ================================================================== *)
(** ** Where a fatal error leaves the checkout *)

Lemma exec_cases (c : Command) (w : World) (P : Z * string * Repo -> Prop) :
  P (0%Z, cur_name (repo w) ++ nl, repo w) ->
  P (0%Z, lines_out (status_lines (repo w)), repo w) ->
  P (0%Z, lines_out (branch_lines (repo w)), repo w) ->
  P (git_pull (outside w) c (repo w)) ->
  P (git_add_update (repo w)) ->
  (forall n, P (git_checkout n (repo w))) ->
  (forall p v, P (roll_dep (outside w) c p v (repo w))) ->
  (forall n, P (git_branch_delete n (repo w))) ->
  (forall n, P (git_checkout_new n (repo w))) ->
  (forall m, P (git_commit_msg m (repo w))) ->
  P (fst (reply (outside w) c), snd (reply (outside w) c), repo w) ->
  P (exec c w).
Proof.
  intros H1 H2 H3 H4 H5 H6 H7 H8 H9 H10 H11. unfold exec.
  assert (H11' : P (let '(code, out) := reply (outside w) c in
                    (code, out, repo w)))
    by (destruct (reply (outside w) c); exact H11).
  repeat match goal with
         | |- context [if list_eqb ?a ?b then _ else _] =>
             destruct (list_eqb a b)
         end; try assumption.
  all: destruct (argv c) as [|a0 [|a1 [|a2 [|a3 [|a4 l]]]]]; try assumption.
  all: repeat match goal with
         | |- context [if ?b then _ else _] => destruct b
         end; auto.
Qed.

Lemma exec_code (c : Command) (w : World) :
  quiet w -> fst (fst (exec c w)) <> (-1)%Z.
Proof.
  intros Hq. apply exec_cases; cbn [fst]; try discriminate.
  - unfold git_pull. destruct (reply (outside w) c) as [code out] eqn:E.
    destruct (Z.eqb_spec code 0) as [->|Hne]; cbn [negb fst].
    + destruct (tracked_modified (repo w)); cbn [fst]; discriminate.
    + pose proof (Hq c) as H. rewrite E in H. exact H.
  - intros n. unfold git_checkout.
    repeat match goal with
           | |- context [if ?b then _ else _] => destruct b
           | |- context [match ?x with Some _ => _ | None => _ end] =>
               destruct x
           end; cbn [fst]; discriminate.
  - intros p v. unfold roll_dep.
    destruct (reply (outside w) c) as [code out] eqn:E.
    destruct (Z.eqb_spec code 0) as [->|Hne]; cbn [negb fst].
    + destruct (deps_get ("src/" ++ p) (work_deps (repo w))); cbn [fst];
        discriminate.
    + pose proof (Hq c) as H. rewrite E in H. exact H.
  - intros n. unfold git_branch_delete.
    repeat match goal with
           | |- context [if ?b then _ else _] => destruct b
           end; cbn [fst]; discriminate.
  - intros n. unfold git_checkout_new.
    destruct (has_branch n (repo w) || negb (valid_name n)); cbn [fst];
      discriminate.
  - intros m. unfold git_commit_msg.
    destruct (staged (repo w) && tracked_modified (repo w)); cbn [fst];
      discriminate.
  - apply Hq.
Qed.

Lemma exec_cur_name (c : Command) (w : World) :
  is_checkout_cmd (argv c) = false ->
  cur_name (snd (exec c w)) = cur_name (repo w).
Proof.
  intros H. unfold exec.
  assert (Hr : cur_name (snd (let '(code, out) := reply (outside w) c in
                              (code, out, repo w))) = cur_name (repo w))
    by (destruct (reply (outside w) c); reflexivity).
  assert (Hpull : cur_name (snd (git_pull (outside w) c (repo w)))
                  = cur_name (repo w)).
  { unfold git_pull. destruct (reply (outside w) c) as [code out].
    destruct (negb (code =? 0)%Z); [reflexivity|].
    destruct (tracked_modified (repo w)); reflexivity. }
  assert (Hroll : forall p v,
             cur_name (snd (roll_dep (outside w) c p v (repo w)))
             = cur_name (repo w)).
  { intros p v. unfold roll_dep. destruct (reply (outside w) c) as [code out].
    destruct (negb (code =? 0)%Z); [reflexivity|].
    destruct (deps_get ("src/" ++ p) (work_deps (repo w))); reflexivity. }
  assert (Hdel : forall n,
             cur_name (snd (git_branch_delete n (repo w)))
             = cur_name (repo w)).
  { intros n. unfold git_branch_delete.
    destruct (n =? cur_name (repo w)); [reflexivity|].
    destruct (mem n (names (others (repo w)))); reflexivity. }
  assert (Hcommit : forall m,
             cur_name (snd (git_commit_msg m (repo w)))
             = cur_name (repo w)).
  { intros m. unfold git_commit_msg.
    destruct (staged (repo w) && tracked_modified (repo w)); reflexivity. }
  repeat match goal with
         | |- context [if list_eqb ?a ?b then _ else _] =>
             destruct (list_eqb a b)
         end; try reflexivity; try assumption.
  destruct (argv c) as [|a0 [|a1 [|a2 [|a3 [|a4 l]]]]]; try assumption.
  - unfold is_checkout_cmd in H. rewrite H.
    destruct (a0 =? "roll-dep"); [apply Hroll | assumption].
  - unfold is_checkout_cmd in H.
    destruct (list_eqb [a0; a1; a2] ["git"; "branch"; "-D"]); [apply Hdel|].
    rewrite H.
    destruct (list_eqb [a0; a1; a2] ["git"; "commit"; "-m"]);
      [apply Hcommit | assumption].
Qed.

Lemma run_outside_same (self : AutoRoller) (a : list string)
      (wd : option string) (ign : bool) (env : list (string * string))
      (w : World) :
  outside (snd (_RunCommand self a wd ign env w)) = outside w.
Proof.
  rewrite run_command_unfold. cbv zeta.
  destruct (exec _ w) as [[code out] r].
  destruct (negb ign && negb (code =? 0)%Z); reflexivity.
Qed.

Lemma run_quiet (self : AutoRoller) (a : list string)
      (wd : option string) (ign : bool) (env : list (string * string))
      (w : World) :
  quiet w -> quiet (snd (_RunCommand self a wd ign env w)).
Proof. unfold quiet. rewrite run_outside_same. auto. Qed.

Lemma run_never_minus_one (self : AutoRoller) (a : list string)
      (wd : option string) (ign : bool) (env : list (string * string)) :
  never_minus_one (_RunCommand self a wd ign env).
Proof.
  intros w Hq. split; [apply run_quiet, Hq|].
  rewrite run_command_unfold. cbv zeta.
  pose proof (@exec_code (mkCommand a (run_dir self wd) env) w Hq) as Hc.
  destruct (exec _ w) as [[code out] r]. cbn [fst] in Hc.
  destruct (negb ign && negb (code =? 0)%Z); cbn [fst];
    [congruence | discriminate].
Qed.

Lemma run_keeps_roll (self : AutoRoller) (a : list string)
      (wd : option string) (ign : bool) (env : list (string * string)) :
  is_checkout_cmd a = false ->
  keeps_roll (_RunCommand self a wd ign env).
Proof.
  intros Ha w Hq Hr. split; [apply run_quiet, Hq|].
  unfold on_roll in *. rewrite run_command_unfold. cbv zeta.
  pose proof (@exec_cur_name (mkCommand a (run_dir self wd) env) w Ha) as Hc.
  destruct (exec _ w) as [[code out] r]. cbn [snd] in Hc.
  destruct (negb ign && negb (code =? 0)%Z); cbn [snd logged repo];
    congruence.
Qed.

Lemma keeps_ret {A} (a : A) : keeps_roll (ret a).
Proof. intros w Hq Hr. split; assumption. Qed.

Lemma keeps_lift {A} (o : Outcome A) : keeps_roll (lift o).
Proof. intros w Hq Hr. split; assumption. Qed.

Lemma keeps_bind {A B} (m : M A) (k : A -> M B) :
  keeps_roll m -> (forall a, keeps_roll (k a)) -> keeps_roll (bind m k).
Proof.
  intros Hm Hk w Hq Hr. unfold bind.
  destruct (Hm w Hq Hr) as [Hq1 Hr1].
  destruct (m w) as [[a|c|e] w1]; cbn [snd] in *.
  - apply Hk; assumption.
  - split; assumption.
  - split; assumption.
Qed.

Lemma nm1_ret {A} (a : A) : never_minus_one (ret a).
Proof. intros w Hq. split; [exact Hq | discriminate]. Qed.

Lemma nm1_raised {A} (e : string) : never_minus_one (@lift A (Raised e)).
Proof. intros w Hq. split; [exact Hq | discriminate]. Qed.

Lemma nm1_bind {A B} (m : M A) (k : A -> M B) :
  never_minus_one m -> (forall a, never_minus_one (k a)) ->
  never_minus_one (bind m k).
Proof.
  intros Hm Hk w Hq. unfold bind.
  destruct (Hm w Hq) as [Hq1 Ho].
  destruct (m w) as [[a|c|e] w1]; cbn [fst snd] in *.
  - apply Hk; assumption.
  - split; [assumption | intros E; apply Ho; congruence].
  - split; [assumption | discriminate].
Qed.

Lemma fatal_of_keeps {A} (m : M A) : keeps_roll m -> fatal_on_roll m.
Proof. intros H w Hq Hr _. apply H; assumption. Qed.

Lemma fatal_of_nm1 {A} (m : M A) : never_minus_one m -> fatal_on_roll m.
Proof. intros H w Hq Hr E. destruct (H w Hq) as [_ Hne]. congruence. Qed.

Lemma fatal_bind_keeps {A B} (m : M A) (k : A -> M B) :
  keeps_roll m -> (forall a, fatal_on_roll (k a)) ->
  fatal_on_roll (bind m k).
Proof.
  intros Hm Hk w Hq Hr. unfold bind.
  destruct (Hm w Hq Hr) as [Hq1 Hr1].
  destruct (m w) as [[a|c|e] w1]; cbn [fst snd] in *.
  - apply Hk; assumption.
  - intros _. exact Hr1.
  - intros _. exact Hr1.
Qed.

Lemma fatal_bind_ret {A B} (m : M A) (f : A -> B) :
  fatal_on_roll m -> fatal_on_roll (bind m (fun a => ret (f a))).
Proof.
  intros Hm w Hq Hr. unfold bind. specialize (Hm w Hq Hr).
  destruct (m w) as [[a|c|e] w1]; cbn [fst snd] in *.
  - discriminate.
  - intros E. apply Hm. congruence.
  - discriminate.
Qed.

Lemma leaves_ret {A} (a : A) : fatal_leaves_roll (ret a).
Proof. intros w Hq E. discriminate E. Qed.

Lemma leaves_bind_nm1 {A B} (m : M A) (k : A -> M B) :
  never_minus_one m -> (forall a, fatal_leaves_roll (k a)) ->
  fatal_leaves_roll (bind m k).
Proof.
  intros Hm Hk w Hq. unfold bind.
  destruct (Hm w Hq) as [Hq1 Ho].
  destruct (m w) as [[a|c|e] w1]; cbn [fst snd] in *.
  - apply Hk; assumption.
  - intros E. congruence.
  - discriminate.
Qed.

Ltac keeps_tac :=
  repeat first
    [ apply keeps_ret
    | apply keeps_lift
    | apply run_keeps_roll; reflexivity
    | apply keeps_bind; [| intros ?] ].

Lemma GetCommitInfo_keeps (self : AutoRoller) (path : string)
      (h u : option string) :
  keeps_roll (_GetCommitInfo self path h u).
Proof. unfold _GetCommitInfo. keeps_tac. Qed.

Lemma GetDepsCommitInfo_keeps (self : AutoRoller) (d : Deps) (path : string) :
  keeps_roll (_GetDepsCommitInfo self d path).
Proof.
  unfold _GetDepsCommitInfo. destruct (deps_get ("src/" ++ path) d).
  - apply GetCommitInfo_keeps.
  - apply keeps_lift.
Qed.

Lemma resolve_keeps (self : AutoRoller) : keeps_roll (PrepareRoll_resolve self).
Proof.
  unfold PrepareRoll_resolve.
  apply keeps_bind; [intros w Hq Hr; split; assumption | intros deps].
  apply keeps_bind; [apply GetDepsCommitInfo_keeps | intros ?].
  apply keeps_bind; [apply GetDepsCommitInfo_keeps | intros ?].
  apply keeps_bind; [apply GetCommitInfo_keeps | intros ?].
  apply keeps_bind; [apply GetCommitInfo_keeps | intros ?].
  apply keeps_ret.
Qed.

Lemma bump_keeps (self : AutoRoller) (a b : CommitInfo) :
  keeps_roll (PrepareRoll_bump self a b).
Proof. unfold PrepareRoll_bump. keeps_tac. Qed.

Lemma IsTreeClean_keeps (self : AutoRoller) : keeps_roll (_IsTreeClean self).
Proof.
  unfold _IsTreeClean. apply keeps_bind; [keeps_tac | intros out].
  destruct (List.length (splitlines out) =? 0)%nat; apply keeps_ret.
Qed.

Lemma GetCLInfo_keeps (self : AutoRoller) : keeps_roll (_GetCLInfo self).
Proof.
  unfold _GetCLInfo. apply keeps_bind; [keeps_tac | intros out].
  destruct (re_match CL_ISSUE_RE (strip out)) as [m|]; [|apply keeps_lift].
  destruct (re_match RIETVELD_URL_RE (group m 2)); keeps_tac.
Qed.

Lemma UpdateReadmeFile_keeps (p v : string) :
  keeps_roll (_UpdateReadmeFile p v).
Proof.
  unfold _UpdateReadmeFile. destruct (p =? LIBJINGLE_README).
  - intros w Hq Hr. split; assumption.
  - apply keeps_lift.
Qed.

Lemma DeleteRollBranch_nm1 (self : AutoRoller) :
  never_minus_one (_DeleteRollBranch self).
Proof.
  unfold _DeleteRollBranch.
  apply nm1_bind; [apply run_never_minus_one | intros ?].
  apply nm1_bind; [apply run_never_minus_one | intros ?].
  apply nm1_ret.
Qed.

Lemma finish_fatal (self : AutoRoller) (a b c d : CommitInfo) :
  fatal_on_roll (PrepareRoll_finish self a b c d).
Proof.
  unfold PrepareRoll_finish.
  apply fatal_bind_keeps; [apply IsTreeClean_keeps | intros clean].
  apply (fatal_bind_ret (fun _ => 0%Z)).
  destruct clean.
  - apply fatal_of_nm1, DeleteRollBranch_nm1.
  - apply fatal_bind_keeps; [apply UpdateReadmeFile_keeps | intros ?].
    apply fatal_bind_keeps; [keeps_tac | intros ?].
    apply fatal_bind_keeps; [keeps_tac | intros ?].
    apply fatal_bind_keeps; [keeps_tac | intros ?].
    apply fatal_bind_keeps; [apply GetCLInfo_keeps | intros ?].
    destruct (negb (_dry_run self) && negb (_no_commit self)).
    + apply fatal_bind_keeps; [keeps_tac | intros ?].
      apply fatal_of_nm1, DeleteRollBranch_nm1.
    + apply fatal_of_keeps, keeps_ret.
Qed.

Lemma run_checkout_new_ret (self : AutoRoller) (n out : string)
      (w w' : World) :
  _RunCommand self ["git"; "checkout"; "-b"; n] None false [] w
  = (Ret out, w') ->
  cur_name (repo w') = n.
Proof.
  rewrite run_command_unfold. cbv zeta. rewrite exec_checkout_new.
  unfold git_checkout_new.
  destruct (has_branch n (repo w) || negb (valid_name n));
    cbn [negb andb Z.eqb]; intros H; [discriminate H|].
  injection H as _ <-. reflexivity.
Qed.

Lemma branch_nm1 (self : AutoRoller) :
  never_minus_one (PrepareRoll_branch self).
Proof.
  unfold PrepareRoll_branch.
  apply nm1_bind; [apply run_never_minus_one | intros ?].
  apply nm1_bind.
  - destruct (negb (_ignore_checks self)); [|apply nm1_ret].
    apply nm1_bind; [apply run_never_minus_one | intros ?]. apply nm1_ret.
  - intros ?. apply nm1_bind; [apply run_never_minus_one | intros ?].
    apply nm1_ret.
Qed.

Lemma branch_ret_on_roll (self : AutoRoller) (w w' : World) (u : unit) :
  PrepareRoll_branch self w = (Ret u, w') -> on_roll w'.
Proof.
  unfold PrepareRoll_branch. intros H.
  apply bind_ret_inv in H. destruct H as (o1 & w1 & _ & H).
  apply bind_ret_inv in H. destruct H as (o2 & w2 & _ & H).
  apply bind_ret_inv in H. destruct H as (o3 & w3 & H3 & H).
  injection H as _ <-.
  eapply run_checkout_new_ret. exact H3.
Qed.

Lemma roll_fatal (self : AutoRoller) :
  fatal_leaves_roll (PrepareRoll_roll self).
Proof.
  intros w Hq. unfold PrepareRoll_roll.
  destruct (@branch_nm1 self w Hq) as [Hq1 Hne].
  destruct (PrepareRoll_branch self w) as [[u|c|e] w1] eqn:E;
    cbn [fst snd] in *.
  - assert (Hr : on_roll w1) by (eapply branch_ret_on_roll; exact E).
    erewrite bind_ret by exact E.
    assert (F : fatal_on_roll
                  (infos <- PrepareRoll_resolve self ;;
                   (let '(wc, lc, wl, ll) := infos in
                    PrepareRoll_bump self wl ll ;;;
                    PrepareRoll_finish self wc lc wl ll))).
    { apply fatal_bind_keeps; [apply resolve_keeps|].
      intros [[[wc lc] wl] ll].
      apply fatal_bind_keeps; [apply bump_keeps | intros ?].
      apply finish_fatal. }
    exact (F w1 Hq1 Hr).
  - erewrite bind_exit by exact E. cbn [fst]. intros H. congruence.
  - erewrite bind_raised by exact E. discriminate.
Qed.

Lemma GetCurrentBranchName_nm1 (self : AutoRoller) :
  never_minus_one (_GetCurrentBranchName self).
Proof.
  unfold _GetCurrentBranchName.
  apply nm1_bind; [apply run_never_minus_one | intros out].
  destruct (splitlines out); [apply nm1_raised | apply nm1_ret].
Qed.

Lemma IsTreeClean_nm1 (self : AutoRoller) :
  never_minus_one (_IsTreeClean self).
Proof.
  unfold _IsTreeClean.
  apply nm1_bind; [apply run_never_minus_one | intros out].
  destruct (List.length (splitlines out) =? 0)%nat; apply nm1_ret.
Qed.

Lemma PrepareRoll_fatal (self : AutoRoller) :
  fatal_leaves_roll (PrepareRoll self).
Proof.
  unfold PrepareRoll.
  destruct (negb (_ignore_checks self)); [|apply roll_fatal].
  apply leaves_bind_nm1; [apply GetCurrentBranchName_nm1 | intros b].
  destruct (negb (b =? "master")); [apply leaves_ret|].
  apply leaves_bind_nm1; [apply IsTreeClean_nm1 | intros c].
  destruct (negb c); [apply leaves_ret | apply roll_fatal].
Qed.

(* ================================================================== *)
(** ** Failures *)

Lemma main_invalid_checkout (platform : string) (args : Args) (w : World) :
  platform <> "win32" -> platform <> "cygwin" ->
  is_checkout (outside w) (checkout_dir args w) = false ->
  main platform args w = (Ret (-2)%Z, w).
Proof.
  intros H1 H2 Hc. unfold main.
  replace (mem platform ["win32"; "cygwin"]) with false.
  2:{ unfold mem. cbn [existsb].
      apply String.eqb_neq in H1. apply String.eqb_neq in H2.
      rewrite H1, H2. reflexivity. }
  unfold checkout_dir in Hc.
  destruct (chromium_checkout args) as [d|]; [destruct (truthy d)|];
    unfold bind, _IsChromiumCheckout; fold (is_checkout (outside w));
    cbv beta; change (is_file (outside w) (path_join ?x "DEPS")
                      && is_dir (outside w) (path_join ?x "chrome"))
                with (is_checkout (outside w) x);
    rewrite Hc; reflexivity.
Qed.

(** C2 as stated fails: when the sequence number cannot be parsed, the
    process ends with status -1 and the roll branch, absent before, is
    there and checked out. *)
Lemma parse_failure_counterexample :
  _ParseSvnRevisionFromGitDescription
    (snd (reply (outside bare_world)
                (log_cmd sample_roller WEBRTC_PATH sample_hash_a)))
  = SysExit (-1) /\
  has_branch ROLL_BRANCH_NAME (repo bare_world) = false /\
  fst (PrepareRoll sample_roller bare_world) = SysExit (-1) /\
  cur_name (repo (snd (PrepareRoll sample_roller bare_world)))
  = ROLL_BRANCH_NAME /\
  has_branch ROLL_BRANCH_NAME (repo (snd (PrepareRoll sample_roller bare_world)))
  = true.
Proof. repeat split; vm_compute; reflexivity. Qed.

(* ================================================================== *)
(** ** Counterexamples and instances *)

(** C1 as stated fails: with the checks switched off and a local edit in
    the tree, both pins equal the upstream tips and yet the tree is not
    clean after the pin rewrites; an empty roll is committed, uploaded and
    sent to the commit queue. *)
Lemma unchanged_pins_counterexample :
  deps_get ("src/" ++ WEBRTC_PATH) (work_deps (repo dirty_world))
  = Some (sample_webrtc_url ++ "@" ++ sample_hash_a) /\
  deps_get ("src/" ++ LIBJINGLE_PATH) (work_deps (repo dirty_world))
  = Some (sample_libjingle_url ++ "@" ++ sample_hash_b) /\
  _ParseGitCommitFromDescription
    (snd (reply (outside dirty_world)
                (log_cmd unchecked_roller WEBRTC_PATH "origin")))
  = Ret sample_hash_a /\
  _ParseGitCommitFromDescription
    (snd (reply (outside dirty_world)
                (log_cmd unchecked_roller LIBJINGLE_PATH "origin")))
  = Ret sample_hash_b /\
  fst (PrepareRoll unchecked_roller dirty_world) = Ret 0%Z /\
  argv_log (snd (PrepareRoll unchecked_roller dirty_world))
  = [(["git"; "branch"; "-D"; ROLL_BRANCH_NAME], 1%Z);
     (["git"; "checkout"; "-b"; ROLL_BRANCH_NAME], 0%Z);
     (["git"; "fetch"; "origin"], 0%Z);
     (["git"; "--no-pager"; "log"; sample_hash_a; "--pretty=full"; "-1"], 0%Z);
     (["git"; "fetch"; "origin"], 0%Z);
     (["git"; "--no-pager"; "log"; sample_hash_b; "--pretty=full"; "-1"], 0%Z);
     (["git"; "fetch"; "origin"], 0%Z);
     (["git"; "--no-pager"; "log"; "origin"; "--pretty=full"; "-1"], 0%Z);
     (["git"; "fetch"; "origin"], 0%Z);
     (["git"; "--no-pager"; "log"; "origin"; "--pretty=full"; "-1"], 0%Z);
     (["roll-dep"; WEBRTC_PATH; sample_hash_a], 0%Z);
     (["roll-dep"; LIBJINGLE_PATH; sample_hash_b], 0%Z);
     (["git"; "status"; "--porcelain"], 0%Z);
     (["git"; "add"; "--update"; "."], 0%Z);
     (["git"; "commit"; "-m"; "Roll " ++ nl ++ nl ++ nl ++ "TBR="], 0%Z);
     (["git"; "cl"; "upload"; "-m"; "Roll " ++ nl ++ nl ++ nl ++ "TBR="], 0%Z);
     (["git"; "cl"; "issue"], 0%Z);
     (["git"; "cl"; "set_commit"], 0%Z);
     (["git"; "checkout"; "master"], 0%Z);
     (["git"; "branch"; "-D"; ROLL_BRANCH_NAME], 0%Z)].
Proof. repeat split; vm_compute; reflexivity. Qed.

(** An instance of C3: only webrtc moved. *)
Lemma description_sections_witness :
  _GenerateCLDescription
    (mkCommitInfo "100" sample_hash_a (Some sample_webrtc_url))
    (mkCommitInfo "300" sample_hash_b (Some sample_libjingle_url))
    (mkCommitInfo "200" sample_hash_c None)
    (mkCommitInfo "300" sample_hash_b None)
  = "Roll WebRTC 100:200" ++ nl ++ nl ++ "WebRTC 100:200" ++ nl
      ++ "Changes: " ++ sample_webrtc_url ++ "/+log/aaaaaaa..9999999"
      ++ nl ++ nl ++ nl ++ "TBR=".
Proof.
  destruct (description_sections
              (mkCommitInfo "100" sample_hash_a (Some sample_webrtc_url))
              (mkCommitInfo "300" sample_hash_b (Some sample_libjingle_url))
              (mkCommitInfo "200" sample_hash_c None)
              (mkCommitInfo "300" sample_hash_b None))
    as (_ & H & _).
  apply H; [discriminate | reflexivity].
Defined.

(** An instance of C10: two lines carry a number, the lower one wins. *)
Lemma svn_revision_taken_from_last_match_witness :
  _ParseSvnRevisionFromGitDescription
    ("Cr-Original-Commit-Position: refs/heads/master@{#100}" ++ nl
       ++ "Cr-Original-Commit-Position: refs/heads/master@{#200}" ++ nl
       ++ "Reviewed-by: someone" ++ nl)
  = Ret "200".
Proof.
  apply (@svn_revision_taken_from_last_match
           ("Cr-Original-Commit-Position: refs/heads/master@{#100}" ++ nl
              ++ "Cr-Original-Commit-Position: refs/heads/master@{#200}" ++ nl
              ++ "Reviewed-by: someone" ++ nl)
           ["Cr-Original-Commit-Position: refs/heads/master@{#100}"]
           ["Reviewed-by: someone"]
           "Cr-Original-Commit-Position: refs/heads/master@{#200}"
           [(1, "200")]).
  - reflexivity.
  - reflexivity.
  - intros l [<-|[]]. reflexivity.
Defined.

(** An instance of C4 on the sample tools. *)
Lemma cl_info_parsed_or_fatal_witness :
  _GetCLInfo sample_roller (sample_world sample_hash_a sample_hash_b)
  = (Ret (mkCLInfo 123 "https://host/path" "host"),
     logged (cmd sample_roller ["git"; "cl"; "issue"]) 0
            (repo (sample_world sample_hash_a sample_hash_b))
            (sample_world sample_hash_a sample_hash_b)).
Proof.
  destruct (@cl_info_parsed_or_fatal
              sample_roller (sample_world sample_hash_a sample_hash_b)
              ("Issue number: 123 (https://host/path)" ++ nl) eq_refl)
    as (H & _ & _).
  apply H. reflexivity.
Defined.

(** An instance of C9: the address https://host/a/b gives the host
    identifier host/a. *)
Lemma review_host_up_to_last_slash_witness :
  _GetCLInfo sample_roller slashed_world
  = (Ret (mkCLInfo 7 "https://host/a/b" "host/a"),
     logged (cmd sample_roller ["git"; "cl"; "issue"]) 0
            (repo slashed_world) slashed_world).
Proof.
  apply (@review_host_up_to_last_slash
           sample_roller slashed_world
           ("Issue number: 7 (https://host/a/b)" ++ nl)
           "7" "https://" "host/a" "b").
  - reflexivity.
  - reflexivity.
  - discriminate.
  - reflexivity.
  - right. reflexivity.
  - reflexivity.
  - reflexivity.
  - reflexivity.
Defined.

Lemma stale_world_wf : wf_repo (repo stale_world).
Proof. split; reflexivity. Qed.

(** An instance of C5: a second Abort after one that removed a stale roll
    branch. *)
Lemma abort_idempotent_witness :
  fst (Abort sample_roller stale_world) = Ret 0%Z /\
  Abort sample_roller (snd (Abort sample_roller stale_world))
  = (Ret 0%Z,
     logged (cmd sample_roller ["git"; "branch"]) 0
            (repo (snd (Abort sample_roller stale_world)))
            (snd (Abort sample_roller stale_world))).
Proof.
  split; [reflexivity|].
  apply (proj2 (@abort_idempotent sample_roller stale_world stale_world_wf)
               0%Z (snd (Abort sample_roller stale_world))).
  vm_compute. reflexivity.
Defined.

Lemma sample_resolves (self : AutoRoller) (wl ll path range svn commit : string) :
  _chromium_src self = "/src" ->
  fst (sample_reply wl ll (fetch_cmd self path)) = 0%Z ->
  sample_reply wl ll (log_cmd self path range)
  = (0%Z, sample_log_text commit svn) ->
  _ParseSvnRevisionFromGitDescription (sample_log_text commit svn) = Ret svn ->
  _ParseGitCommitFromDescription (sample_log_text commit svn) = Ret commit ->
  resolves self (sample_outside wl ll) path range svn commit.
Proof.
  intros _ Hf Hl Hs Hc. split; [exact Hf|].
  exists (sample_log_text commit svn). auto.
Qed.

(** An instance of C1: a second run without an upstream change. *)
Lemma unchanged_pins_roll_is_noop_witness :
  exists w',
    PrepareRoll sample_roller (sample_world sample_hash_a sample_hash_b)
    = (Ret 0%Z, w') /\
    has_branch ROLL_BRANCH_NAME (repo w') = false /\
    tree_clean (repo w') = true.
Proof.
  destruct (@unchanged_pins_roll_is_noop
              sample_roller (sample_world sample_hash_a sample_hash_b)
              sample_webrtc_url sample_hash_a
              sample_libjingle_url sample_hash_b
              "100" sample_hash_a "300" sample_hash_b "200" "400")
    as (w' & H1 & H2 & _ & _ & H5 & _);
    try reflexivity;
    try (apply sample_resolves; reflexivity).
  exists w'. auto.
Defined.


Lemma bare_world_quiet : quiet bare_world.
Proof. intros c. discriminate. Qed.

(** An instance of C8: on win32 nothing is run. *)
Lemma platform_check_witness :
  main "win32" abort_args stale_world = (Ret (-1)%Z, stale_world).
Proof.
  apply (proj1 (platform_check "win32" abort_args stale_world)).
  left. reflexivity.
Defined.

(* ================================================================== *)
(** ** More on the matcher *)

(** A star that succeeds stopped after some prefix of characters of its
    set. *)
Lemma star_inv (R : Type) (k : cset) (s : string)
      (cont : option ascii -> string -> option R) (r : R) :
  forall prev,
    star k prev s cont = Some r ->
    exists u v, s = u ++ v /\ all_in k u = true /\
                cont (last_prev prev u) v = Some r.
Proof.
  induction s as [|c s IH]; intros prev H.
  - exists "", "". auto.
  - cbn [star] in H. destruct (in_cset k c) eqn:Hc.
    + destruct (star k (Some c) s cont) as [r0|] eqn:E.
      * injection H as ->. destruct (IH _ E) as (u & v & -> & Hu & Hk).
        exists (String c u), v. cbn [all_in last_prev]. rewrite Hc, Hu. auto.
      * exists "", (String c s). auto.
    + exists "", (String c s). auto.
Qed.

Lemma star_stop (R : Type) (k : cset) (c : ascii) (s : string)
      (cont : option ascii -> string -> option R) (prev : option ascii) :
  in_cset k c = false ->
  star k prev (String c s) cont = cont prev (String c s).
Proof. intros H. cbn [star]. rewrite H. reflexivity. Qed.

Lemma run_lit_inv (ml : bool) (R : Type) (p : string) :
  forall (prev : option ascii) (s : string) (g : groups)
         (cont : option ascii -> string -> groups -> option R) (r : R),
    run ml (lit p) prev s g cont = Some r ->
    exists s', s = p ++ s' /\ cont (last_prev prev p) s' g = Some r.
Proof.
  induction p as [|c p IH]; intros prev s g cont r H.
  - exists s. auto.
  - cbn [lit run] in H. destruct s as [|a s]; [discriminate H|].
    cbn [in_cset] in H. destruct (Ascii.eqb_spec a c) as [->|]; [|discriminate H].
    destruct (IH _ _ _ _ _ H) as (s' & -> & Hk).
    exists s'. auto.
Qed.

Lemma digits_no_hash (n : string) :
  all_in digit n = true -> contains "#" n = false.
Proof.
  induction n as [|c n IH]; intros H; [reflexivity|].
  cbn [all_in] in H. apply andb_true_iff in H. destruct H as [Hc Hn].
  cbn [contains]. rewrite (IH Hn), orb_false_r.
  destruct (Ascii.eqb_spec "#" c) as [<-|]; [discriminate Hc | reflexivity].
Qed.

Lemma contains_split (c : ascii) (s a : string) (d : ascii) (b : string) :
  contains c s = false -> s = a ++ String d b -> Ascii.eqb d c = false.
Proof.
  intros H ->. rewrite contains_app in H. apply orb_false_iff in H.
  destruct H as [_ H]. cbn [contains] in H. apply orb_false_iff in H.
  rewrite Ascii.eqb_sym. apply H.
Qed.

(** The sequence-number pattern on a line of the expected shape: the
    number is the run of digits after the last number sign. *)
Lemma svn_id_match (pre n post : string) :
  contains LF pre = false ->
  n <> "" -> all_in digit n = true ->
  contains LF post = false -> contains "#" post = false ->
  first_in digit post = false ->
  re_match GIT_SVN_ID_RE
           ("Cr-Original-Commit-Position: " ++ pre ++ "#" ++ n ++ post)
  = Some [(1, n)].
Proof.
  intros Hpre Hn Hd Hpost Hhash Hfirst.
  destruct n as [|c n]; [congruence|]. cbn [all_in] in Hd.
  apply andb_true_iff in Hd. destruct Hd as [Hc Hd].
  assert (Hch : Ascii.eqb c "#" = false).
  { destruct (Ascii.eqb_spec c "#") as [->|]; [discriminate Hc | reflexivity]. }
  unfold re_match, GIT_SVN_ID_RE. cbn -[star consumed digit].
  erewrite star_app_ok; [reflexivity | apply all_in_any; exact Hpre |].
  cbn -[consumed digit]. rewrite Hch.
  rewrite star_none.
  2:{ intros p a b E. destruct b as [|d b]; [reflexivity|].
      assert (Hdh : Ascii.eqb d "#" = false).
      { eapply (@contains_split "#" (n ++ post)); [|exact E].
        rewrite contains_app, (digits_no_hash n Hd), Hhash. reflexivity. }
      rewrite Hdh. reflexivity. }
  assert (Hgo : star digit (Some c) (n ++ post)
                      (fun p s' =>
                         star Any p s'
                              (fun _ s'' =>
                                 if at_eol false s''
                                 then Some [(1, consumed (String c (n ++ post)) s')]
                                 else None))
                = Some [(1, String c n)]).
  { apply star_app_ok; [exact Hd|].
    destruct post as [|d post].
    - cbn -[consumed]. change (String c (n ++ "")) with (String c n ++ "").
      rewrite consumed_app. reflexivity.
    - cbn [first_in] in Hfirst. rewrite star_stop by exact Hfirst.
      apply star_all_ok; [apply all_in_any; exact Hpost|].
      cbn -[consumed].
      change (String c (n ++ String d post)) with (String c n ++ String d post).
      rewrite consumed_app. reflexivity. }
  rewrite Hc.
  destruct (negb (Ascii.eqb c LF)); cbv iota; exact Hgo.
Qed.

(** Whatever the sequence-number pattern matches has the expected shape,
    and its group is a non-empty run of digits. *)
Lemma svn_id_match_inv (s : string) (m : groups) :
  re_match GIT_SVN_ID_RE s = Some m ->
  exists pre n post,
    s = "Cr-Original-Commit-Position: " ++ pre ++ "#" ++ n ++ post /\
    m = [(1, n)] /\ n <> "" /\ all_in digit n = true.
Proof.
  unfold re_match, GIT_SVN_ID_RE. cbn [seq fold_right run at_bol].
  intros H.
  apply run_lit_inv in H. destruct H as (s1 & -> & H).
  apply star_inv in H. destruct H as (pre & v & -> & _ & H).
  destruct v as [|h v]; [discriminate H|].
  cbn [in_cset] in H.
  destruct (Ascii.eqb_spec h "#") as [->|]; [|discriminate H].
  destruct v as [|c v]; [discriminate H|].
  destruct (in_cset digit c) eqn:Hc; [|discriminate H].
  apply star_inv in H. destruct H as (n & v2 & -> & Hn & H).
  apply star_inv in H. destruct H as (post & v3 & -> & _ & H).
  destruct (at_eol false v3); [|discriminate H].
  injection H as <-.
  exists pre, (String c n), (post ++ v3).
  change (String c (n ++ post ++ v3)) with (String c n ++ post ++ v3).
  rewrite consumed_app. cbn [all_in]. rewrite Hc, Hn.
  repeat split; congruence.
Qed.

(** X1.  On a description whose bottom-most matching line reads
    "Cr-Original-Commit-Position: ", any text, a number sign, a run of
    digits and a tail without number sign that does not start with a
    digit, the sequence number returned is exactly that run of digits:
    the digits after the last number sign of the line. *)
Theorem svn_revision_is_digits_after_last_hash :
  forall (description : string) (above below : list string)
         (line pre n post : string),
    splitlines description = (above ++ line :: below)%list ->
    strip line = "Cr-Original-Commit-Position: " ++ pre ++ "#" ++ n ++ post ->
    contains LF pre = false ->
    n <> "" -> all_in digit n = true ->
    contains LF post = false -> contains "#" post = false ->
    first_in digit post = false ->
    (forall l, In l below -> re_match GIT_SVN_ID_RE (strip l) = None) ->
    _ParseSvnRevisionFromGitDescription description = Ret n.
Proof.
  intros description above below line pre n post Hs Hl Hpre Hn Hd Hpost Hh Hf Hb.
  unfold _ParseSvnRevisionFromGitDescription.
  rewrite Hs, rev_app_distr. cbn [rev]. rewrite <- app_assoc.
  rewrite svn_revision_scan_skip
    by (intros l Hin; apply Hb; apply in_rev; exact Hin).
  cbn [List.app svn_revision_scan]. rewrite Hl.
  rewrite (svn_id_match pre post Hpre Hn Hd Hpost Hh Hf). reflexivity.
Qed.

Lemma svn_revision_is_digits_after_last_hash_witness :
  _ParseSvnRevisionFromGitDescription
    ("commit abc" ++ nl ++
     "    Cr-Original-Commit-Position: refs/heads/master@{#7} x#42}" ++ nl ++
     "    Cr-Commit-Position: refs/heads/master@{#9}")
  = Ret "42".
Proof.
  apply (@svn_revision_is_digits_after_last_hash _
           ["commit abc"]
           ["    Cr-Commit-Position: refs/heads/master@{#9}"]
           "    Cr-Original-Commit-Position: refs/heads/master@{#7} x#42}"
           "refs/heads/master@{#7} x" "42" "}").
  - reflexivity.
  - reflexivity.
  - reflexivity.
  - discriminate.
  - reflexivity.
  - reflexivity.
  - reflexivity.
  - reflexivity.
  - intros l [<-|[]]. reflexivity.
Defined.

(** X2.  The sequence-number parser either ends the process with status
    -1 or returns a non-empty string of decimal digits: it never returns
    an empty or non-numeric revision. *)
Theorem svn_revision_is_numeric :
  forall description : string,
    _ParseSvnRevisionFromGitDescription description = SysExit (-1) \/
    exists n, _ParseSvnRevisionFromGitDescription description = Ret n /\
              n <> "" /\ all_in digit n = true.
Proof.
  intros description. unfold _ParseSvnRevisionFromGitDescription.
  destruct (svn_revision_scan_outcome (rev (splitlines description)))
    as [H|(l & m & _ & Hm & Hr)]; [left; exact H|].
  right. apply svn_id_match_inv in Hm.
  destruct Hm as (pre & n & post & _ & -> & Hn & Hd).
  exists n. rewrite Hr. cbn. rewrite Nat.eqb_refl || idtac.
  repeat split; assumption.
Qed.

(* ================================================================== *)
(** ** The commit identifier of a log entry *)

Lemma split_ws_spaces (s rest : string) :
  every is_space s = true -> split_ws (s ++ rest) = split_ws rest.
Proof.
  induction s as [|c s IH]; intros H; [reflexivity|].
  cbn [every] in H. apply andb_true_iff in H. destruct H as [Hc Hs].
  cbn [String.append split_ws]. rewrite Hc. apply IH. exact Hs.
Qed.

Lemma split_ws_word (w rest : string) :
  w <> "" -> every not_space w = true -> word_end rest = true ->
  split_ws (w ++ rest) = w :: split_ws rest.
Proof.
  induction w as [|c w IH]; intros Hw Hn Hr; [congruence|].
  cbn [every] in Hn. apply andb_true_iff in Hn. destruct Hn as [Hc Hn].
  unfold not_space in Hc. apply negb_true_iff in Hc.
  cbn [String.append]. destruct w as [|d w].
  - cbn [String.append]. destruct rest as [|e rest].
    + cbn [split_ws]. rewrite Hc. reflexivity.
    + cbn [word_end] in Hr. cbn [split_ws]. rewrite Hc, Hr. reflexivity.
  - assert (Hd : is_space d = false).
    { cbn [every] in Hn. apply andb_true_iff in Hn. destruct Hn as [Hd _].
      unfold not_space in Hd. apply negb_true_iff in Hd. exact Hd. }
    assert (E : split_ws (String d w ++ rest) = String d w :: split_ws rest)
      by (apply IH; [discriminate | exact Hn | exact Hr]).
    cbn [String.append] in E |- *.
    change (split_ws (String c (String d (w ++ rest))))
      with (if is_space c then split_ws (String d (w ++ rest))
            else if is_space d
                 then String c EmptyString :: split_ws (String d (w ++ rest))
                 else match split_ws (String d (w ++ rest)) with
                      | x :: ws => String c x :: ws
                      | [] => [String c EmptyString]
                      end).
    rewrite Hc, Hd, E. reflexivity.
Qed.

Lemma startswith_app (p s : string) : startswith p (p ++ s) = true.
Proof.
  unfold startswith. induction p as [|c p IH]; cbn; [now destruct s|].
  destruct (ascii_dec c c) as [_|N]; [exact IH | congruence].
Qed.

Lemma git_commit_scan_skip (a b : list string) :
  (forall l, In l a -> startswith "commit " l = false) ->
  git_commit_scan (a ++ b)%list = git_commit_scan b.
Proof.
  induction a as [|x a IH]; intros H; [reflexivity|].
  cbn [List.app git_commit_scan]. rewrite (H x) by (left; reflexivity).
  apply IH. intros l Hl. apply H. right. exact Hl.
Qed.

(** X3.  The commit identifier is taken from the first line, from the
    top, that starts with "commit ": it is the word that follows the
    keyword, whatever white space separates them and whatever follows on
    the line or on later lines. *)
Theorem git_commit_is_second_word_of_first_commit_line :
  forall (description : string) (above below : list string)
         (line gap id rest : string),
    splitlines description = (above ++ line :: below)%list ->
    (forall l, In l above -> startswith "commit " l = false) ->
    line = "commit " ++ gap ++ id ++ rest ->
    every is_space gap = true ->
    id <> "" -> every not_space id = true -> word_end rest = true ->
    _ParseGitCommitFromDescription description = Ret id.
Proof.
  intros description above below line gap id rest Hs Ha -> Hg Hi Hn Hr.
  unfold _ParseGitCommitFromDescription. rewrite Hs.
  rewrite git_commit_scan_skip by exact Ha.
  cbn [git_commit_scan]. rewrite startswith_app.
  change ("commit " ++ gap ++ id ++ rest)
    with ("commit" ++ (" " ++ gap) ++ id ++ rest).
  rewrite split_ws_word; [| discriminate | reflexivity | reflexivity].
  change (" " ++ gap) with (String " " gap).
  change (String " " gap ++ id ++ rest) with (String " " (gap ++ id ++ rest)).
  change (split_ws (String " " (gap ++ id ++ rest)))
    with (split_ws (gap ++ id ++ rest)).
  rewrite split_ws_spaces by exact Hg.
  rewrite split_ws_word by assumption. reflexivity.
Qed.

Lemma git_commit_is_second_word_of_first_commit_line_witness :
  _ParseGitCommitFromDescription
    ("Author: someone" ++ nl ++
     "commit   0123abc (HEAD)" ++ nl ++
     "commit ffff")
  = Ret "0123abc".
Proof.
  apply (@git_commit_is_second_word_of_first_commit_line _
           ["Author: someone"] ["commit ffff"]
           "commit   0123abc (HEAD)" "  " "0123abc" " (HEAD)").
  - reflexivity.
  - intros l [<-|[]]. reflexivity.
  - reflexivity.
  - reflexivity.
  - discriminate.
  - reflexivity.
  - reflexivity.
Defined.

(** X4.  When the first line starting with "commit " carries nothing
    but white space after the keyword, the parser does not reach its own
    error exit: indexing the split line raises IndexError, even if a later
    line holds a proper identifier. *)
Theorem git_commit_keyword_alone_raises :
  forall (description : string) (above below : list string)
         (line gap : string),
    splitlines description = (above ++ line :: below)%list ->
    (forall l, In l above -> startswith "commit " l = false) ->
    line = "commit " ++ gap ->
    every is_space gap = true ->
    _ParseGitCommitFromDescription description = Raised "IndexError".
Proof.
  intros description above below line gap Hs Ha -> Hg.
  unfold _ParseGitCommitFromDescription. rewrite Hs.
  rewrite git_commit_scan_skip by exact Ha.
  cbn [git_commit_scan]. rewrite startswith_app.
  replace ("commit " ++ gap) with ("commit" ++ (String " " gap) ++ "")
    by (cbn [String.append]; now rewrite app_nil_r_s).
  rewrite split_ws_word; [| discriminate | reflexivity | reflexivity].
  rewrite split_ws_spaces by (cbn [every]; rewrite Hg; reflexivity).
  reflexivity.
Qed.

Lemma git_commit_keyword_alone_raises_witness :
  _ParseGitCommitFromDescription
    ("commit  " ++ nl ++ "commit 0123abc")
  = Raised "IndexError".
Proof.
  apply (@git_commit_keyword_alone_raises _
           [] ["commit 0123abc"] "commit  " " ").
  - reflexivity.
  - intros l [].
  - reflexivity.
  - reflexivity.
Defined.

(* ================================================================== *)
(** ** Reading a pin of the DEPS file *)

Lemma find_absent (c : ascii) (s : string) :
  contains c s = false -> find c s = (-1)%Z.
Proof.
  induction s as [|d s IH]; intros H; [reflexivity|].
  cbn [contains] in H. apply orb_false_iff in H. destruct H as [Hd Hs].
  cbn [find]. rewrite Ascii.eqb_sym, Hd, (IH Hs). reflexivity.
Qed.

Lemma slice_all_but_last (s : string) :
  slice None (Some (-1)%Z) s = substring 0 (String.length s - 1) s.
Proof.
  unfold slice, clip. cbn [Z.ltb Z.compare].
  replace (Z.to_nat (Z.max 0 (Z.of_nat (String.length s) + -1) - 0))
    with (String.length s - 1)%nat by lia.
  reflexivity.
Qed.

Lemma slice_from_start (s : string) : slice (Some 0%Z) None s = s.
Proof.
  unfold slice, clip. cbn [Z.ltb Z.compare].
  rewrite Z.min_l by lia. cbn [Z.to_nat].
  rewrite Z.sub_0_r, Nat2Z.id. apply substring_all. lia.
Qed.

(** X5.  A pin is split at its first at sign: the address is what
    precedes it and the revision everything after it, further at signs
    included; the commit is then looked up as by [_GetCommitInfo] with
    these two. *)
Theorem deps_pin_split_at_first_at_sign :
  forall (self : AutoRoller) (deps : Deps) (path u h : string) (w : World),
    deps_get ("src/" ++ path) deps = Some (u ++ "@" ++ h) ->
    contains "@" u = false ->
    _GetDepsCommitInfo self deps path w
    = _GetCommitInfo self path (Some h) (Some u) w.
Proof.
  intros self deps path u h w Hd Hu. unfold _GetDepsCommitInfo. rewrite Hd.
  change (slice None (Some (find "@" (u ++ "@" ++ h))) (u ++ "@" ++ h))
    with (pin_url (u ++ "@" ++ h)).
  change (slice (Some (find "@" (u ++ "@" ++ h) + 1)%Z) None (u ++ "@" ++ h))
    with (pin_rev (u ++ "@" ++ h)).
  rewrite pin_url_app, pin_rev_app by exact Hu. reflexivity.
Qed.

Lemma deps_pin_split_at_first_at_sign_witness :
  _GetDepsCommitInfo sample_roller
                     [("src/third_party/webrtc", "https://host/a.git@abc@def")]
                     WEBRTC_PATH (sample_world "" "")
  = _GetCommitInfo sample_roller WEBRTC_PATH (Some "abc@def")
                   (Some "https://host/a.git") (sample_world "" "").
Proof.
  apply (@deps_pin_split_at_first_at_sign sample_roller
           [("src/third_party/webrtc", "https://host/a.git@abc@def")]
           WEBRTC_PATH "https://host/a.git" "abc@def").
  - reflexivity.
  - reflexivity.
Defined.

(** X6.  A pin without an at sign is not rejected: the whole entry is
    taken as the revision, and the address is the entry without its last
    character. *)
Theorem deps_pin_without_at_sign :
  forall (self : AutoRoller) (deps : Deps) (path entry : string) (w : World),
    deps_get ("src/" ++ path) deps = Some entry ->
    contains "@" entry = false ->
    _GetDepsCommitInfo self deps path w
    = _GetCommitInfo self path (Some entry)
                     (Some (substring 0 (String.length entry - 1) entry)) w.
Proof.
  intros self deps path entry w Hd He. unfold _GetDepsCommitInfo. rewrite Hd.
  rewrite (find_absent _ _ He).
  change (-1 + 1)%Z with 0%Z.
  rewrite slice_all_but_last, slice_from_start. reflexivity.
Qed.

Lemma deps_pin_without_at_sign_witness :
  _GetDepsCommitInfo sample_roller
                     [("src/third_party/webrtc", "https://host/a.git")]
                     WEBRTC_PATH (sample_world "" "")
  = _GetCommitInfo sample_roller WEBRTC_PATH (Some "https://host/a.git")
                   (Some "https://host/a.gi") (sample_world "" "").
Proof.
  apply (@deps_pin_without_at_sign sample_roller
           [("src/third_party/webrtc", "https://host/a.git")]
           WEBRTC_PATH "https://host/a.git").
  - reflexivity.
  - reflexivity.
Defined.

(* ================================================================== *)
(** ** The substitution in the README *)

(** Enough fuel is enough: the scan does not depend on how much more it
    is given. *)
Lemma sub_from_fuel (ml : bool) (r : regex) (repl : string) :
  forall (f1 f2 : nat) (prev : option ascii) (s : string),
    String.length s < f1 -> String.length s < f2 ->
    sub_from ml r repl f1 prev s = sub_from ml r repl f2 prev s.
Proof.
  induction f1 as [|f1 IH]; intros f2 prev s H1 H2; [lia|].
  destruct f2 as [|f2]; [lia|].
  cbn [sub_from].
  destruct (run ml r prev s [] (fun p s' _ => Some (p, s'))) as [[p s']|].
  - destruct (String.length s' <? String.length s)%nat eqn:E.
    + apply Nat.ltb_lt in E. f_equal. apply IH; lia.
    + destruct s as [|c t]; [reflexivity|].
      cbn [String.length] in H1, H2. do 2 f_equal. apply IH; lia.
  - destruct s as [|c t]; [reflexivity|].
    cbn [String.length] in H1, H2. f_equal. apply IH; lia.
Qed.

Lemma sub_from_S (ml : bool) (r : regex) (repl : string) (f : nat)
      (prev : option ascii) (s : string) :
  sub_from ml r repl (S f) prev s
  = match run ml r prev s [] (fun p s' _ => Some (p, s')) with
    | Some (p, s') =>
        if (String.length s' <? String.length s)%nat
        then repl ++ sub_from ml r repl f p s'
        else
          match s with
          | EmptyString => repl
          | String c t => repl ++ String c (sub_from ml r repl f (Some c) t)
          end
    | None =>
        match s with
        | EmptyString => EmptyString
        | String c t => String c (sub_from ml r repl f (Some c) t)
        end
    end.
Proof. reflexivity. Qed.

Lemma sub_from_step (ml : bool) (r : regex) (repl : string)
      (prev : option ascii) (s : string) :
  sub_from ml r repl (S (String.length s)) prev s
  = match run ml r prev s [] (fun p s' _ => Some (p, s')) with
    | Some (p, s') =>
        if (String.length s' <? String.length s)%nat
        then repl ++ sub_from ml r repl (S (String.length s')) p s'
        else
          match s with
          | EmptyString => repl
          | String c t =>
              repl ++ String c (sub_from ml r repl (S (String.length t))
                                         (Some c) t)
          end
    | None =>
        match s with
        | EmptyString => EmptyString
        | String c t =>
            String c (sub_from ml r repl (S (String.length t)) (Some c) t)
        end
    end.
Proof.
  rewrite sub_from_S.
  destruct (run ml r prev s [] (fun p s' _ => Some (p, s'))) as [[p s']|].
  - destruct (String.length s' <? String.length s)%nat eqn:E.
    + apply Nat.ltb_lt in E. f_equal. apply sub_from_fuel; lia.
    + destruct s as [|c t]; reflexivity.
  - destruct s as [|c t]; reflexivity.
Qed.

(** A star fails when its continuation fails wherever the star can stop,
    the character before the stop being known to satisfy [G]. *)
Lemma star_none_tracking (R : Type) (k : cset) (G : option ascii -> Prop)
      (cont : option ascii -> string -> option R) :
  (forall c, in_cset k c = true -> G (Some c)) ->
  (forall p b, G p -> cont p b = None) ->
  forall s prev, G prev -> star k prev s cont = None.
Proof.
  intros Hk Hc. induction s as [|c s IH]; intros prev Hp; cbn [star].
  - apply Hc. exact Hp.
  - destruct (in_cset k c) eqn:E; [|apply Hc; exact Hp].
    rewrite IH by (apply Hk; exact E). apply Hc. exact Hp.
Qed.

Lemma star_first_only (R : Type) (k : cset) (G : option ascii -> Prop)
      (cont : option ascii -> string -> option R) :
  (forall c, in_cset k c = true -> G (Some c)) ->
  (forall p b, G p -> cont p b = None) ->
  forall s prev, star k prev s cont = cont prev s.
Proof.
  intros Hk Hc s prev. destruct s as [|c s]; [reflexivity|].
  cbn [star]. destruct (in_cset k c) eqn:E; [|reflexivity].
  rewrite (@star_none_tracking _ k G cont Hk Hc) by (apply Hk; exact E).
  reflexivity.
Qed.

Lemma run_lit_ok (ml : bool) (R : Type) (p : string) :
  forall (prev : option ascii) (s : string) (g : groups)
         (cont : option ascii -> string -> groups -> option R),
    run ml (lit p) prev (p ++ s) g cont = cont (last_prev prev p) s g.
Proof.
  induction p as [|c p IH]; intros prev s g cont; [reflexivity|].
  cbn [lit run String.append in_cset last_prev].
  rewrite Ascii.eqb_refl. apply IH.
Qed.

Lemma run_lit_none (ml : bool) (R : Type) (p : string) :
  forall (prev : option ascii) (s : string) (g : groups)
         (cont : option ascii -> string -> groups -> option R),
    String.prefix p s = false -> run ml (lit p) prev s g cont = None.
Proof.
  induction p as [|c p IH]; intros prev s g cont H.
  - destruct s; discriminate H.
  - cbn [lit run]. destruct s as [|a s]; [reflexivity|].
    cbn [String.prefix] in H. cbn [in_cset].
    destruct (ascii_dec c a) as [->|N].
    + rewrite Ascii.eqb_refl. apply IH. exact H.
    + destruct (Ascii.eqb_spec a c) as [->|]; [congruence | reflexivity].
Qed.

Lemma prefix_split (p s : string) :
  String.prefix p s = true -> exists x, s = p ++ x.
Proof.
  revert s. induction p as [|c p IH]; intros s H.
  - exists s. reflexivity.
  - destruct s as [|a s]; [discriminate H|]. cbn [String.prefix] in H.
    destruct (ascii_dec c a) as [->|]; [|discriminate H].
    destruct (IH _ H) as (x & ->). exists x. reflexivity.
Qed.

(** A prefix without line feed that a line does not start with is not
    found either when the text goes on after the line. *)
Lemma prefix_line (p l rest : string) :
  contains LF p = false ->
  rest = "" \/ (exists r, rest = String LF r) ->
  String.prefix p l = false -> String.prefix p (l ++ rest) = false.
Proof.
  revert l. induction p as [|c p IH]; intros l Hp Hr H.
  - destruct l; discriminate H.
  - cbn [contains] in Hp. apply orb_false_iff in Hp. destruct Hp as [Hc Hp].
    destruct l as [|a l].
    + cbn [String.append]. destruct Hr as [->|(r & ->)]; [reflexivity|].
      cbn [String.prefix]. destruct (ascii_dec c LF) as [->|]; [|reflexivity].
      rewrite Ascii.eqb_refl in Hc. discriminate Hc.
    + cbn [String.append String.prefix] in H |- *.
      destruct (ascii_dec c a); [|reflexivity]. apply IH; assumption.
Qed.

Lemma last_prev_app (prev : option ascii) (a b : string) :
  last_prev prev (a ++ b) = last_prev (last_prev prev a) b.
Proof.
  revert prev. induction a as [|c a IH]; intros prev; [reflexivity|].
  cbn [String.append last_prev]. apply IH.
Qed.

Lemma last_prev_mid (x : string) :
  all_in Any x = true ->
  forall c, Ascii.eqb c LF = false ->
            exists d, last_prev (Some c) x = Some d /\ Ascii.eqb d LF = false.
Proof.
  induction x as [|a x IH]; intros Hx c Hc.
  - exists c. auto.
  - cbn [all_in in_cset] in Hx. apply andb_true_iff in Hx.
    destruct Hx as [Ha Hx]. apply negb_true_iff in Ha.
    cbn [last_prev]. apply IH; assumption.
Qed.

(** Away from a line start the README pattern matches nowhere. *)
Lemma readme_re_mid_line (c : ascii) (s : string) :
  Ascii.eqb c LF = false ->
  run true README_REVISION_RE (Some c) s [] (fun p s' _ => Some (p, s'))
  = None.
Proof.
  intros Hc. unfold README_REVISION_RE. cbn [seq fold_right run].
  apply (@star_none_tracking _ Any
           (fun p => exists d, p = Some d /\ Ascii.eqb d LF = false)).
  - intros d Hd. cbn [in_cset] in Hd. apply negb_true_iff in Hd.
    exists d. auto.
  - intros p b (d & -> & Hd). cbn [at_bol]. rewrite Hd. reflexivity.
  - exists c. auto.
Qed.

Lemma readme_re_at_bol (prev : option ascii) (s : string) :
  at_bol true prev = true ->
  run true README_REVISION_RE prev s [] (fun p s' _ => Some (p, s'))
  = run true (seq [lit "Revision: "; Grp 1 (Star digit); Star Any]) prev s []
        (fun p s' _ => Some (p, s')).
Proof.
  intros Hb. unfold README_REVISION_RE. cbn [seq fold_right].
  change (run true (Cat (Star Any) ?r) prev s [] ?k)
    with (star Any prev s (fun p s' => run true r p s' [] k)).
  rewrite (@star_first_only _ Any
             (fun p => exists d, p = Some d /\ Ascii.eqb d LF = false)).
  - cbn [run]. rewrite Hb. reflexivity.
  - intros d Hd. cbn [in_cset] in Hd. apply negb_true_iff in Hd.
    exists d. auto.
  - intros p b (d & -> & Hd). cbn [run at_bol]. rewrite Hd. reflexivity.
Qed.

Lemma rest_of_line (x rest : string) (prev : option ascii) :
  all_in Any x = true ->
  rest = "" \/ (exists r, rest = String LF r) ->
  star Any prev (x ++ rest) (fun p s' => Some (p, s'))
  = Some (last_prev prev x, rest).
Proof.
  intros Hx Hr. apply star_app_ok; [exact Hx|].
  destruct Hr as [->|(r & ->)]; reflexivity.
Qed.

Lemma digits_then_rest_of_line (x rest : string) :
  all_in Any x = true ->
  rest = "" \/ (exists r, rest = String LF r) ->
  forall prev,
    star digit prev (x ++ rest)
         (fun p s' => star Any p s' (fun p1 s1 => Some (p1, s1)))
    = Some (last_prev prev x, rest).
Proof.
  intros Hx Hr. induction x as [|c x IH]; intros prev.
  - cbn [String.append last_prev].
    destruct Hr as [->|(r & ->)]; reflexivity.
  - cbn [all_in] in Hx. apply andb_true_iff in Hx. destruct Hx as [Hc Hx].
    cbn [String.append star last_prev].
    destruct (in_cset digit c).
    + rewrite (IH Hx). reflexivity.
    + rewrite Hc.
      change (star Any (Some c) (x ++ rest) (fun p1 s1 => Some (p1, s1)))
        with (star Any (Some c) (x ++ rest) (fun p s' => Some (p, s'))).
      rewrite (@rest_of_line x rest (Some c) Hx Hr). reflexivity.
Qed.

Lemma readme_re_revision_line (prev : option ascii) (x rest : string) :
  at_bol true prev = true ->
  all_in Any x = true ->
  rest = "" \/ (exists r, rest = String LF r) ->
  run true README_REVISION_RE prev ("Revision: " ++ x ++ rest) []
      (fun p s' _ => Some (p, s'))
  = Some (last_prev (Some " "%char) x, rest).
Proof.
  intros Hb Hx Hr. rewrite readme_re_at_bol by exact Hb.
  cbn [seq fold_right].
  change (run true (Cat (lit "Revision: ") ?r) prev ?s [] ?k)
    with (run true (lit "Revision: ") prev s []
              (fun p s' g' => run true r p s' g' k)).
  rewrite run_lit_ok. cbn [run].
  apply digits_then_rest_of_line; assumption.
Qed.

Lemma readme_re_other_line (prev : option ascii) (s : string) :
  at_bol true prev = true ->
  startswith "Revision: " s = false ->
  run true README_REVISION_RE prev s [] (fun p s' _ => Some (p, s')) = None.
Proof.
  intros Hb Hs. rewrite readme_re_at_bol by exact Hb.
  cbn [seq fold_right].
  change (run true (Cat (lit "Revision: ") ?r) prev ?s [] ?k)
    with (run true (lit "Revision: ") prev s []
              (fun p s' g' => run true r p s' g' k)).
  apply run_lit_none. exact Hs.
Qed.

Lemma all_in_app (k : cset) (a b : string) :
  all_in k (a ++ b) = all_in k a && all_in k b.
Proof.
  induction a as [|c a IH]; [reflexivity|].
  cbn [String.append all_in]. rewrite IH. apply andb_assoc.
Qed.

(** Within a line the scan copies the text up to the line's end. *)
Lemma readme_sub_mid (repl x rest : string) :
  all_in Any x = true ->
  forall c,
    Ascii.eqb c LF = false ->
    sub_from true README_REVISION_RE repl
             (S (String.length (x ++ rest))) (Some c) (x ++ rest)
    = x ++ match rest with
           | EmptyString => EmptyString
           | String d r =>
               String d (sub_from true README_REVISION_RE repl
                                  (S (String.length r)) (Some d) r)
           end.
Proof.
  induction x as [|a x IH]; intros Hx c Hc.
  - cbn [String.append].
    rewrite (@sub_from_step true README_REVISION_RE repl (Some c) rest).
    rewrite readme_re_mid_line by exact Hc. destruct rest; reflexivity.
  - cbn [all_in in_cset] in Hx. apply andb_true_iff in Hx.
    destruct Hx as [Ha Hx]. apply negb_true_iff in Ha.
    cbn [String.append].
    rewrite (@sub_from_step true README_REVISION_RE repl
                            (Some c) (String a (x ++ rest))).
    rewrite readme_re_mid_line by exact Hc.
    f_equal. apply IH; assumption.
Qed.

(** At a line start the scan rewrites the line if it starts with the
    keyword, copies it otherwise, and goes on after the line feed. *)
Lemma readme_sub_line (new l rest : string) (prev : option ascii) :
  at_bol true prev = true ->
  all_in Any l = true ->
  rest = "" \/ (exists r, rest = String LF r) ->
  sub_from true README_REVISION_RE ("Revision: " ++ new)
           (S (String.length (l ++ rest))) prev (l ++ rest)
  = bump_line new l
    ++ match rest with
       | EmptyString => EmptyString
       | String d r =>
           String d (sub_from true README_REVISION_RE ("Revision: " ++ new)
                              (S (String.length r)) (Some d) r)
       end.
Proof.
  intros Hb Hl Hr. unfold bump_line.
  remember ("Revision: " ++ new) as repl eqn:Hrepl. clear Hrepl.
  destruct (startswith "Revision: " l) eqn:E.
  - apply prefix_split in E. destruct E as (x & ->).
    rewrite all_in_app in Hl. apply andb_true_iff in Hl. destruct Hl as [_ Hx].
    rewrite app_assoc_s.
    rewrite (@sub_from_step true README_REVISION_RE repl
                            prev ("Revision: " ++ x ++ rest)).
    rewrite readme_re_revision_line by assumption.
    assert (Hlt : (String.length rest
                   <? String.length ("Revision: " ++ x ++ rest))%nat = true).
    { apply Nat.ltb_lt. rewrite !length_app. cbn [String.length]. lia. }
    rewrite Hlt.
    destruct (@last_prev_mid x Hx " "%char eq_refl) as (d & -> & Hd).
    pose proof (@readme_sub_mid repl "" rest eq_refl d Hd) as Hm.
    cbn [String.append] in Hm. rewrite Hm. reflexivity.
  - rewrite (@sub_from_step true README_REVISION_RE repl prev (l ++ rest)).
    rewrite readme_re_other_line;
      [| exact Hb | apply prefix_line; [reflexivity | exact Hr | exact E]].
    destruct l as [|a x].
    + destruct Hr as [->|(r & ->)]; reflexivity.
    + cbn [all_in in_cset] in Hl. apply andb_true_iff in Hl.
      destruct Hl as [Ha Hx]. apply negb_true_iff in Ha.
      cbn [String.append]. f_equal. apply readme_sub_mid; assumption.
Qed.

Lemma concat_cons2 (sep x y : string) (l : list string) :
  String.concat sep (x :: y :: l) = x ++ sep ++ String.concat sep (y :: l).
Proof. reflexivity. Qed.

(** The substitution on a text given by its lines. *)
Lemma readme_sub_lines (new : string) :
  forall (lines : list string) (prev : option ascii),
    at_bol true prev = true ->
    (forall l, In l lines -> contains LF l = false) ->
    sub_from true README_REVISION_RE ("Revision: " ++ new)
             (S (String.length (String.concat nl lines))) prev
             (String.concat nl lines)
    = String.concat nl (map (bump_line new) lines).
Proof.
  induction lines as [|l ls IH]; intros prev Hb Hl.
  - cbn [String.concat map].
    rewrite (@sub_from_step true README_REVISION_RE ("Revision: " ++ new)
                            prev "").
    rewrite readme_re_other_line by (exact Hb || reflexivity). reflexivity.
  - assert (Hl0 : all_in Any l = true)
      by (apply all_in_any, Hl; left; reflexivity).
    destruct ls as [|l2 ls].
    + pose proof (@readme_sub_line new l "" prev Hb Hl0 (or_introl eq_refl))
        as H.
      rewrite !app_nil_r_s in H. exact H.
    + cbn [map]. rewrite !concat_cons2.
      change (nl ++ String.concat nl (l2 :: ls))
        with (String LF (String.concat nl (l2 :: ls))).
      rewrite (@readme_sub_line new l (String LF (String.concat nl (l2 :: ls)))
                                prev Hb Hl0)
        by (right; eexists; reflexivity).
      rewrite IH; [reflexivity | reflexivity |].
      intros x Hx. apply Hl. right. exact Hx.
Qed.

Lemma split_on_nonempty (sep : ascii) (s : string) : split_on sep s <> [].
Proof.
  destruct s as [|c s]; cbn [split_on]; [discriminate|].
  destruct (Ascii.eqb c sep); [discriminate|].
  destruct (split_on sep s); discriminate.
Qed.

Lemma concat_cons_char (sep : string) (c : ascii) (l : string)
      (ls : list string) :
  String.concat sep (String c l :: ls) = String c (String.concat sep (l :: ls)).
Proof. destruct ls; reflexivity. Qed.

(** Joining what [split] gives restores the text. *)
Lemma split_on_concat (sep : ascii) (s : string) :
  String.concat (String sep "") (split_on sep s) = s.
Proof.
  induction s as [|c s IH]; [reflexivity|].
  cbn [split_on]. destruct (Ascii.eqb_spec c sep) as [->|].
  - pose proof (split_on_nonempty sep s) as Hne.
    destruct (split_on sep s) as [|l ls] eqn:E; [congruence|].
    rewrite concat_cons2, IH. reflexivity.
  - destruct (split_on sep s) as [|l ls] eqn:E.
    + exfalso. apply (split_on_nonempty sep s). exact E.
    + rewrite concat_cons_char, IH. reflexivity.
Qed.

Lemma split_on_free (sep : ascii) (s : string) :
  forall l, In l (split_on sep s) -> contains sep l = false.
Proof.
  induction s as [|c s IH]; intros l Hl.
  - destruct Hl as [<-|[]]. reflexivity.
  - cbn [split_on] in Hl. destruct (Ascii.eqb_spec c sep) as [->|N].
    + destruct Hl as [<-|Hl]; [reflexivity | apply IH; exact Hl].
    + destruct (split_on sep s) as [|x xs].
      * destruct Hl as [<-|[]]. cbn [contains].
        destruct (Ascii.eqb_spec sep c); [congruence | reflexivity].
      * destruct Hl as [<-|Hl].
        -- cbn [contains]. rewrite (IH x (or_introl eq_refl)).
           destruct (Ascii.eqb_spec sep c); [congruence | reflexivity].
        -- apply IH. right. exact Hl.
Qed.

Lemma readme_bumped_lines (new txt : string) :
  readme_bumped new txt
  = String.concat nl (map (bump_line new) (split_on LF txt)).
Proof.
  pose proof (@readme_sub_lines new (split_on LF txt) None eq_refl
                                (split_on_free LF txt)) as H.
  unfold nl in H at 1 2. rewrite split_on_concat in H. exact H.
Qed.

Lemma bump_line_twice (new l : string) :
  bump_line new (bump_line new l) = bump_line new l.
Proof.
  unfold bump_line. destruct (startswith "Revision: " l) eqn:E.
  - rewrite startswith_app. reflexivity.
  - rewrite E. reflexivity.
Qed.

Lemma readme_bumped_twice (new txt : string) :
  contains LF new = false ->
  readme_bumped new (readme_bumped new txt) = readme_bumped new txt.
Proof.
  intros Hn. rewrite (readme_bumped_lines new txt).
  unfold readme_bumped at 1, re_sub.
  rewrite readme_sub_lines.
  - rewrite map_map. f_equal. apply map_ext. intros l. apply bump_line_twice.
  - reflexivity.
  - intros l Hl. apply in_map_iff in Hl. destruct Hl as (x & <- & Hx).
    unfold bump_line. destruct (startswith "Revision: " x).
    + rewrite contains_app, Hn. reflexivity.
    + apply (split_on_free LF txt). exact Hx.
Qed.

(** X7.  The README is rewritten line by line, the lines being what
    lies between line feeds: every line that starts with "Revision: " is
    replaced as a whole by that keyword followed by the new revision,
    whatever followed the keyword, and every other line is kept as it is.
    The new revision holds no backslash, which the substitution would
    read as an escape. *)
Theorem readme_rewritten_line_by_line :
  forall (new_revision : string) (w : World),
    contains backslash new_revision = false ->
    work_readme (repo (snd (_UpdateReadmeFile LIBJINGLE_README new_revision w)))
    = String.concat nl (map (bump_line new_revision)
                            (split_on LF (work_readme (repo w)))).
Proof.
  intros new_revision w _.
  change (work_readme
            (repo (snd (_UpdateReadmeFile LIBJINGLE_README new_revision w))))
    with (readme_bumped new_revision (work_readme (repo w))).
  apply readme_bumped_lines.
Qed.

Lemma readme_rewritten_line_by_line_witness :
  work_readme
    (repo (snd (_UpdateReadmeFile LIBJINGLE_README "4242"
                                  (sample_world "" ""))))
  = "Name: libjingle" ++ nl ++ "Revision: 4242" ++ nl.
Proof.
  apply (@readme_rewritten_line_by_line "4242" (sample_world "" "")).
  reflexivity.
Defined.

(** X8.  Updating the README twice with the same revision gives what
    updating it once gives, provided the revision holds no line feed and
    no backslash. *)
Theorem readme_update_idempotent :
  forall (new_revision : string) (w : World),
    contains LF new_revision = false ->
    contains backslash new_revision = false ->
    (_UpdateReadmeFile LIBJINGLE_README new_revision ;;;
     _UpdateReadmeFile LIBJINGLE_README new_revision) w
    = _UpdateReadmeFile LIBJINGLE_README new_revision w.
Proof.
  intros new_revision w Hn _.
  change ((Ret tt,
           mkWorld
             (set_work_readme
                (readme_bumped new_revision
                   (readme_bumped new_revision (work_readme (repo w))))
                (set_work_readme
                   (readme_bumped new_revision (work_readme (repo w)))
                   (repo w)))
             (outside w) (log w))
          = (Ret tt,
             mkWorld
               (set_work_readme
                  (readme_bumped new_revision (work_readme (repo w))) (repo w))
               (outside w) (log w))).
  rewrite readme_bumped_twice by exact Hn. reflexivity.
Qed.

Lemma readme_update_idempotent_witness :
  (_UpdateReadmeFile LIBJINGLE_README "4242" ;;;
   _UpdateReadmeFile LIBJINGLE_README "4242") (sample_world "" "")
  = _UpdateReadmeFile LIBJINGLE_README "4242" (sample_world "" "").
Proof.
  apply (@readme_update_idempotent "4242" (sample_world "" ""));
    reflexivity.
Defined.


(* ================================================================== *)
(** ** A roll that is sent to the commit queue *)



(* ================================================================== *)
(** ** Abort with a roll branch *)

Lemma run_checkout_ok (self : AutoRoller) (n : string) (w : World) (t : Rev) :
  (n =? cur_name (repo w)) = false ->
  lookup n (others (repo w)) = Some t ->
  tracked_modified (repo w) = false ->
  _RunCommand self ["git"; "checkout"; n] None false [] w
  = (Ret "",
     logged (cmd self ["git"; "checkout"; n]) 0
            (mkRepo n t
                    ((cur_name (repo w), cur_rev (repo w))
                     :: remove n (others (repo w)))
                    (rev_deps t) (rev_readme t) (untracked (repo w)) false)
            w).
Proof.
  intros Hn Hl Ht. rewrite run_command_unfold. cbv zeta.
  rewrite exec_checkout. unfold git_checkout. rewrite Hn, Hl.
  unfold tracked_modified in Ht. apply orb_false_iff in Ht.
  destruct Ht as [Hd Hr]. rewrite Hd, Hr.
  cbn [negb]. rewrite !orb_true_r. reflexivity.
Qed.

Lemma run_checkout_same (self : AutoRoller) (w : World) :
  _RunCommand self ["git"; "checkout"; cur_name (repo w)] None false [] w
  = (Ret "",
     logged (cmd self ["git"; "checkout"; cur_name (repo w)]) 0 (repo w) w).
Proof.
  rewrite run_command_unfold. cbv zeta.
  rewrite exec_checkout. unfold git_checkout. rewrite String.eqb_refl.
  reflexivity.
Qed.

Lemma run_branch_delete_ok (self : AutoRoller) (n : string) (w : World) :
  (n =? cur_name (repo w)) = false ->
  mem n (names (others (repo w))) = true ->
  _RunCommand self ["git"; "branch"; "-D"; n] None false [] w
  = (Ret "",
     logged (cmd self ["git"; "branch"; "-D"; n]) 0
            (set_others (remove n (others (repo w))) (repo w)) w).
Proof.
  intros Hn Hm. rewrite run_command_unfold. cbv zeta.
  rewrite exec_branch_delete. unfold git_branch_delete. rewrite Hn, Hm.
  reflexivity.
Qed.

(** A command whose exit status is ignored returns whatever the tool
    answers. *)
Lemma run_outside_ignored (self : AutoRoller) (a : list string)
      (wd : option string) (env : list (string * string)) (w : World) :
  answers_outside a ->
  _RunCommand self a wd true env w
  = (Ret (snd (reply (outside w) (mkCommand a (run_dir self wd) env))),
     logged (mkCommand a (run_dir self wd) env)
            (fst (reply (outside w) (mkCommand a (run_dir self wd) env)))
            (repo w) w).
Proof.
  intros Ha. rewrite run_command_unfold. cbv zeta. rewrite Ha. reflexivity.
Qed.

Lemma lookup_mem (n : string) (bs : list (string * Rev)) (t : Rev) :
  lookup n bs = Some t -> mem n (names bs) = true.
Proof.
  induction bs as [|[m r] bs IH]; intros H; [discriminate H|].
  cbn [lookup] in H. rewrite mem_names_cons.
  destruct (n =? m); [reflexivity | apply IH; exact H].
Qed.

Lemma remove_head (n : string) (t : Rev) (bs : list (string * Rev)) :
  remove n ((n, t) :: bs) = remove n bs.
Proof. unfold remove. cbn [filter fst]. rewrite String.eqb_refl. reflexivity. Qed.

Lemma clean_tracked (r : Repo) :
  tracked_modified r = false ->
  work_deps r = rev_deps (cur_rev r) /\ work_readme r = rev_readme (cur_rev r).
Proof.
  unfold tracked_modified, deps_modified, readme_modified. intros H.
  apply orb_false_iff in H. destruct H as [Hd Hr].
  apply negb_false_iff in Hd. apply negb_false_iff in Hr.
  split; [apply deps_eqb_eq; exact Hd | apply String.eqb_eq; exact Hr].
Qed.

(** X10.  Abort run from a branch other than the roll branch, with the
    roll branch present and no change in the tracked files: the roll
    branch is checked out, the review tool is asked to close the issue and
    its exit status is ignored, the branch Abort started from is checked
    out again, and the roll branch is deleted.  Abort returns 0 and the
    checkout is on its previous branch, at the same tip, with the same
    files. *)
Theorem abort_restores_previous_branch :
  forall (self : AutoRoller) (w : World) (t : Rev),
    wf_repo (repo w) ->
    cur_name (repo w) <> ROLL_BRANCH_NAME ->
    lookup ROLL_BRANCH_NAME (others (repo w)) = Some t ->
    tracked_modified (repo w) = false ->
    exists w',
      Abort self w = (Ret 0%Z, w') /\
      cur_name (repo w') = cur_name (repo w) /\
      cur_rev (repo w') = cur_rev (repo w) /\
      work_deps (repo w') = work_deps (repo w) /\
      work_readme (repo w') = work_readme (repo w) /\
      has_branch ROLL_BRANCH_NAME (repo w') = false /\
      log w'
      = List.app (log w)
          [(cmd self ["git"; "branch"], 0%Z);
           (cmd self ["git"; "checkout"; ROLL_BRANCH_NAME], 0%Z);
           (cmd self ["git"; "cl"; "set_close"],
            fst (reply (outside w) (cmd self ["git"; "cl"; "set_close"])));
           (cmd self ["git"; "checkout"; cur_name (repo w)], 0%Z);
           (cmd self ["git"; "branch"; "-D"; ROLL_BRANCH_NAME], 0%Z)].
Proof.
  intros self w t Hwf Hcur Hl Ht.
  assert (Hne : (cur_name (repo w) =? ROLL_BRANCH_NAME) = false)
    by (apply String.eqb_neq; exact Hcur).
  assert (Hne' : (ROLL_BRANCH_NAME =? cur_name (repo w)) = false)
    by (rewrite String.eqb_sym; exact Hne).
  destruct (clean_tracked _ Ht) as [Hwd Hwr].
  unfold Abort.
  erewrite bind_ret by (apply GetBranches_run; exact Hwf).
  cbv beta iota. rewrite Hne.
  change (mem ROLL_BRANCH_NAME (cur_name (repo w) :: names (others (repo w))))
    with (has_branch ROLL_BRANCH_NAME (repo w)).
  unfold has_branch at 1. rewrite (lookup_mem _ _ Hl), orb_true_r.
  rewrite !bind_bind.
  erewrite bind_ret
    by (apply (@run_checkout_ok self ROLL_BRANCH_NAME _ t);
        [exact Hne' | exact Hl | exact Ht]).
  rewrite ?bind_bind.
  erewrite bind_ret
    by (apply (run_outside_ignored self None []); apply cl_set_close_outside).
  rewrite ?bind_bind.
  erewrite bind_ret.
  2:{ apply (@run_checkout_ok self (cur_name (repo w)) _ (cur_rev (repo w))).
      - unfold logged. cbn [repo cur_name]. exact Hne.
      - unfold logged. cbn [repo others]. apply lookup_head.
      - unfold logged, tracked_modified, deps_modified, readme_modified.
        cbn [repo cur_rev work_deps work_readme].
        rewrite deps_eqb_refl, String.eqb_refl. reflexivity. }
  rewrite ?bind_bind.
  erewrite bind_ret.
  2:{ apply run_branch_delete_ok.
      - unfold logged. cbn [repo cur_name]. exact Hne'.
      - unfold logged. cbn [repo others]. rewrite mem_names_cons.
        rewrite String.eqb_refl. reflexivity. }
  unfold ret, bind, logged, set_others.
  cbn [repo outside log cur_name cur_rev others work_deps work_readme
       untracked staged].
  eexists. split; [reflexivity|].
  cbn [repo cur_name cur_rev log outside work_deps work_readme others].
  unfold has_branch. cbn [cur_name others].
  rewrite remove_head, mem_remove, Hne', <- Hwd, <- Hwr.
  repeat split.
  rewrite <- !app_assoc. reflexivity.
Qed.

Lemma abort_restores_previous_branch_witness :
  exists w',
    Abort sample_roller stale_world = (Ret 0%Z, w') /\
    cur_name (repo w') = "master" /\
    has_branch ROLL_BRANCH_NAME (repo w') = false.
Proof.
  destruct (@abort_restores_previous_branch sample_roller stale_world
              (mkRev sample_deps sample_readme ["stale"; "base"]))
    as (w' & H1 & H2 & _ & _ & _ & H3 & _).
  - apply stale_world_wf.
  - discriminate.
  - reflexivity.
  - reflexivity.
  - exists w'. auto.
Defined.

(* ================================================================== *)
(** ** The other branches *)

Lemma mem_remove_other (b n : string) (bs : list (string * Rev)) :
  (b =? n) = false -> mem b (names (remove n bs)) = mem b (names bs).
Proof.
  intros H. unfold mem, names, remove.
  induction bs as [|[m t] bs IH]; [reflexivity|].
  cbn [filter fst map existsb].
  destruct (String.eqb_spec n m) as [->|Hnm]; cbn [negb].
  - rewrite H. exact IH.
  - cbn [map existsb fst]. rewrite IH. reflexivity.
Qed.

Lemma git_checkout_branches (n b : string) (r : Repo) :
  has_branch b (snd (git_checkout n r)) = has_branch b r.
Proof.
  unfold git_checkout.
  destruct (n =? cur_name r); [reflexivity|].
  destruct (lookup n (others r)) as [t|] eqn:Hl; [|reflexivity].
  destruct ((deps_eqb (rev_deps t) (rev_deps (cur_rev r))
             || negb (deps_modified r))
            && ((rev_readme t =? rev_readme (cur_rev r))
                || negb (readme_modified r))); [|reflexivity].
  unfold has_branch. cbn [snd cur_name others]. rewrite mem_names_cons.
  destruct (String.eqb_spec b n) as [->|Hbn].
  - rewrite (lookup_mem _ _ Hl), orb_true_r. reflexivity.
  - rewrite mem_remove_other by (apply String.eqb_neq; exact Hbn).
    reflexivity.
Qed.

Lemma git_checkout_new_branches (n b : string) (r : Repo) :
  has_branch b r = true -> has_branch b (snd (git_checkout_new n r)) = true.
Proof.
  intros H. unfold git_checkout_new.
  destruct (has_branch n r || negb (valid_name n)); [exact H|].
  unfold has_branch in *. cbn [snd cur_name others]. rewrite mem_names_cons.
  rewrite H. apply orb_true_r.
Qed.

Lemma git_branch_delete_branches (n b : string) (r : Repo) :
  (b =? n) = false ->
  has_branch b (snd (git_branch_delete n r)) = has_branch b r.
Proof.
  intros H. unfold git_branch_delete.
  destruct (n =? cur_name r); [reflexivity|].
  destruct (mem n (names (others r))); [|reflexivity].
  unfold has_branch, set_others. cbn [snd cur_name others].
  rewrite mem_remove_other by exact H. reflexivity.
Qed.

Lemma exec_spares (c : Command) (w : World) (b : string) :
  deletes_other (argv c) = false ->
  b <> ROLL_BRANCH_NAME ->
  has_branch b (repo w) = true ->
  has_branch b (snd (exec c w)) = true.
Proof.
  intros Hd Hb H. unfold exec.
  assert (Hr : has_branch b (snd (let '(code, out) := reply (outside w) c in
                                  (code, out, repo w))) = true)
    by (destruct (reply (outside w) c); exact H).
  assert (Hpull : has_branch b (snd (git_pull (outside w) c (repo w))) = true).
  { unfold git_pull. destruct (reply (outside w) c) as [code out].
    destruct (negb (code =? 0)%Z); [exact H|].
    destruct (tracked_modified (repo w)); exact H. }
  assert (Hroll : forall p v,
             has_branch b (snd (roll_dep (outside w) c p v (repo w))) = true).
  { intros p v. unfold roll_dep. destruct (reply (outside w) c) as [code out].
    destruct (negb (code =? 0)%Z); [exact H|].
    destruct (deps_get ("src/" ++ p) (work_deps (repo w))); exact H. }
  assert (Hco : forall n, has_branch b (snd (git_checkout n (repo w))) = true)
    by (intros n; rewrite git_checkout_branches; exact H).
  assert (Hnew : forall n,
             has_branch b (snd (git_checkout_new n (repo w))) = true)
    by (intros n; apply git_checkout_new_branches; exact H).
  assert (Hcommit : forall m,
             has_branch b (snd (git_commit_msg m (repo w))) = true).
  { intros m. unfold git_commit_msg.
    destruct (staged (repo w) && tracked_modified (repo w)); exact H. }
  repeat match goal with
         | |- context [if list_eqb ?a ?b then _ else _] =>
             destruct (list_eqb a b)
         end; try exact H; try assumption.
  destruct (argv c) as [|a0 [|a1 [|a2 [|a3 [|a4 l]]]]]; try assumption.
  - destruct (list_eqb [a0; a1] ["git"; "checkout"]); [apply Hco|].
    destruct (a0 =? "roll-dep"); [apply Hroll | assumption].
  - unfold deletes_other in Hd.
    destruct (list_eqb [a0; a1; a2] ["git"; "branch"; "-D"]).
    + cbn [andb] in Hd. apply negb_false_iff in Hd.
      apply String.eqb_eq in Hd. subst a3.
      rewrite git_branch_delete_branches
        by (apply String.eqb_neq; exact Hb).
      exact H.
    + destruct (list_eqb [a0; a1; a2] ["git"; "checkout"; "-b"]);
        [apply Hnew|].
      destruct (list_eqb [a0; a1; a2] ["git"; "commit"; "-m"]);
        [apply Hcommit | assumption].
Qed.

Lemma run_spares (self : AutoRoller) (a : list string)
      (wd : option string) (ign : bool) (env : list (string * string)) :
  deletes_other a = false ->
  spares_branches (_RunCommand self a wd ign env).
Proof.
  intros Ha w b Hb H. rewrite run_command_unfold. cbv zeta.
  pose proof (@exec_spares (mkCommand a (run_dir self wd) env) w b Ha Hb H)
    as Hx.
  destruct (exec _ w) as [[code out] r]. cbn [snd] in Hx.
  destruct (negb ign && negb (code =? 0)%Z); exact Hx.
Qed.

Lemma spares_ret {A} (a : A) : spares_branches (ret a).
Proof. intros w b _ H. exact H. Qed.

Lemma spares_lift {A} (o : Outcome A) : spares_branches (lift o).
Proof. intros w b _ H. exact H. Qed.

Lemma spares_bind {A B} (m : M A) (k : A -> M B) :
  spares_branches m -> (forall a, spares_branches (k a)) ->
  spares_branches (bind m k).
Proof.
  intros Hm Hk w b Hb H. unfold bind.
  pose proof (Hm w b Hb H) as H1.
  destruct (m w) as [[a|c|e] w1]; cbn [snd] in *.
  - apply Hk; assumption.
  - exact H1.
  - exact H1.
Qed.

Ltac spares_tac :=
  repeat first
    [ apply spares_ret
    | apply spares_lift
    | apply run_spares; reflexivity
    | apply spares_bind; [| intros ?] ].

Lemma GetCommitInfo_spares (self : AutoRoller) (path : string)
      (h u : option string) :
  spares_branches (_GetCommitInfo self path h u).
Proof. unfold _GetCommitInfo. spares_tac. Qed.

Lemma GetDepsCommitInfo_spares (self : AutoRoller) (d : Deps) (path : string) :
  spares_branches (_GetDepsCommitInfo self d path).
Proof.
  unfold _GetDepsCommitInfo. destruct (deps_get ("src/" ++ path) d).
  - apply GetCommitInfo_spares.
  - apply spares_lift.
Qed.

Lemma IsTreeClean_spares (self : AutoRoller) :
  spares_branches (_IsTreeClean self).
Proof.
  unfold _IsTreeClean. apply spares_bind; [spares_tac | intros out].
  destruct (List.length (splitlines out) =? 0)%nat; apply spares_ret.
Qed.

Lemma GetCLInfo_spares (self : AutoRoller) : spares_branches (_GetCLInfo self).
Proof.
  unfold _GetCLInfo. apply spares_bind; [spares_tac | intros out].
  destruct (re_match CL_ISSUE_RE (strip out)) as [m|]; [|apply spares_lift].
  destruct (re_match RIETVELD_URL_RE (group m 2)); spares_tac.
Qed.

Lemma UpdateReadmeFile_spares (p v : string) :
  spares_branches (_UpdateReadmeFile p v).
Proof.
  unfold _UpdateReadmeFile. destruct (p =? LIBJINGLE_README).
  - intros w b _ H. exact H.
  - apply spares_lift.
Qed.

Lemma DeleteRollBranch_spares (self : AutoRoller) :
  spares_branches (_DeleteRollBranch self).
Proof. unfold _DeleteRollBranch. spares_tac. Qed.

Lemma PrepareRoll_roll_spares (self : AutoRoller) :
  spares_branches (PrepareRoll_roll self).
Proof.
  unfold PrepareRoll_roll.
  apply spares_bind.
  { unfold PrepareRoll_branch.
    apply spares_bind; [spares_tac | intros ?].
    apply spares_bind; [|intros ?; spares_tac].
    destruct (negb (_ignore_checks self)); spares_tac. }
  intros _. apply spares_bind.
  { unfold PrepareRoll_resolve.
    apply spares_bind; [intros w b _ H; exact H | intros deps].
    apply spares_bind; [apply GetDepsCommitInfo_spares | intros ?].
    apply spares_bind; [apply GetDepsCommitInfo_spares | intros ?].
    apply spares_bind; [apply GetCommitInfo_spares | intros ?].
    apply spares_bind; [apply GetCommitInfo_spares | intros ?].
    apply spares_ret. }
  intros [[[wc lc] wl] ll].
  apply spares_bind; [unfold PrepareRoll_bump; spares_tac | intros ?].
  unfold PrepareRoll_finish.
  apply spares_bind; [apply IsTreeClean_spares | intros clean].
  apply spares_bind; [|intros ?; apply spares_ret].
  destruct clean; [apply DeleteRollBranch_spares|].
  apply spares_bind; [apply UpdateReadmeFile_spares | intros ?].
  apply spares_bind; [spares_tac | intros ?].
  apply spares_bind; [spares_tac | intros ?].
  apply spares_bind; [spares_tac | intros ?].
  apply spares_bind; [apply GetCLInfo_spares | intros ?].
  destruct (negb (_dry_run self) && negb (_no_commit self)).
  - apply spares_bind; [spares_tac | intros ?]. apply DeleteRollBranch_spares.
  - apply spares_ret.
Qed.

Lemma PrepareRoll_spares (self : AutoRoller) :
  spares_branches (PrepareRoll self).
Proof.
  unfold PrepareRoll.
  destruct (negb (_ignore_checks self)); [|apply PrepareRoll_roll_spares].
  apply spares_bind.
  { unfold _GetCurrentBranchName. apply spares_bind; [spares_tac | intros out].
    destruct (splitlines out); spares_tac. }
  intros br. destruct (negb (br =? "master")); [apply spares_ret|].
  apply spares_bind; [apply IsTreeClean_spares | intros c].
  destruct (negb c); [apply spares_ret | apply PrepareRoll_roll_spares].
Qed.

Lemma Abort_spares (self : AutoRoller) : spares_branches (Abort self).
Proof.
  unfold Abort. apply spares_bind.
  { unfold _GetBranches. spares_tac. }
  intros [active branches].
  apply spares_bind; [|intros ?; apply spares_ret].
  destruct (mem ROLL_BRANCH_NAME branches); spares_tac.
Qed.

Lemma main_spares (platform : string) (args : Args) :
  spares_branches (main platform args).
Proof.
  unfold main. destruct (mem platform ["win32"; "cygwin"]); [apply spares_ret|].
  assert (Hrun : forall d,
             spares_branches
               (if abort args
                then Abort (mkAutoRoller d (dry_run args) (ignore_checks args)
                                         (no_commit args))
                else PrepareRoll (mkAutoRoller d (dry_run args)
                                               (ignore_checks args)
                                               (no_commit args)))).
  { intros d. destruct (abort args);
      [apply Abort_spares | apply PrepareRoll_spares]. }
  assert (Hcwd : spares_branches
                   (fun w =>
                      (ok <- _IsChromiumCheckout (getcwd (outside w)) ;;
                       if ok
                       then (if abort args
                             then Abort (mkAutoRoller (getcwd (outside w))
                                           (dry_run args) (ignore_checks args)
                                           (no_commit args))
                             else PrepareRoll
                                    (mkAutoRoller (getcwd (outside w))
                                       (dry_run args) (ignore_checks args)
                                       (no_commit args)))
                       else ret (-2)%Z) w)).
  { intros w b Hb H. cbv beta.
    unfold bind at 1, _IsChromiumCheckout at 1. cbv beta iota.
    destruct (is_file (outside w) (path_join (getcwd (outside w)) "DEPS")
              && is_dir (outside w) (path_join (getcwd (outside w)) "chrome")).
    - apply Hrun; assumption.
    - exact H. }
  destruct (chromium_checkout args) as [d|]; [|exact Hcwd].
  destruct (truthy d); [|exact Hcwd].
  apply spares_bind; [intros w b _ H; exact H | intros ok].
  destruct (negb ok); [apply spares_ret | apply Hrun].
Qed.

(** X11.  No run of the script, of a roll or of an abort and however it
    ends, removes a local branch other than the roll branch: a branch of
    another name that exists before [main] is there after it. *)
Theorem other_branches_survive :
  forall (platform : string) (args : Args) (w : World) (b : string),
    b <> ROLL_BRANCH_NAME ->
    has_branch b (repo w) = true ->
    has_branch b (repo (snd (main platform args w))) = true.
Proof.
  intros platform args w b Hb H. apply main_spares; assumption.
Qed.

Lemma other_branches_survive_witness :
  has_branch "master" (repo (snd (main "linux2" abort_args stale_world)))
  = true.
Proof.
  apply (@other_branches_survive "linux2" abort_args stale_world "master").
  - discriminate.
  - reflexivity.
Defined.

(* ================================================================== *)
(** ** The directory [main] works in *)

(** X12.  Without a checkout on the command line, or with an empty one,
    [main] works in the current directory: it returns what it returns when
    the current directory is named on the command line. *)
Theorem main_defaults_to_current_directory :
  forall (platform : string) (args : Args) (w : World),
    chromium_checkout args = None \/ chromium_checkout args = Some "" ->
    main platform args w
    = main platform
           (mkArgs (Some (getcwd (outside w))) (abort args) (no_commit args)
                   (dry_run args) (ignore_checks args) (verbose args)) w.
Proof.
  intros platform args w H. unfold main.
  destruct (mem platform ["win32"; "cygwin"]); [reflexivity|].
  cbn [chromium_checkout abort no_commit dry_run ignore_checks].
  assert (E : match chromium_checkout args with
              | Some d => truthy d
              | None => false
              end = false)
    by (destruct H as [-> | ->]; reflexivity).
  destruct (truthy (getcwd (outside w))) eqn:Hc.
  - destruct H as [-> | ->]; cbn [truthy String.eqb negb];
      unfold bind, _IsChromiumCheckout;
      destruct (is_file (outside w) (path_join (getcwd (outside w)) "DEPS")
                && is_dir (outside w) (path_join (getcwd (outside w)) "chrome"));
      reflexivity.
  - destruct H as [-> | ->]; reflexivity.
Qed.

Lemma main_defaults_to_current_directory_witness :
  main "linux2" abort_args stale_world
  = main "linux2" (mkArgs (Some (getcwd (outside stale_world))) true false
                          false false false) stale_world.
Proof.
  apply (@main_defaults_to_current_directory "linux2" abort_args stale_world).
  left. reflexivity.
Defined.

(* ================================================================== *)
(** ** Reading the branch listing *)

Lemma branches_scan_entries (es : list (bool * string)) :
  (forall e, In e es -> valid_name (snd e) = true) ->
  forall (active : string) (acc : list string),
    branches_scan (List.app (map listing_line es) [""]) active acc
    = (last_active active es, List.app acc (map snd es)).
Proof.
  induction es as [|[star n] es IH]; intros H active acc.
  - cbn. now rewrite app_nil_r.
  - assert (Hn : valid_name n = true) by (apply (H (star, n)); left; reflexivity).
    pose proof (valid_name_plain n Hn) as Hp.
    assert (Hes : forall e, In e es -> valid_name (snd e) = true)
      by (intros e He; apply H; right; exact He).
    assert (Hstrip : forall c, is_space c = true -> strip (String c n) = n).
    { intros c Hc. unfold strip. cbn [lstrip]. rewrite Hc.
      rewrite (plain_lstrip n Hp). apply plain_rstrip, Hp. }
    cbn [map List.app branches_scan last_active snd]. unfold listing_line.
    cbn [fst snd]. destruct star.
    + replace (contains "*" ("* " ++ n)) with true by reflexivity.
      change ("* " ++ n) with (String "*" (String " " n)).
      rewrite slice_tail, (Hstrip " "%char eq_refl).
      rewrite (IH Hes), <- app_assoc. reflexivity.
    + replace (contains "*" ("  " ++ n)) with false
        by (cbn; now rewrite (plain_no_star n Hp)).
      replace (strip ("  " ++ n)) with n.
      2:{ change ("  " ++ n) with (String " " (String " " n)).
          unfold strip. cbn [lstrip].
          change (is_space " ") with true. cbv iota.
          rewrite (plain_lstrip n Hp). symmetry. apply plain_rstrip, Hp. }
      rewrite (valid_name_truthy n Hn), (IH Hes), <- app_assoc. reflexivity.
Qed.

(** X13.  From a branch listing, one line per branch with the active one
    starred and the others indented, the scan of [_GetBranches] recovers
    the names of all branches in the order of the listing, the active one
    included, and the name of the starred branch; it gives the empty name
    when no line is starred.  The names are valid branch names: not empty,
    without white space or star. *)
Theorem branch_listing_is_recovered :
  forall es : list (bool * string),
    (forall e, In e es -> valid_name (snd e) = true) ->
    branches_scan (split_on LF (lines_out (map listing_line es))) "" []
    = (last_active "" es, map snd es).
Proof.
  intros es H. rewrite split_on_lines_out.
  - apply (branches_scan_entries es H "" []).
  - intros l Hl. apply in_map_iff in Hl. destruct Hl as ([star n] & <- & He).
    pose proof (plain_no_lf _ (valid_name_plain _ (H _ He))) as Hn.
    cbn [snd] in Hn. unfold listing_line. cbn [fst snd].
    destruct star; cbn; rewrite Hn; reflexivity.
Qed.

Lemma branch_listing_is_recovered_witness :
  branches_scan
    (split_on LF
       (lines_out
          (map listing_line
               [(false, "feature"); (true, "master");
                (false, ROLL_BRANCH_NAME)]))) "" []
  = ("master", ["feature"; "master"; ROLL_BRANCH_NAME]).
Proof.
  apply (@branch_listing_is_recovered
           [(false, "feature"); (true, "master"); (false, ROLL_BRANCH_NAME)]).
  intros e [<-|[<-|[<-|[]]]]; reflexivity.
Defined.

(* ================================================================== *)
(** ** Queries *)

Lemma reads_ret {A} (a : A) : reads_only (ret a).
Proof. intros w. reflexivity. Qed.

Lemma reads_lift {A} (o : Outcome A) : reads_only (lift o).
Proof. intros w. reflexivity. Qed.

Lemma reads_bind {A B} (m : M A) (k : A -> M B) :
  reads_only m -> (forall a, reads_only (k a)) -> reads_only (bind m k).
Proof.
  intros Hm Hk w. unfold bind. pose proof (Hm w) as H1.
  destruct (m w) as [[a|c|e] w1]; cbn [snd] in *.
  - rewrite Hk. exact H1.
  - exact H1.
  - exact H1.
Qed.

Lemma reads_run (self : AutoRoller) (a : list string) (wd : option string)
      (ign : bool) (env : list (string * string)) :
  (forall c w, argv c = a -> snd (exec c w) = repo w) ->
  reads_only (_RunCommand self a wd ign env).
Proof.
  intros Ha w. rewrite run_command_unfold. cbv zeta.
  pose proof (Ha (mkCommand a (run_dir self wd) env) w eq_refl) as Hx.
  destruct (exec _ w) as [[code out] r]. cbn [snd] in Hx.
  destruct (negb ign && negb (code =? 0)%Z); exact Hx.
Qed.

Lemma reads_outside (a : list string) :
  answers_outside a -> forall c w, argv c = a -> snd (exec c w) = repo w.
Proof.
  intros Ha [a' d e] w E. cbn [argv] in E. subst a'. rewrite Ha. reflexivity.
Qed.

Lemma GetCommitInfo_reads (self : AutoRoller) (path : string)
      (h u : option string) :
  reads_only (_GetCommitInfo self path h u).
Proof.
  unfold _GetCommitInfo.
  apply reads_bind;
    [apply reads_run, reads_outside, fetch_outside | intros ?].
  apply reads_bind;
    [apply reads_run, reads_outside, log_outside | intros ?].
  apply reads_bind; [apply reads_lift | intros ?].
  apply reads_bind; [apply reads_lift | intros ?].
  apply reads_ret.
Qed.

Lemma GetCurrentBranchName_reads (self : AutoRoller) :
  reads_only (_GetCurrentBranchName self).
Proof.
  unfold _GetCurrentBranchName.
  apply reads_bind; [apply reads_run; intros [a d e] w E | intros out].
  - cbn [argv] in E. subst a. reflexivity.
  - destruct (splitlines out); [apply reads_lift | apply reads_ret].
Qed.

Lemma IsTreeClean_reads (self : AutoRoller) : reads_only (_IsTreeClean self).
Proof.
  unfold _IsTreeClean.
  apply reads_bind; [apply reads_run; intros [a d e] w E | intros out].
  - cbn [argv] in E. subst a. reflexivity.
  - destruct (List.length (splitlines out) =? 0)%nat; apply reads_ret.
Qed.

Lemma GetBranches_reads (self : AutoRoller) : reads_only (_GetBranches self).
Proof.
  unfold _GetBranches.
  apply reads_bind; [apply reads_run; intros [a d e] w E | intros out].
  - cbn [argv] in E. subst a. reflexivity.
  - apply reads_ret.
Qed.

Lemma GetCLInfo_reads (self : AutoRoller) : reads_only (_GetCLInfo self).
Proof.
  unfold _GetCLInfo.
  apply reads_bind;
    [apply reads_run, reads_outside, cl_issue_outside | intros out].
  destruct (re_match CL_ISSUE_RE (strip out)) as [m|]; [|apply reads_lift].
  destruct (re_match RIETVELD_URL_RE (group m 2));
    [apply reads_ret | apply reads_lift].
Qed.

Lemma GetDepsCommitInfo_reads (self : AutoRoller) (deps : Deps)
      (path : string) :
  reads_only (_GetDepsCommitInfo self deps path).
Proof.
  unfold _GetDepsCommitInfo.
  destruct (deps_get ("src/" ++ path) deps);
    [apply GetCommitInfo_reads | apply reads_lift].
Qed.

(** X14.  The queries of the script leave the checkout as it is, whatever
    the tools answer and however the query ends: asking for the current
    branch, for the state of the tree, for the branches, for the issue of
    the review, and for the commit of a dependency or of a pin changes
    neither a branch nor a file. *)
Theorem queries_leave_the_checkout :
  forall (self : AutoRoller) (w : World),
    repo (snd (_GetCurrentBranchName self w)) = repo w /\
    repo (snd (_IsTreeClean self w)) = repo w /\
    repo (snd (_GetBranches self w)) = repo w /\
    repo (snd (_GetCLInfo self w)) = repo w /\
    (forall path h u, repo (snd (_GetCommitInfo self path h u w)) = repo w) /\
    (forall deps path,
        repo (snd (_GetDepsCommitInfo self deps path w)) = repo w).
Proof.
  intros self w.
  split; [apply GetCurrentBranchName_reads|].
  split; [apply IsTreeClean_reads|].
  split; [apply GetBranches_reads|].
  split; [apply GetCLInfo_reads|].
  split; [intros path h u; apply GetCommitInfo_reads|].
  intros deps path. apply GetDepsCommitInfo_reads.
Qed.

(* ================================================================== *)
(** ** Rolls that do not start *)

(** X15.  With the checks switched off and the roll branch checked out,
    PrepareRoll cannot start: the deletion of the stale branch is refused
    because it is the current branch, the refusal is ignored, the
    creation of the roll branch then fails, and the process ends with
    status 128 of that command.  The checkout is as it was. *)
Theorem unchecked_roll_from_roll_branch_fails :
  forall (self : AutoRoller) (w : World),
    _ignore_checks self = true ->
    cur_name (repo w) = ROLL_BRANCH_NAME ->
    PrepareRoll self w
    = (SysExit 128%Z,
       mkWorld (repo w) (outside w)
               (List.app (log w)
                  [(cmd self ["git"; "branch"; "-D"; ROLL_BRANCH_NAME], 1%Z);
                   (cmd self ["git"; "checkout"; "-b"; ROLL_BRANCH_NAME],
                    128%Z)])).
Proof.
  intros self w Hi Hc. unfold PrepareRoll. rewrite Hi. cbn [negb].
  unfold PrepareRoll_roll, PrepareRoll_branch. rewrite Hi. cbn [negb].
  rewrite !bind_bind.
  erewrite bind_ret.
  2:{ rewrite run_command_unfold. cbv zeta. rewrite exec_branch_delete.
      unfold git_branch_delete. rewrite Hc, String.eqb_refl. reflexivity. }
  rewrite ?bind_bind. erewrite bind_ret by reflexivity.
  rewrite ?bind_bind. erewrite bind_exit.
  2:{ rewrite run_command_unfold. cbv zeta. rewrite exec_checkout_new.
      unfold git_checkout_new, has_branch, logged. cbn [repo cur_name].
      rewrite Hc, String.eqb_refl. reflexivity. }
  unfold logged. cbn [repo outside log]. rewrite <- app_assoc. reflexivity.
Qed.

Lemma unchecked_roll_from_roll_branch_fails_witness :
  PrepareRoll unchecked_roller on_roll_world
  = (SysExit 128%Z,
     mkWorld on_roll_repo (sample_outside sample_hash_a sample_hash_b)
             [(cmd unchecked_roller ["git"; "branch"; "-D"; ROLL_BRANCH_NAME],
               1%Z);
              (cmd unchecked_roller
                   ["git"; "checkout"; "-b"; ROLL_BRANCH_NAME], 128%Z)]).
Proof.
  apply (@unchecked_roll_from_roll_branch_fails unchecked_roller on_roll_world).
  - reflexivity.
  - reflexivity.
Defined.

(** X16.  When [git pull] fails, PrepareRoll ends the process with the
    exit status of the pull.  No roll branch is created, but a stale roll
    branch has been deleted by then: the checkout is on master at its
    previous tip, without a roll branch. *)
Theorem failed_pull_leaves_no_roll_branch :
  forall (self : AutoRoller) (w : World) (code : Z) (out : string),
    _ignore_checks self = false ->
    cur_name (repo w) = "master" ->
    tree_clean (repo w) = true ->
    reply (outside w) (cmd self ["git"; "pull"]) = (code, out) ->
    code <> 0%Z ->
    exists w',
      PrepareRoll self w = (SysExit code, w') /\
      cur_name (repo w') = "master" /\
      cur_rev (repo w') = cur_rev (repo w) /\
      has_branch ROLL_BRANCH_NAME (repo w') = false /\
      log w'
      = List.app (log w)
          [(cmd self ["git"; "rev-parse"; "--abbrev-ref"; "HEAD"], 0%Z);
           (cmd self ["git"; "status"; "--porcelain"], 0%Z);
           (cmd self ["git"; "branch"; "-D"; ROLL_BRANCH_NAME],
            if mem ROLL_BRANCH_NAME (names (others (repo w)))
            then 0%Z else 1%Z);
           (cmd self ["git"; "pull"], code)].
Proof.
  intros self w code out Hi Hm Hc Hr Hcode.
  rewrite (checks_stage self w Hm Hc).
  unfold checks_log, PrepareRoll_roll, PrepareRoll_branch.
  rewrite Hi. cbn [negb]. rewrite !bind_bind.
  assert (Hpull : forall r l,
             _RunCommand self ["git"; "pull"] None false []
                         (mkWorld r (outside w) l)
             = (SysExit code,
                mkWorld r (outside w)
                        (List.app l [(cmd self ["git"; "pull"], code)]))).
  { intros r l. rewrite run_command_unfold. cbv zeta. rewrite exec_pull.
    unfold git_pull. cbn [outside repo].
    change (mkCommand ["git"; "pull"] (run_dir self None) [])
      with (cmd self ["git"; "pull"]).
    rewrite Hr. apply Z.eqb_neq in Hcode. rewrite Hcode.
    cbn [negb]. cbv beta iota. rewrite Hcode. reflexivity. }
  destruct (mem ROLL_BRANCH_NAME (names (others (repo w)))) eqn:Hs.
  - erewrite bind_ret.
    2:{ rewrite run_command_unfold. cbv zeta. rewrite exec_branch_delete.
        unfold git_branch_delete, add_log. cbn [repo cur_name others].
        rewrite Hm, Hs.
        change (ROLL_BRANCH_NAME =? "master") with false. reflexivity. }
    unfold logged, add_log, set_others. cbn [repo outside log].
    erewrite bind_exit by (rewrite !bind_bind; erewrite bind_exit;
                           [reflexivity | apply Hpull]).
    eexists. split; [reflexivity|].
    cbn [repo cur_name cur_rev log]. unfold has_branch. cbn [cur_name others].
    rewrite mem_remove, Hm.
    split; [reflexivity|]. split; [reflexivity|]. split; [reflexivity|].
    rewrite <- !app_assoc. reflexivity.
  - erewrite bind_ret.
    2:{ rewrite run_command_unfold. cbv zeta. rewrite exec_branch_delete.
        unfold git_branch_delete, add_log. cbn [repo cur_name others].
        rewrite Hm, Hs.
        change (ROLL_BRANCH_NAME =? "master") with false. reflexivity. }
    unfold logged, add_log. cbn [repo outside log].
    erewrite bind_exit by (rewrite !bind_bind; erewrite bind_exit;
                           [reflexivity | apply Hpull]).
    eexists. split; [reflexivity|].
    cbn [repo cur_name cur_rev log]. unfold has_branch. rewrite Hs, Hm.
    split; [reflexivity|]. split; [reflexivity|]. split; [reflexivity|].
    rewrite <- !app_assoc. reflexivity.
Qed.

Lemma failed_pull_leaves_no_roll_branch_witness :
  exists w',
    PrepareRoll sample_roller offline_world = (SysExit 1%Z, w') /\
    cur_name (repo w') = "master" /\
    has_branch ROLL_BRANCH_NAME (repo w') = false.
Proof.
  destruct (@failed_pull_leaves_no_roll_branch sample_roller offline_world
              1%Z "")
    as (w' & H1 & H2 & _ & H3 & _).
  - reflexivity.
  - reflexivity.
  - reflexivity.
  - reflexivity.
  - discriminate.
  - exists w'. auto.
Defined.

(** X17.  Abort run on the roll branch itself, with a master branch and
    no change in the tracked files: the review tool is asked to close the
    issue, master is checked out and the roll branch deleted.  Abort
    returns 0 on master at master's tip; the tip of the roll branch is no
    longer reachable from a branch. *)
Theorem abort_on_roll_branch_lands_on_master :
  forall (self : AutoRoller) (w : World) (t : Rev),
    wf_repo (repo w) ->
    cur_name (repo w) = ROLL_BRANCH_NAME ->
    lookup "master" (others (repo w)) = Some t ->
    tracked_modified (repo w) = false ->
    exists w',
      Abort self w = (Ret 0%Z, w') /\
      cur_name (repo w') = "master" /\
      cur_rev (repo w') = t /\
      work_deps (repo w') = rev_deps t /\
      work_readme (repo w') = rev_readme t /\
      has_branch ROLL_BRANCH_NAME (repo w') = false /\
      log w'
      = List.app (log w)
          [(cmd self ["git"; "branch"], 0%Z);
           (cmd self ["git"; "checkout"; ROLL_BRANCH_NAME], 0%Z);
           (cmd self ["git"; "cl"; "set_close"],
            fst (reply (outside w) (cmd self ["git"; "cl"; "set_close"])));
           (cmd self ["git"; "checkout"; "master"], 0%Z);
           (cmd self ["git"; "branch"; "-D"; ROLL_BRANCH_NAME], 0%Z)].
Proof.
  intros self w t Hwf Hcur Hl Ht.
  unfold Abort.
  erewrite bind_ret by (apply GetBranches_run; exact Hwf).
  cbv beta iota. rewrite Hcur, String.eqb_refl.
  change (mem ROLL_BRANCH_NAME (ROLL_BRANCH_NAME :: names (others (repo w))))
    with true.
  cbv iota. rewrite !bind_bind.
  erewrite bind_ret.
  2:{ rewrite <- Hcur at 1.
      change (cur_name (repo w))
        with (cur_name (repo (logged (cmd self ["git"; "branch"]) 0
                                     (repo w) w))) at 1.
      apply run_checkout_same. }
  rewrite ?bind_bind.
  erewrite bind_ret
    by (apply (run_outside_ignored self None []); apply cl_set_close_outside).
  rewrite ?bind_bind.
  unfold logged. cbn [repo outside log].
  erewrite bind_ret.
  2:{ apply (@run_checkout_ok self "master" _ t).
      - cbn [repo]. rewrite Hcur. reflexivity.
      - exact Hl.
      - exact Ht. }
  rewrite ?bind_bind.
  erewrite bind_ret.
  2:{ apply run_branch_delete_ok.
      - reflexivity.
      - unfold logged. cbn [repo others]. rewrite Hcur, mem_names_cons.
        rewrite String.eqb_refl. reflexivity. }
  unfold ret, bind, logged, set_others.
  cbn [repo outside log cur_name cur_rev others work_deps work_readme
       untracked staged].
  eexists. split; [reflexivity|].
  cbn [repo cur_name cur_rev log outside work_deps work_readme others].
  unfold has_branch. cbn [cur_name others].
  rewrite Hcur, remove_head, mem_remove.
  split; [reflexivity|]. split; [reflexivity|]. split; [reflexivity|].
  split; [reflexivity|]. split; [reflexivity|].
  rewrite <- !app_assoc. reflexivity.
Qed.

Lemma abort_on_roll_branch_lands_on_master_witness :
  exists w',
    Abort sample_roller on_roll_world = (Ret 0%Z, w') /\
    cur_name (repo w') = "master" /\
    has_branch ROLL_BRANCH_NAME (repo w') = false.
Proof.
  destruct (@abort_on_roll_branch_lands_on_master sample_roller on_roll_world
              sample_rev)
    as (w' & H1 & H2 & _ & _ & _ & H3 & _).
  - split; reflexivity.
  - reflexivity.
  - reflexivity.
  - reflexivity.
  - exists w'. auto.
Defined.

(* ================================================================== *)
(** ** The exit status *)

Lemma enz_ret {A} (a : A) : exits_nonzero (ret a).
Proof. intros w c H. discriminate H. Qed.

Lemma enz_lift {A} (o : Outcome A) :
  o <> SysExit 0%Z -> exits_nonzero (lift o).
Proof. intros Ho w c H. cbn in H. intros ->. apply Ho. exact H. Qed.

Lemma enz_bind {A B} (m : M A) (k : A -> M B) :
  exits_nonzero m -> (forall a, exits_nonzero (k a)) ->
  exits_nonzero (bind m k).
Proof.
  intros Hm Hk w c. unfold bind. pose proof (Hm w) as H1.
  destruct (m w) as [[a|c1|e] w1]; cbn [fst] in *.
  - apply Hk.
  - intros E. apply H1. congruence.
  - discriminate.
Qed.

Lemma enz_run (self : AutoRoller) (a : list string) (wd : option string)
      (ign : bool) (env : list (string * string)) :
  exits_nonzero (_RunCommand self a wd ign env).
Proof.
  intros w c. rewrite run_command_unfold. cbv zeta.
  destruct (exec _ w) as [[code out] r].
  destruct (Z.eqb_spec code 0) as [->|Hne].
  - rewrite andb_false_r. discriminate.
  - destruct (negb ign && negb false); cbn [fst];
      [intros E; congruence | discriminate].
Qed.

Lemma git_commit_scan_no_zero (lines : list string) :
  git_commit_scan lines <> SysExit 0%Z.
Proof.
  induction lines as [|l ls IH]; cbn [git_commit_scan]; [discriminate|].
  destruct (startswith "commit " l); [|exact IH].
  destruct (split_ws l) as [|x [|y t]]; discriminate.
Qed.

Lemma svn_revision_scan_no_zero (lines : list string) :
  svn_revision_scan lines <> SysExit 0%Z.
Proof.
  induction lines as [|l ls IH]; cbn [svn_revision_scan]; [discriminate|].
  destruct (re_match GIT_SVN_ID_RE (strip l)); [discriminate | exact IH].
Qed.

Ltac enz_tac :=
  repeat first
    [ apply enz_ret
    | apply enz_run
    | apply enz_lift; discriminate
    | apply enz_bind; [| intros ?] ].

Lemma GetCommitInfo_enz (self : AutoRoller) (path : string)
      (h u : option string) :
  exits_nonzero (_GetCommitInfo self path h u).
Proof.
  unfold _GetCommitInfo.
  apply enz_bind; [apply enz_run | intros ?].
  apply enz_bind; [apply enz_run | intros out].
  apply enz_bind; [apply enz_lift, svn_revision_scan_no_zero | intros ?].
  apply enz_bind; [apply enz_lift, git_commit_scan_no_zero | intros ?].
  apply enz_ret.
Qed.

Lemma GetDepsCommitInfo_enz (self : AutoRoller) (d : Deps) (path : string) :
  exits_nonzero (_GetDepsCommitInfo self d path).
Proof.
  unfold _GetDepsCommitInfo. destruct (deps_get ("src/" ++ path) d).
  - apply GetCommitInfo_enz.
  - apply enz_lift. discriminate.
Qed.

Lemma IsTreeClean_enz (self : AutoRoller) : exits_nonzero (_IsTreeClean self).
Proof.
  unfold _IsTreeClean. apply enz_bind; [apply enz_run | intros out].
  destruct (List.length (splitlines out) =? 0)%nat; apply enz_ret.
Qed.

Lemma GetCLInfo_enz (self : AutoRoller) : exits_nonzero (_GetCLInfo self).
Proof.
  unfold _GetCLInfo. apply enz_bind; [apply enz_run | intros out].
  destruct (re_match CL_ISSUE_RE (strip out)) as [m|];
    [|apply enz_lift; discriminate].
  destruct (re_match RIETVELD_URL_RE (group m 2)); enz_tac.
Qed.

Lemma UpdateReadmeFile_enz (p v : string) :
  exits_nonzero (_UpdateReadmeFile p v).
Proof.
  unfold _UpdateReadmeFile. destruct (p =? LIBJINGLE_README).
  - intros w c H. discriminate H.
  - apply enz_lift. discriminate.
Qed.

Lemma DeleteRollBranch_enz (self : AutoRoller) :
  exits_nonzero (_DeleteRollBranch self).
Proof. unfold _DeleteRollBranch. enz_tac. Qed.

Lemma PrepareRoll_roll_enz (self : AutoRoller) :
  exits_nonzero (PrepareRoll_roll self).
Proof.
  unfold PrepareRoll_roll.
  apply enz_bind.
  { unfold PrepareRoll_branch.
    apply enz_bind; [apply enz_run | intros ?].
    apply enz_bind; [|intros ?; enz_tac].
    destruct (negb (_ignore_checks self)); enz_tac. }
  intros _. apply enz_bind.
  { unfold PrepareRoll_resolve.
    apply enz_bind; [intros w c H; discriminate H | intros deps].
    apply enz_bind; [apply GetDepsCommitInfo_enz | intros ?].
    apply enz_bind; [apply GetDepsCommitInfo_enz | intros ?].
    apply enz_bind; [apply GetCommitInfo_enz | intros ?].
    apply enz_bind; [apply GetCommitInfo_enz | intros ?].
    apply enz_ret. }
  intros [[[wc lc] wl] ll].
  apply enz_bind; [unfold PrepareRoll_bump; enz_tac | intros ?].
  unfold PrepareRoll_finish.
  apply enz_bind; [apply IsTreeClean_enz | intros clean].
  apply enz_bind; [|intros ?; apply enz_ret].
  destruct clean; [apply DeleteRollBranch_enz|].
  apply enz_bind; [apply UpdateReadmeFile_enz | intros ?].
  apply enz_bind; [apply enz_run | intros ?].
  apply enz_bind; [apply enz_run | intros ?].
  apply enz_bind; [apply enz_run | intros ?].
  apply enz_bind; [apply GetCLInfo_enz | intros ?].
  destruct (negb (_dry_run self) && negb (_no_commit self)).
  - apply enz_bind; [apply enz_run | intros ?]. apply DeleteRollBranch_enz.
  - apply enz_ret.
Qed.

Lemma PrepareRoll_enz (self : AutoRoller) : exits_nonzero (PrepareRoll self).
Proof.
  unfold PrepareRoll.
  destruct (negb (_ignore_checks self)); [|apply PrepareRoll_roll_enz].
  apply enz_bind.
  { unfold _GetCurrentBranchName. apply enz_bind; [apply enz_run | intros out].
    destruct (splitlines out); enz_tac. }
  intros br. destruct (negb (br =? "master")); [apply enz_ret|].
  apply enz_bind; [apply IsTreeClean_enz | intros c].
  destruct (negb c); [apply enz_ret | apply PrepareRoll_roll_enz].
Qed.

Lemma Abort_enz (self : AutoRoller) : exits_nonzero (Abort self).
Proof.
  unfold Abort. apply enz_bind.
  { unfold _GetBranches. enz_tac. }
  intros [active branches].
  apply enz_bind; [|intros ?; apply enz_ret].
  destruct (mem ROLL_BRANCH_NAME branches); enz_tac.
Qed.

Lemma main_enz (platform : string) (args : Args) :
  exits_nonzero (main platform args).
Proof.
  unfold main. destruct (mem platform ["win32"; "cygwin"]); [apply enz_ret|].
  assert (Hrun : forall d,
             exits_nonzero
               (if abort args
                then Abort (mkAutoRoller d (dry_run args) (ignore_checks args)
                                         (no_commit args))
                else PrepareRoll (mkAutoRoller d (dry_run args)
                                               (ignore_checks args)
                                               (no_commit args)))).
  { intros d. destruct (abort args);
      [apply Abort_enz | apply PrepareRoll_enz]. }
  assert (Hcwd : exits_nonzero
                   (fun w =>
                      (ok <- _IsChromiumCheckout (getcwd (outside w)) ;;
                       if ok
                       then (if abort args
                             then Abort (mkAutoRoller (getcwd (outside w))
                                           (dry_run args) (ignore_checks args)
                                           (no_commit args))
                             else PrepareRoll
                                    (mkAutoRoller (getcwd (outside w))
                                       (dry_run args) (ignore_checks args)
                                       (no_commit args)))
                       else ret (-2)%Z) w)).
  { intros w c. cbv beta.
    unfold bind at 1, _IsChromiumCheckout at 1. cbv beta iota.
    destruct (is_file (outside w) (path_join (getcwd (outside w)) "DEPS")
              && is_dir (outside w) (path_join (getcwd (outside w)) "chrome")).
    - apply Hrun.
    - discriminate. }
  destruct (chromium_checkout args) as [d|]; [|exact Hcwd].
  destruct (truthy d); [|exact Hcwd].
  apply enz_bind; [intros w c H; discriminate H | intros ok].
  destruct (negb ok); [apply enz_ret | apply Hrun].
Qed.

(** X18.  The script ends with exit status 0 only when [main] returns 0:
    a command that fails where its status is not ignored, a parse error
    or an uncaught exception never ends the process with status 0. *)
Theorem zero_status_means_main_returned_zero :
  forall (platform : string) (args : Args) (w : World),
    exit_status (fst (main platform args w)) = 0%Z ->
    fst (main platform args w) = Ret 0%Z.
Proof.
  intros platform args w H.
  pose proof (@main_enz platform args w) as Hz.
  destruct (fst (main platform args w)) as [z|c|e]; cbn [exit_status] in H.
  - rewrite H. reflexivity.
  - exfalso. apply (Hz c eq_refl). exact H.
  - discriminate H.
Qed.

Lemma zero_status_means_main_returned_zero_witness :
  fst (main "linux2" abort_args stale_world) = Ret 0%Z.
Proof.
  apply (@zero_status_means_main_returned_zero "linux2" abort_args stale_world).
  vm_compute. reflexivity.
Defined.

(* ================================================================== *)
(** ** What the review information can be *)

Lemma run_cat (ml : bool) (R : Type) (r1 r2 : regex) (prev : option ascii)
      (s : string) (g : groups)
      (cont : option ascii -> string -> groups -> option R) :
  run ml (Cat r1 r2) prev s g cont
  = run ml r1 prev s g (fun p s' g' => run ml r2 p s' g' cont).
Proof. reflexivity. Qed.

Lemma run_opt_inv (ml : bool) (R : Type) (k : cset) (prev : option ascii)
      (s : string) (g : groups)
      (cont : option ascii -> string -> groups -> option R) (r : R) :
  run ml (Opt k) prev s g cont = Some r ->
  (exists c s', s = String c s' /\ in_cset k c = true /\
                cont (Some c) s' g = Some r)
  \/ cont prev s g = Some r.
Proof.
  cbn [run]. destruct s as [|c s']; [auto|].
  destruct (in_cset k c) eqn:E; [|auto].
  destruct (cont (Some c) s' g) as [r0|] eqn:E0; [|auto].
  intros H. injection H as ->. left. exists c, s'. auto.
Qed.

Lemma rietveld_tail_inv (prev : option ascii) (s : string) (m : groups) :
  run false (seq [lit "://"; Grp 1 (Star Any); One (Chr "/");
                  Grp 2 (Star Any)]) prev s [] (fun _ _ g => Some g)
  = Some m ->
  exists host rest, s = "://" ++ host ++ "/" ++ rest /\ group m 1 = host.
Proof.
  cbn [seq fold_right run]. intros H.
  apply run_lit_inv in H. destruct H as (s1 & -> & H).
  apply star_inv in H. destruct H as (host & v & -> & _ & H).
  destruct v as [|c v]; [discriminate H|].
  cbn [in_cset] in H.
  destruct (Ascii.eqb_spec c "/") as [->|]; [|discriminate H].
  apply star_inv in H. destruct H as (u2 & v2 & -> & _ & H).
  injection H as <-.
  exists host, (u2 ++ v2). split; [reflexivity|].
  cbn [group Nat.eqb]. apply consumed_app.
Qed.

Lemma rietveld_match_inv (u : string) (m : groups) :
  re_match RIETVELD_URL_RE u = Some m ->
  exists scheme host rest,
    (scheme = "http://" \/ scheme = "https://") /\
    u = scheme ++ host ++ "/" ++ rest /\ group m 1 = host.
Proof.
  unfold re_match, RIETVELD_URL_RE.
  change (seq [Bol; lit "http"; Opt (Chr "s"); lit "://"; Grp 1 (Star Any);
               One (Chr "/"); Grp 2 (Star Any)])
    with (Cat Bol (Cat (lit "http")
            (Cat (Opt (Chr "s"))
                 (seq [lit "://"; Grp 1 (Star Any); One (Chr "/");
                       Grp 2 (Star Any)])))).
  rewrite run_cat.
  change (run false Bol None u [] ?k) with (k None u []).
  cbv beta. rewrite run_cat. intros H.
  apply run_lit_inv in H. destruct H as (s1 & -> & H).
  rewrite run_cat in H. apply run_opt_inv in H.
  destruct H as [(c & s' & -> & Hc & H)|H].
  - cbn [in_cset] in Hc. apply Ascii.eqb_eq in Hc. subst c.
    apply rietveld_tail_inv in H. destruct H as (host & rest & -> & Hg).
    exists "https://", host, rest. auto.
  - apply rietveld_tail_inv in H. destruct H as (host & rest & -> & Hg).
    exists "http://", host, rest. auto.
Qed.

Lemma cl_issue_match_inv (s : string) (m : groups) :
  re_match CL_ISSUE_RE s = Some m ->
  group m 1 <> "" /\ all_in digit (group m 1) = true.
Proof.
  unfold re_match, CL_ISSUE_RE. cbn [seq fold_right run at_bol]. intros H.
  apply run_lit_inv in H. destruct H as (s1 & -> & H).
  destruct s1 as [|c s1]; [discriminate H|].
  destruct (in_cset digit c) eqn:Hc; [|discriminate H].
  apply star_inv in H. destruct H as (n & v & -> & Hn & H).
  destruct v as [|c1 v]; [discriminate H|].
  destruct (in_cset (Chr " ") c1); [|discriminate H].
  destruct v as [|c2 v]; [discriminate H|].
  destruct (in_cset (Chr "(") c2); [|discriminate H].
  apply star_inv in H. destruct H as (u & v3 & -> & _ & H).
  destruct v3 as [|c3 v3]; [discriminate H|].
  destruct (in_cset (Chr ")") c3); [|discriminate H].
  destruct (at_eol false v3); [|discriminate H].
  injection H as <-.
  cbn [group Nat.eqb].
  change (String c (n ++ String c1 (String c2 (u ++ String c3 v3))))
    with (String c n ++ String c1 (String c2 (u ++ String c3 v3))).
  rewrite consumed_app. cbn [all_in]. rewrite Hc, Hn.
  split; [discriminate | reflexivity].
Qed.

(** X19.  Whatever the review tool prints, the information that
    [_GetCLInfo] returns is well formed: the issue number is the value of
    a non-empty string of decimal digits, and the address starts with
    http:// or https://, followed by the review host, a slash and the
    rest. *)
Theorem cl_info_is_well_formed :
  forall (self : AutoRoller) (w w' : World) (info : CLInfo),
    _GetCLInfo self w = (Ret info, w') ->
    (exists n, n <> "" /\ all_in digit n = true /\ issue info = int n) /\
    (exists scheme rest,
        (scheme = "http://" \/ scheme = "https://") /\
        url info = scheme ++ rietveld_server info ++ "/" ++ rest).
Proof.
  intros self w w' info H. unfold _GetCLInfo in H.
  apply bind_ret_inv in H. destruct H as (out & w1 & _ & H).
  destruct (re_match CL_ISSUE_RE (strip out)) as [m|] eqn:E1;
    [|discriminate H].
  destruct (re_match RIETVELD_URL_RE (group m 2)) as [m'|] eqn:E2;
    [|discriminate H].
  injection H as <- _.
  cbn [issue url rietveld_server].
  apply cl_issue_match_inv in E1. destruct E1 as [Hn Hd].
  apply rietveld_match_inv in E2.
  destruct E2 as (scheme & host & rest & Hs & Hu & Hg).
  split.
  - exists (group m 1). auto.
  - exists scheme, rest. split; [exact Hs|]. rewrite Hg. exact Hu.
Qed.

Lemma cl_info_is_well_formed_witness :
  (exists n, n <> "" /\ all_in digit n = true /\ 123%Z = int n) /\
  (exists scheme rest,
      (scheme = "http://" \/ scheme = "https://") /\
      "https://host/path" = scheme ++ "host" ++ "/" ++ rest).
Proof.
  apply (@cl_info_is_well_formed
           sample_roller (sample_world "" "")
           (logged (cmd sample_roller ["git"; "cl"; "issue"]) 0
                   (repo (sample_world "" "")) (sample_world "" ""))
           (mkCLInfo 123 "https://host/path" "host")).
  reflexivity.
Defined.

(* ================================================================== *)
(** ** Where an uncaught exception leaves the checkout *)

Lemma splitlines_nonempty (c : ascii) (s : string) :
  splitlines (String c s) <> [].
Proof.
  cbn [splitlines]. destruct (Ascii.eqb c LF); [discriminate|].
  destruct (Ascii.eqb c CR).
  - destruct s as [|d s]; [discriminate|].
    destruct (Ascii.eqb d LF); discriminate.
  - destruct (splitlines s); discriminate.
Qed.

Lemma stays_ret {A} (a : A) : stays_on_roll (ret a).
Proof. intros w H. exact H. Qed.

Lemma stays_lift {A} (o : Outcome A) : stays_on_roll (lift o).
Proof. intros w H. exact H. Qed.

Lemma stays_bind {A B} (m : M A) (k : A -> M B) :
  stays_on_roll m -> (forall a, stays_on_roll (k a)) ->
  stays_on_roll (bind m k).
Proof.
  intros Hm Hk w Hr. unfold bind. pose proof (Hm w Hr) as H1.
  destruct (m w) as [[a|c|e] w1]; cbn [snd] in *.
  - apply Hk. exact H1.
  - exact H1.
  - exact H1.
Qed.

Lemma run_stays (self : AutoRoller) (a : list string) (wd : option string)
      (ign : bool) (env : list (string * string)) :
  is_checkout_cmd a = false ->
  stays_on_roll (_RunCommand self a wd ign env).
Proof.
  intros Ha w Hr. unfold on_roll in *. rewrite run_command_unfold. cbv zeta.
  pose proof (@exec_cur_name (mkCommand a (run_dir self wd) env) w Ha) as Hc.
  destruct (exec _ w) as [[code out] r]. cbn [snd] in Hc.
  destruct (negb ign && negb (code =? 0)%Z); cbn [snd logged repo];
    congruence.
Qed.

Lemma nr_ret {A} (a : A) : never_raises (ret a).
Proof. intros w e. discriminate. Qed.

Lemma nr_bind {A B} (m : M A) (k : A -> M B) :
  never_raises m -> (forall a, never_raises (k a)) ->
  never_raises (bind m k).
Proof.
  intros Hm Hk w e. unfold bind. pose proof (Hm w) as H1.
  destruct (m w) as [[a|c|e1] w1]; cbn [fst] in *.
  - apply Hk.
  - discriminate.
  - exfalso. exact (H1 e1 eq_refl).
Qed.

Lemma run_never_raises (self : AutoRoller) (a : list string)
      (wd : option string) (ign : bool) (env : list (string * string)) :
  never_raises (_RunCommand self a wd ign env).
Proof.
  intros w e. rewrite run_command_unfold. cbv zeta.
  destruct (exec _ w) as [[code out] r].
  destruct (negb ign && negb (code =? 0)%Z); discriminate.
Qed.

Ltac stays_tac :=
  repeat first
    [ apply stays_ret
    | apply stays_lift
    | apply run_stays; reflexivity
    | apply stays_bind; [| intros ?] ].

Ltac nr_tac :=
  repeat first
    [ apply nr_ret
    | apply run_never_raises
    | apply nr_bind; [| intros ?] ].

Lemma ror_of_stays {A} (m : M A) : stays_on_roll m -> raised_on_roll m.
Proof. intros H w e Hr _. apply H. exact Hr. Qed.

Lemma ror_of_nr {A} (m : M A) : never_raises m -> raised_on_roll m.
Proof. intros H w e _ E. exfalso. exact (H w e E). Qed.

Lemma ror_bind_stays {A B} (m : M A) (k : A -> M B) :
  stays_on_roll m -> (forall a, raised_on_roll (k a)) ->
  raised_on_roll (bind m k).
Proof.
  intros Hm Hk w e Hr. unfold bind. pose proof (Hm w Hr) as H1.
  destruct (m w) as [[a|c|e1] w1]; cbn [fst snd] in *.
  - apply Hk. exact H1.
  - discriminate.
  - intros _. exact H1.
Qed.

Lemma ror_bind_ret {A B} (m : M A) (f : A -> B) :
  raised_on_roll m -> raised_on_roll (bind m (fun a => ret (f a))).
Proof.
  intros Hm w e Hr. unfold bind. pose proof (Hm w) as H1.
  destruct (m w) as [[a|c|e1] w1]; cbn [fst snd] in *.
  - discriminate.
  - discriminate.
  - intros E. apply (H1 e1 Hr eq_refl).
Qed.

Lemma rlr_ret {A} (a : A) : raised_leaves_roll (ret a).
Proof. intros w e E. discriminate E. Qed.

Lemma rlr_bind_nr {A B} (m : M A) (k : A -> M B) :
  never_raises m -> (forall a, raised_leaves_roll (k a)) ->
  raised_leaves_roll (bind m k).
Proof.
  intros Hm Hk w e. unfold bind. pose proof (Hm w) as H1.
  destruct (m w) as [[a|c|e1] w1]; cbn [fst snd] in *.
  - apply Hk.
  - discriminate.
  - exfalso. exact (H1 e1 eq_refl).
Qed.

Lemma GetCommitInfo_stays (self : AutoRoller) (path : string)
      (h u : option string) :
  stays_on_roll (_GetCommitInfo self path h u).
Proof. unfold _GetCommitInfo. stays_tac. Qed.

Lemma GetDepsCommitInfo_stays (self : AutoRoller) (d : Deps) (path : string) :
  stays_on_roll (_GetDepsCommitInfo self d path).
Proof.
  unfold _GetDepsCommitInfo. destruct (deps_get ("src/" ++ path) d).
  - apply GetCommitInfo_stays.
  - apply stays_lift.
Qed.

Lemma IsTreeClean_stays (self : AutoRoller) : stays_on_roll (_IsTreeClean self).
Proof.
  unfold _IsTreeClean. apply stays_bind; [stays_tac | intros out].
  destruct (List.length (splitlines out) =? 0)%nat; apply stays_ret.
Qed.

Lemma GetCLInfo_stays (self : AutoRoller) : stays_on_roll (_GetCLInfo self).
Proof.
  unfold _GetCLInfo. apply stays_bind; [stays_tac | intros out].
  destruct (re_match CL_ISSUE_RE (strip out)) as [m|]; [|apply stays_lift].
  destruct (re_match RIETVELD_URL_RE (group m 2)); stays_tac.
Qed.

Lemma UpdateReadmeFile_stays (p v : string) :
  stays_on_roll (_UpdateReadmeFile p v).
Proof.
  unfold _UpdateReadmeFile. destruct (p =? LIBJINGLE_README).
  - intros w H. exact H.
  - apply stays_lift.
Qed.

Lemma DeleteRollBranch_never_raises (self : AutoRoller) :
  never_raises (_DeleteRollBranch self).
Proof. unfold _DeleteRollBranch. nr_tac. Qed.

Lemma IsTreeClean_never_raises (self : AutoRoller) :
  never_raises (_IsTreeClean self).
Proof.
  unfold _IsTreeClean. apply nr_bind; [apply run_never_raises | intros out].
  destruct (List.length (splitlines out) =? 0)%nat; apply nr_ret.
Qed.

Lemma GetCurrentBranchName_never_raises (self : AutoRoller) :
  never_raises (_GetCurrentBranchName self).
Proof.
  intros w e. unfold _GetCurrentBranchName, bind.
  rewrite run_command_unfold. cbv zeta. rewrite exec_rev_parse.
  cbn [negb andb Z.eqb].
  destruct (cur_name (repo w)) as [|c s].
  - cbn. discriminate.
  - change (String c s ++ nl) with (String c (s ++ nl)).
    pose proof (splitlines_nonempty c (s ++ nl)) as Hne.
    destruct (splitlines (String c (s ++ nl))); [congruence|]. discriminate.
Qed.

Lemma PrepareRoll_branch_never_raises (self : AutoRoller) :
  never_raises (PrepareRoll_branch self).
Proof.
  unfold PrepareRoll_branch.
  apply nr_bind; [apply run_never_raises | intros ?].
  apply nr_bind; [|intros ?; nr_tac].
  destruct (negb (_ignore_checks self)); nr_tac.
Qed.

Lemma after_branch_raised (self : AutoRoller) :
  raised_on_roll (PrepareRoll_after_branch self).
Proof.
  unfold PrepareRoll_after_branch.
  apply ror_bind_stays.
  { unfold PrepareRoll_resolve.
    apply stays_bind; [intros w H; exact H | intros deps].
    apply stays_bind; [apply GetDepsCommitInfo_stays | intros ?].
    apply stays_bind; [apply GetDepsCommitInfo_stays | intros ?].
    apply stays_bind; [apply GetCommitInfo_stays | intros ?].
    apply stays_bind; [apply GetCommitInfo_stays | intros ?].
    apply stays_ret. }
  intros [[[wc lc] wl] ll].
  apply ror_bind_stays; [unfold PrepareRoll_bump; stays_tac | intros ?].
  unfold PrepareRoll_finish.
  apply ror_bind_stays; [apply IsTreeClean_stays | intros clean].
  apply (ror_bind_ret (fun _ => 0%Z)).
  destruct clean.
  - apply ror_of_nr, DeleteRollBranch_never_raises.
  - apply ror_bind_stays; [apply UpdateReadmeFile_stays | intros ?].
    apply ror_bind_stays; [stays_tac | intros ?].
    apply ror_bind_stays; [stays_tac | intros ?].
    apply ror_bind_stays; [stays_tac | intros ?].
    apply ror_bind_stays; [apply GetCLInfo_stays | intros ?].
    destruct (negb (_dry_run self) && negb (_no_commit self)).
    + apply ror_bind_stays; [stays_tac | intros ?].
      apply ror_of_nr, DeleteRollBranch_never_raises.
    + apply ror_of_stays, stays_ret.
Qed.

Lemma PrepareRoll_roll_split (self : AutoRoller) (w : World) :
  PrepareRoll_roll self w
  = (PrepareRoll_branch self ;;; PrepareRoll_after_branch self) w.
Proof. reflexivity. Qed.

Lemma roll_raised (self : AutoRoller) :
  raised_leaves_roll (PrepareRoll_roll self).
Proof.
  intros w e. rewrite PrepareRoll_roll_split.
  pose proof (@PrepareRoll_branch_never_raises self w) as Hnr.
  destruct (PrepareRoll_branch self w) as [[u|c|e1] w1] eqn:E;
    cbn [fst] in Hnr.
  - assert (Hr : on_roll w1) by (eapply branch_ret_on_roll; exact E).
    erewrite bind_ret by exact E.
    apply after_branch_raised. exact Hr.
  - erewrite bind_exit by exact E. discriminate.
  - exfalso. exact (Hnr e1 eq_refl).
Qed.

Lemma PrepareRoll_raised (self : AutoRoller) :
  raised_leaves_roll (PrepareRoll self).
Proof.
  unfold PrepareRoll.
  destruct (negb (_ignore_checks self)); [|apply roll_raised].
  apply rlr_bind_nr; [apply GetCurrentBranchName_never_raises | intros b].
  destruct (negb (b =? "master")); [apply rlr_ret|].
  apply rlr_bind_nr; [apply IsTreeClean_never_raises | intros c].
  destruct (negb c); [apply rlr_ret | apply roll_raised].
Qed.

Lemma git_commit_scan_cases (lines : list string) :
  (exists id, git_commit_scan lines = Ret id) \/
  git_commit_scan lines = SysExit (-1) \/
  git_commit_scan lines = Raised "IndexError".
Proof.
  induction lines as [|l ls IH]; cbn [git_commit_scan]; [auto|].
  destruct (startswith "commit " l); [|exact IH].
  destruct (split_ws l) as [|x [|id t]]; eauto.
Qed.

Lemma git_commit_keyword_alone (above below : list string) (gap : string) :
  (forall l, In l above -> startswith "commit " l = false) ->
  every is_space gap = true ->
  git_commit_scan (List.app above (("commit " ++ gap) :: below))
  = Raised "IndexError".
Proof.
  intros Ha Hg. rewrite git_commit_scan_skip by exact Ha.
  cbn [git_commit_scan]. rewrite startswith_app.
  replace ("commit " ++ gap) with ("commit" ++ (String " " gap) ++ "")
    by (cbn [String.append]; now rewrite app_nil_r_s).
  rewrite split_ws_word; [| discriminate | reflexivity | reflexivity].
  rewrite split_ws_spaces by (cbn [every]; rewrite Hg; reflexivity).
  reflexivity.
Qed.

(* ================================================================== *)
(** ** Failures *)

(** C2, as the script has it.  A wrong branch and a dirty tree make
    PrepareRoll return -1 after read-only queries, an invalid checkout
    makes [main] return -2 before any command, and the checkout is as it
    was.  A parse failure never gives a default value and ends the process
    with a status other than 0: with status -1 when no line carries a
    sequence number, when no line starts with "commit ", and when the
    reply of the review tool or its address does not match; with an
    uncaught IndexError when the first line that starts with "commit "
    has nothing but white space after the keyword, and the commit parser
    ends in no other way.  In PrepareRoll status -1 and an uncaught
    exception both come after the roll branch was created, and leave that
    branch checked out. *)
Theorem failures_and_what_they_leave :
  (forall (self : AutoRoller) (w : World),
      _ignore_checks self = false ->
      plain (cur_name (repo w)) = true ->
      cur_name (repo w) <> "master" ->
      PrepareRoll self w
      = (Ret (-1)%Z,
         logged (cmd self ["git"; "rev-parse"; "--abbrev-ref"; "HEAD"]) 0
                (repo w) w)) /\
  (forall (self : AutoRoller) (w : World),
      _ignore_checks self = false ->
      cur_name (repo w) = "master" ->
      tree_clean (repo w) = false ->
      PrepareRoll self w
      = (Ret (-1)%Z,
         logged (cmd self ["git"; "status"; "--porcelain"]) 0 (repo w)
           (logged (cmd self ["git"; "rev-parse"; "--abbrev-ref"; "HEAD"]) 0
                   (repo w) w))) /\
  (forall (platform : string) (args : Args) (w : World),
      platform <> "win32" -> platform <> "cygwin" ->
      is_checkout (outside w) (checkout_dir args w) = false ->
      main platform args w = (Ret (-2)%Z, w)) /\
  (forall description : string,
      (forall l, In l (splitlines description) ->
                 re_match GIT_SVN_ID_RE (strip l) = None) ->
      _ParseSvnRevisionFromGitDescription description = SysExit (-1)) /\
  (forall description : string,
      (forall l, In l (splitlines description) ->
                 startswith "commit " l = false) ->
      _ParseGitCommitFromDescription description = SysExit (-1)) /\
  (forall (description : string) (above below : list string) (gap : string),
      splitlines description
      = List.app above (("commit " ++ gap) :: below) ->
      (forall l, In l above -> startswith "commit " l = false) ->
      every is_space gap = true ->
      _ParseGitCommitFromDescription description = Raised "IndexError") /\
  (forall description : string,
      (exists id, _ParseGitCommitFromDescription description = Ret id) \/
      _ParseGitCommitFromDescription description = SysExit (-1) \/
      _ParseGitCommitFromDescription description = Raised "IndexError") /\
  (forall (self : AutoRoller) (w : World) (out : string),
      reply (outside w) (cmd self ["git"; "cl"; "issue"]) = (0%Z, out) ->
      re_match CL_ISSUE_RE (strip out) = None \/
      (exists m, re_match CL_ISSUE_RE (strip out) = Some m /\
                 re_match RIETVELD_URL_RE (group m 2) = None) ->
      fst (_GetCLInfo self w) = SysExit (-1)) /\
  (forall (self : AutoRoller) (w : World),
      quiet w ->
      fst (PrepareRoll self w) = SysExit (-1) ->
      cur_name (repo (snd (PrepareRoll self w))) = ROLL_BRANCH_NAME) /\
  (forall (self : AutoRoller) (w : World) (e : string),
      fst (PrepareRoll self w) = Raised e ->
      cur_name (repo (snd (PrepareRoll self w))) = ROLL_BRANCH_NAME).
Proof.
  repeat split.
  - intros self w Hi Hp Hne. unfold PrepareRoll. rewrite Hi. cbn [negb].
    erewrite bind_ret by (apply GetCurrentBranchName_run; exact Hp).
    apply String.eqb_neq in Hne. rewrite Hne. reflexivity.
  - intros self w Hi Hm Hd. unfold PrepareRoll. rewrite Hi. cbn [negb].
    erewrite bind_ret
      by (apply GetCurrentBranchName_run; rewrite Hm; reflexivity).
    rewrite Hm. change ("master" =? "master") with true. cbn [negb].
    erewrite bind_ret by apply IsTreeClean_run.
    change (repo (logged _ _ (repo w) w)) with (repo w).
    rewrite Hd. reflexivity.
  - apply main_invalid_checkout.
  - apply svn_revision_no_match.
  - intros description H. apply git_commit_scan_none, H.
  - intros description above below gap Hs Ha Hg.
    unfold _ParseGitCommitFromDescription. rewrite Hs.
    apply git_commit_keyword_alone; assumption.
  - intros description. apply git_commit_scan_cases.
  - intros self w out Hr H. rewrite (GetCLInfo_run self w Hr). cbv zeta.
    destruct H as [-> | (m & -> & ->)]; reflexivity.
  - intros self w Hq H. exact (@PrepareRoll_fatal self w Hq H).
  - intros self w e H. exact (@PrepareRoll_raised self w e H).
Qed.

(** An instance of C2: the fatal parse error of the sample leaves the roll
    branch checked out. *)
Lemma failures_and_what_they_leave_witness :
  fst (PrepareRoll sample_roller bare_world) = SysExit (-1) /\
  cur_name (repo (snd (PrepareRoll sample_roller bare_world)))
  = ROLL_BRANCH_NAME.
Proof.
  assert (H : fst (PrepareRoll sample_roller bare_world) = SysExit (-1))
    by (vm_compute; reflexivity).
  split; [exact H|].
  destruct failures_and_what_they_leave as (_ & _ & _ & _ & _ & _ & _ & _ & F & _).
  exact (F sample_roller bare_world bare_world_quiet H).
Defined.

(* ================================================================== *)
(** ** The stale roll branch *)

Lemma PrepareRoll_unchecked (self : AutoRoller) (w : World) :
  _ignore_checks self = true -> PrepareRoll self w = PrepareRoll_roll self w.
Proof. intros Hi. unfold PrepareRoll. rewrite Hi. reflexivity. Qed.

(** C6, as the script has it.  Before it creates the roll branch,
    PrepareRoll asks for the deletion of the branch of the reserved name
    and ignores the answer.  From a checkout that is not on the roll
    branch (with the checks on: on master, with a clean tree and a pull
    that succeeds) a stale roll branch is deleted if there is one, the
    roll branch is created at the base revision beside the branches that
    were there, no other branch has its name, and the roll goes on from
    there.  A roll branch that is checked out is not deleted: with the
    checks on PrepareRoll returns -1 before it asks for the deletion, and
    with the checks off the deletion is refused, the creation fails and
    the process ends with status 128, the checkout being as it was. *)
Theorem stale_branch_dropped_before_creation :
  forall (self : AutoRoller) (w : World),
    (cur_name (repo w) <> ROLL_BRANCH_NAME ->
     (_ignore_checks self = false ->
      cur_name (repo w) = "master" /\ tree_clean (repo w) = true /\
      fst (reply (outside w) (cmd self ["git"; "pull"])) = 0%Z) ->
     exists w1,
       PrepareRoll self w = PrepareRoll_after_branch self w1 /\
       cur_name (repo w1) = ROLL_BRANCH_NAME /\
       cur_rev (repo w1) = roll_base self w /\
       others (repo w1)
       = (cur_name (repo w), roll_base self w)
         :: remove ROLL_BRANCH_NAME (others (repo w)) /\
       mem ROLL_BRANCH_NAME (names (others (repo w1))) = false /\
       log w1
       = List.app (log w) (List.app (checks_log self) (branch_log self w))) /\
    (cur_name (repo w) = ROLL_BRANCH_NAME ->
     _ignore_checks self = true ->
     PrepareRoll self w
     = (SysExit 128%Z,
        mkWorld (repo w) (outside w)
                (List.app (log w)
                   [(cmd self ["git"; "branch"; "-D"; ROLL_BRANCH_NAME], 1%Z);
                    (cmd self ["git"; "checkout"; "-b"; ROLL_BRANCH_NAME],
                     128%Z)]))) /\
    (cur_name (repo w) = ROLL_BRANCH_NAME ->
     _ignore_checks self = false ->
     PrepareRoll self w
     = (Ret (-1)%Z,
        logged (cmd self ["git"; "rev-parse"; "--abbrev-ref"; "HEAD"]) 0
               (repo w) w)).
Proof.
  intros self w. split; [|split].
  - intros Hcur Hchk.
    assert (Hmem : mem ROLL_BRANCH_NAME
                       (names ((cur_name (repo w), roll_base self w)
                               :: remove ROLL_BRANCH_NAME (others (repo w))))
                   = false).
    { rewrite mem_names_cons, mem_remove, orb_false_r.
      apply String.eqb_neq. congruence. }
    destruct (_ignore_checks self) eqn:Hi.
    + rewrite (PrepareRoll_unchecked self w Hi), PrepareRoll_roll_split.
      erewrite bind_ret
        by (apply branch_stage; [exact Hcur | intros H; congruence]).
      exists (after_branch self w). split; [reflexivity|].
      unfold after_branch, roll_base, checks_log, branch_log in *.
      rewrite Hi in *. cbn [repo cur_name cur_rev others log].
      repeat split; try assumption; reflexivity.
    + destruct (Hchk eq_refl) as (Hm & Hc & Hp).
      rewrite (checks_stage self w Hm Hc), PrepareRoll_roll_split.
      erewrite bind_ret.
      2:{ apply branch_stage.
          - unfold add_log. cbn [repo]. exact Hcur.
          - intros _. unfold add_log. cbn [repo outside]. split; [exact Hp|].
            apply tree_clean_true in Hc. unfold tracked_modified.
            destruct Hc as (-> & -> & _). reflexivity. }
      exists (after_branch self (add_log (checks_log self) w)).
      split; [reflexivity|].
      unfold after_branch, roll_base, checks_log, branch_log, add_log in *.
      rewrite Hi in *. cbn [repo outside cur_name cur_rev others log].
      repeat split; try assumption;
        try (rewrite <- !app_assoc; reflexivity).
  - intros Hc Hi.
    rewrite (PrepareRoll_unchecked self w Hi).
    unfold PrepareRoll_roll, PrepareRoll_branch. rewrite Hi. cbn [negb].
    rewrite !bind_bind.
    erewrite bind_ret.
    2:{ rewrite run_command_unfold. cbv zeta. rewrite exec_branch_delete.
        unfold git_branch_delete. rewrite Hc, String.eqb_refl. reflexivity. }
    rewrite ?bind_bind. erewrite bind_ret by reflexivity.
    rewrite ?bind_bind. erewrite bind_exit.
    2:{ rewrite run_command_unfold. cbv zeta. rewrite exec_checkout_new.
        unfold git_checkout_new, has_branch, logged. cbn [repo cur_name].
        rewrite Hc, String.eqb_refl. reflexivity. }
    unfold logged. cbn [repo outside log]. rewrite <- app_assoc. reflexivity.
  - intros Hc Hi. unfold PrepareRoll. rewrite Hi. cbn [negb].
    erewrite bind_ret
      by (apply GetCurrentBranchName_run; rewrite Hc; reflexivity).
    rewrite Hc. reflexivity.
Qed.

(** An instance of C6: a stale roll branch is replaced by a fresh one. *)
Lemma stale_branch_dropped_before_creation_witness :
  mem ROLL_BRANCH_NAME (names (others (repo stale_world))) = true /\
  exists w1,
    PrepareRoll sample_roller stale_world
    = PrepareRoll_after_branch sample_roller w1 /\
    cur_name (repo w1) = ROLL_BRANCH_NAME /\
    cur_rev (repo w1) = upstream (outside stale_world) /\
    mem ROLL_BRANCH_NAME (names (others (repo w1))) = false.
Proof.
  split; [reflexivity|].
  destruct (proj1 (stale_branch_dropped_before_creation
                     sample_roller stale_world))
    as (w1 & H1 & H2 & H3 & _ & H4 & _).
  - discriminate.
  - intros _. split; [reflexivity|]. split; reflexivity.
  - exists w1. auto.
Defined.

(** C6 as stated fails: with the checks switched off and the stale roll
    branch checked out, the deletion is refused and ignored, the creation
    fails, and the stale branch is still there, at its stale tip. *)
Lemma stale_branch_kept_counterexample :
  _ignore_checks unchecked_roller = true /\
  has_branch ROLL_BRANCH_NAME (repo on_roll_world) = true /\
  fst (PrepareRoll unchecked_roller on_roll_world) = SysExit 128%Z /\
  argv_log (snd (PrepareRoll unchecked_roller on_roll_world))
  = [(["git"; "branch"; "-D"; ROLL_BRANCH_NAME], 1%Z);
     (["git"; "checkout"; "-b"; ROLL_BRANCH_NAME], 128%Z)] /\
  repo (snd (PrepareRoll unchecked_roller on_roll_world)) = repo on_roll_world /\
  has_branch ROLL_BRANCH_NAME
             (repo (snd (PrepareRoll unchecked_roller on_roll_world))) = true.
Proof. repeat split; vm_compute; reflexivity. Qed.

